(** * MutPy controller: a shallow embedding of [mutpy/controller.py]

    The development follows the source file: the exception class, the
    outcome ledger [MutationScore], the [Mutator] generator, and the
    [MutationController] with its baseline check, materialisation and
    bounded test run.  Python integers are [Z] and strings are
    [string].  A finite Python float is the rational [Q] it denotes:
    the score [count] computes is rounded to binary64 after each
    operation ([Float64.round]), wall-clock readings and the durations
    taken from them are kept as read.  Statements run in a monad over the controller's state in which a
    raised exception keeps the state reached so far, as Python does.

    Collaborators that live outside [controller.py] (the [utils] and
    [views] modules, the loaders, the mutation operators, [unittest]) are
    modelled by their observable behaviour; each such definition says so. *)

From Stdlib Require Import List String Ascii ZArith QArith Bool Lia Lqa Arith.
From Stdlib Require SpecFloat.
Import ListNotations.

Set Implicit Arguments.

Local Open Scope string_scope.
Local Open Scope list_scope.
Local Open Scope Z_scope.

(* ================================================================== *)
(** ** Python values used by the controller *)

(** [sys.exc_info()] triple as [unittest] hands it to [addError]:
    exception class name, exception value, traceback text. *)
Record exc_info : Type := ExcInfo {
  exc_type  : string;
  exc_value : string;
  exc_tb    : string
}.

Definition test_id := string.
Definition traceback := string.

(** [unittest.TestResult]: the attributes the controller reads or sets,
    and [unexpectedSuccesses], which [wasSuccessful] reads. *)
Record TestResult : Type := mkTestResult {
  failures            : list (test_id * traceback);
  errors              : list (test_id * traceback);
  unexpectedSuccesses : list test_id;
  testsRun            : Z;
  shouldStop          : bool;
  failfast            : bool
}.

(** [unittest.TestResult()] *)
Definition new_TestResult : TestResult :=
  mkTestResult [] [] [] 0 false false.

(** [TestResult.wasSuccessful] (Python 3.4 and later):
    [len(self.failures) == len(self.errors) == 0] and
    [len(self.unexpectedSuccesses) == 0] *)
Definition wasSuccessful (r : TestResult) : bool :=
  match failures r, errors r, unexpectedSuccesses r with
  | [], [], [] => true
  | _, _, _ => false
  end.

(** Exceptions that travel through the controller.  [KeyboardInterrupt]
    and [SystemExit] derive from [BaseException] only; every other one is
    an instance of [Exception]. *)
Inductive exn : Type :=
| KeyboardInterrupt
| SystemExit
| TestsFailAtOriginal (result : TestResult)
| ModulesLoaderException (name : string)
| UnboundLocalError (var : string)
| ZeroDivisionError
| PyException (cls : string) (msg : string).

(** [isinstance(e, Exception)], the test behind [except Exception]. *)
Definition is_Exception (e : exn) : bool :=
  match e with
  | KeyboardInterrupt | SystemExit => false
  | _ => true
  end.

(* ================================================================== *)
(** ** Python floats *)

(** A Python float is an IEEE 754 binary64 number.  A finite one is kept
    here as the rational it denotes, and an operation on floats is the
    exact operation followed by [round], which takes a rational to the
    nearest one with a significand of 53 bits, ties to the even
    significand.  The exponent range is left out: on a ledger with
    counters between 0 and 2^1000 the quotient and the product of
    [MutationScore.count] are 0 or lie between 2^-1002 and 100, within
    the range of normal numbers, where no overflow or underflow
    happens. *)

Module Float64.

(** The integer nearest to [n / d], for [d > 0]; of two equally near
    ones the even one. *)
Definition nearest_even (n d : Z) : Z :=
  let f := n / d in
  let r := n mod d in
  match 2 * r ?= d with
  | Lt => f
  | Gt => f + 1
  | Eq => if Z.even f then f else f + 1
  end.

(** The exponent [e] of the last place of [n / d], for positive [n] and
    [d]: the one with [2^52 <= (n / d) / 2^e < 2^53].  The binary
    logarithms give it up to one. *)
Definition ulp_exponent (n d : Z) : Z :=
  let e0 := Z.log2 n - Z.log2 d - 52 in
  if n * 2 ^ Z.max 0 (- e0) <? d * 2 ^ Z.max 0 e0 * 2 ^ 52
  then e0 - 1 else e0.

(** [n / d] rounded: the significand nearest to [(n / d) / 2^e], times
    [2^e]. *)
Definition round_pos (n d : Z) : Q :=
  let e := ulp_exponent n d in
  let m := nearest_even (n * 2 ^ Z.max 0 (- e)) (d * 2 ^ Z.max 0 e) in
  (m * 2 ^ Z.max 0 e) # Z.to_pos (2 ^ Z.max 0 (- e)).

Definition round (q : Q) : Q :=
  match Qnum q with
  | 0 => 0%Q
  | Zpos n => round_pos (Zpos n) (Zpos (Qden q))
  | Zneg n => (- round_pos (Zpos n) (Zpos (Qden q)))%Q
  end.

End Float64.

(* ================================================================== *)
(** ** MutationScore: the outcome ledger *)

Module MutationScore.

Record t : Type := mk {
  killed_mutants      : Z;
  timeout_mutants     : Z;
  incompetent_mutants : Z;
  survived_mutants    : Z
}.

(** [__init__] *)
Definition init : t := mk 0 0 0 0.

(** property [all_mutants] *)
Definition all_mutants (s : t) : Z :=
  killed_mutants s + timeout_mutants s + incompetent_mutants s
  + survived_mutants s.

(** Python's true division of two integers in exact arithmetic: the
    rational that the float of [truediv_float] is rounded from; a zero
    divisor raises. *)
Definition truediv (a b : Z) : exn + Q :=
  if b =? 0 then inl ZeroDivisionError
  else inr (inject_Z a / inject_Z b)%Q.

(** [count]:
    [bottom = self.all_mutants - self.incompetent_mutants]
    [return (((killed + timeout) / bottom) * 100) if bottom else 0]
    in exact arithmetic, without the two roundings of [count_float]. *)
Definition count (s : t) : exn + Q :=
  let bottom := all_mutants s - incompetent_mutants s in
  if negb (bottom =? 0) then
    match truediv (killed_mutants s + timeout_mutants s) bottom with
    | inr q => inr (q * inject_Z 100)%Q
    | inl e => inl e
    end
  else inr (inject_Z 0).



Definition inc_killed (s : t) : t :=
  mk (killed_mutants s + 1) (timeout_mutants s)
     (incompetent_mutants s) (survived_mutants s).

Definition inc_timeout (s : t) : t :=
  mk (killed_mutants s) (timeout_mutants s + 1)
     (incompetent_mutants s) (survived_mutants s).

Definition inc_incompetent (s : t) : t :=
  mk (killed_mutants s) (timeout_mutants s)
     (incompetent_mutants s + 1) (survived_mutants s).

Definition inc_survived (s : t) : t :=
  mk (killed_mutants s) (timeout_mutants s)
     (incompetent_mutants s) (survived_mutants s + 1).

End MutationScore.

(* ================================================================== *)
(** ** The world around the controller *)

(** What [TestCase.run] tells the result about one test between
    [startTest] and [stopTest].  A failing body, and a raising [setUp],
    body, [tearDown] or clean-up, each add an entry, so one test can
    leave several; a skip and an expected failure go to lists the
    controller never reads; a test marked as an expected failure that
    passes is an unexpected success. *)
Inductive report : Type :=
| AddFailure (tb : traceback)
| AddError (err : exc_info)
| AddSkip (reason : string)
| AddExpectedFailure (err : exc_info)
| AddUnexpectedSuccess.

(** What running one test does: the reports it makes, in order.  A test
    that passes makes none ([addSuccess] records nothing). *)
Definition verdict : Type := list report.

Definition Passes : verdict := [].
Definition Fails (tb : traceback) : verdict := [AddFailure tb].
Definition Errors (err : exc_info) : verdict := [AddError err].

(** Time a test needs against a mutant; mutated code may loop forever. *)
Inductive cost : Type :=
| Takes (q : Q)
| Forever.

(** A syntax tree is opaque to the controller.  The model keeps, with
    each tree, what Python does with it: what [compile] and [exec] raise
    (if anything) and how every test behaves against the loaded module. *)
Record Ast : Type := mkAst {
  ast_id      : nat;
  ast_compile : option exn;
  ast_exec    : option exn;
  ast_tests   : test_id -> cost * verdict
}.

(** A loaded module object ([types.ModuleType]) executing [mod_code]. *)
Record Module : Type := mkModule {
  mod_name : string;
  mod_code : Ast
}.

(** A test module: the tests [loadTestsFromModule] finds, the tests
    [loadTestsFromName] finds for a name, and how each test behaves
    against the unmodified target (the baseline terminates). *)
Record TestModule : Type := mkTestModule {
  tm_name     : string;
  tm_all      : list test_id;
  tm_named    : string -> list test_id;
  tm_original : test_id -> Q * verdict
}.

(** A target module: [__name__], [__file__], and what opening and
    parsing the file gives. *)
Record TargetModule : Type := mkTargetModule {
  tgt_name  : string;
  tgt_file  : string;
  tgt_parse : exn + Ast
}.

(** A Python generator that ends: the values it yields, then either
    exhaustion or a raised exception. *)
Record Gen (A : Type) : Type := mkGen {
  yielded : list A;
  ending  : option exn
}.

(** Modelled from the spec: a loader ([target_loader], [test_loader],
    not in [controller.py]): its [names] and what [load()] yields, pairs
    of a module and a restriction, possibly ended by a load error
    (section 6). *)
Record Loader (A : Type) : Type := mkLoader {
  names : list string;
  load  : Gen A
}.

(* ================================================================== *)
(** ** Mutator: the mutation generator *)

Module Mutator.

(** Modelled from the spec: a mutation operator class (the operators
    are not in [controller.py]); [op().mutate(target_ast, to_mutate)]
    yields [(mutant, lineno)] pairs (section 6: [enumerate(tree,
    restriction)]).  A fresh operator instance is made for every
    enumeration, so the pairs depend on the arguments only. *)
Record Operator : Type := mkOperator {
  op_name   : string;
  op_mutate : Ast -> option string -> list (Ast * nat)
}.

Record t : Type := mk { operators : list Operator }.

(** [add_operator]: [self.operators.append(operator)] *)
Definition add_operator (m : t) (operator : Operator) : t :=
  mk (operators m ++ [operator]).

(** [mutate]: the values the generator yields, in order:
    [for op in self.operators:]
    [    for mutant, lineno in op().mutate(target_ast, to_mutate):]
    [        yield op, lineno, mutant] *)
Fixpoint mutate_ops (ops : list Operator) (target_ast : Ast)
         (to_mutate : option string) : list (Operator * nat * Ast) :=
  match ops with
  | [] => []
  | op :: rest =>
      map (fun p => (op, snd p, fst p)) (op_mutate op target_ast to_mutate)
      ++ mutate_ops rest target_ast to_mutate
  end.

Definition mutate (m : t) (target_ast : Ast) (to_mutate : option string)
  : list (Operator * nat * Ast) :=
  mutate_ops (operators m) target_ast to_mutate.

(** The generator object itself, resumed one [next()] at a time: the
    operators not yet asked, and the pairs of the current operator not
    yet yielded. *)
Record frame : Type := mkFrame {
  ops_left   : list Operator;
  current    : option (Operator * list (Ast * nat))
}.

Definition start (m : t) : frame := mkFrame (operators m) None.

(** Enter the outer loop until some operator yields. *)
Fixpoint next_op (ops : list Operator) (target_ast : Ast)
         (to_mutate : option string)
  : option (Operator * nat * Ast * frame) :=
  match ops with
  | [] => None
  | op :: rest =>
      match op_mutate op target_ast to_mutate with
      | [] => next_op rest target_ast to_mutate
      | (mutant, lineno) :: more =>
          Some (op, lineno, mutant, mkFrame rest (Some (op, more)))
      end
  end.

(** One [next()] on the generator: [None] is [StopIteration]. *)
Definition next (f : frame) (target_ast : Ast) (to_mutate : option string)
  : option (Operator * nat * Ast * frame) :=
  match current f with
  | Some (op, (mutant, lineno) :: more) =>
      Some (op, lineno, mutant, mkFrame (ops_left f) (Some (op, more)))
  | _ => next_op (ops_left f) target_ast to_mutate
  end.

(** Resume the generator at most [fuel] times, collecting the values. *)
Fixpoint drain (fuel : nat) (f : frame) (target_ast : Ast)
         (to_mutate : option string) : list (Operator * nat * Ast) :=
  match fuel with
  | O => []
  | S fuel' =>
      match next f target_ast to_mutate with
      | None => []
      | Some (op, lineno, mutant, f') =>
          (op, lineno, mutant) :: drain fuel' f' target_ast to_mutate
      end
  end.

End Mutator.

(* ================================================================== *)
(** ** Controller state and the effect monad *)

(** Modelled from the spec: the notification sink ([views.ViewNotifier],
    not in [controller.py]) receives these messages in order (section 6). *)
Inductive notification : Type :=
| NInitialize (targets tests : list string)
| NPassed (tests : list (string * option string * Q))
| NStart
| NMutation (number : Z) (op : string) (filename : string) (lineno : nat)
            (tree : nat)
| NIncompetent (exception : exn)
| NKilled (duration : Q) (killer : test_id) (trace : traceback)
| NSurvived (duration : Q)
| NTimeout
| NEnd (score : MutationScore.t) (duration : Q)
| NCantLoad (name : string)
| NOriginalTestsFail (result : TestResult).

(** What an observer of the process sees, oldest first. *)
Inductive event : Type :=
| Notify (n : notification)
| BaselineRun (test_module : string)
| ThreadStart (tree : nat)
| ThreadKill (tree : nat).

(** The runner thread of the mutant under evaluation: none yet, running
    its suite, finished with it, or asked to stop by [kill] and not seen
    to have stopped. *)
Inductive thread_state : Type :=
| NoThread
| Running (tree : nat)
| Finished (tree : nat)
| KillRequested (tree : nat).

(** The state the controller works on.  [score_var] is the local [score]
    of [run_mutation] ([None] while unbound); the [MutationScore] object is
    passed by reference, so it lives here and increments survive an
    exception that unwinds the loop.  [sigint] schedules the operator's
    interrupt: [Some n] delivers [KeyboardInterrupt] in the [n]-th
    blocking call from now, [None] is a run in which no interrupt is
    delivered. *)
Record state : Type := mkState {
  stdout_off : bool;
  score_var  : option MutationScore.t;
  log        : list event;
  now        : Q;
  sigint     : option nat;
  runner     : thread_state
}.

Definition initial_state (interrupt : option nat) : state :=
  mkState false None [] 0%Q interrupt NoThread.

Definition set_stdout_off (b : bool) (s : state) : state :=
  mkState b (score_var s) (log s) (now s) (sigint s) (runner s).
Definition set_score_var (v : option MutationScore.t) (s : state) : state :=
  mkState (stdout_off s) v (log s) (now s) (sigint s) (runner s).
Definition add_event (e : event) (s : state) : state :=
  mkState (stdout_off s) (score_var s) (log s ++ [e]) (now s) (sigint s)
          (runner s).
Definition set_now (q : Q) (s : state) : state :=
  mkState (stdout_off s) (score_var s) (log s) q (sigint s) (runner s).
Definition set_sigint (i : option nat) (s : state) : state :=
  mkState (stdout_off s) (score_var s) (log s) (now s) i (runner s).
Definition set_runner (r : thread_state) (s : state) : state :=
  mkState (stdout_off s) (score_var s) (log s) (now s) (sigint s) r.

(** A statement either completes with a value or raises. *)
Inductive res (A : Type) : Type :=
| Val (a : A)
| Raise (e : exn).
Arguments Raise {A} e.

Definition M (A : Type) : Type := state -> res A * state.

Definition ret {A} (a : A) : M A := fun s => (Val a, s).

Definition bind {A B} (m : M A) (k : A -> M B) : M B :=
  fun s =>
    match m s with
    | (Val a, s') => k a s'
    | (Raise e, s') => (Raise e, s')
    end.

Definition raise {A} (e : exn) : M A := fun s => (Raise e, s).

Declare Scope py_scope.
Delimit Scope py_scope with py.
Notation "x <- m ;; k" := (bind m (fun x => k))
  (at level 61, m at next level, right associativity) : py_scope.
Notation "m ;; k" := (bind m (fun _ => k))
  (at level 61, right associativity) : py_scope.
Local Open Scope py_scope.

(** [try: body  except <handled>: handler]; a handler-less exception
    keeps propagating, and the state reached before the raise stays. *)
Definition try_except {A} (body : M A) (handler : exn -> option (M A))
  : M A :=
  fun s =>
    match body s with
    | (Val a, s') => (Val a, s')
    | (Raise e, s') =>
        match handler e with
        | Some h => h s'
        | None => (Raise e, s')
        end
    end.

(** [for x in xs: acc = body(acc, x)] *)
Fixpoint for_fold {A B} (xs : list A) (acc : B) (body : B -> A -> M B)
  : M B :=
  match xs with
  | [] => ret acc
  | x :: rest => acc' <- body acc x ;; for_fold rest acc' body
  end.

Definition for_each {A} (xs : list A) (body : A -> M unit) : M unit :=
  for_fold xs tt (fun _ x => body x).

(** [for x in gen: ...] over a generator that may end by raising. *)
Definition for_gen_fold {A B} (g : Gen A) (acc : B) (body : B -> A -> M B)
  : M B :=
  acc' <- for_fold (yielded g) acc body ;;
  match ending g with
  | None => ret acc'
  | Some e => raise e
  end.

Definition for_gen {A} (g : Gen A) (body : A -> M unit) : M unit :=
  for_gen_fold g tt (fun _ x => body x).

(** A call the controller blocks in (file, compile, exec, test run,
    join).  The scheduled interrupt, if due, is raised there, and at
    most one is delivered in a run.  Python can deliver
    [KeyboardInterrupt] between any two bytecodes, also between a
    [notify_*] call and the [inc_*] call after it or outside the
    handler of [run_mutation]; such deliveries are not among the
    schedules of [sigint], so a statement over every [sigint] covers the
    interrupts that arrive while the controller waits, and one under
    [sigint s = None] covers the runs without an interrupt. *)
Definition blocking : M unit :=
  fun s =>
    match sigint s with
    | Some O => (Raise KeyboardInterrupt, set_sigint None s)
    | Some (S n) => (Val tt, set_sigint (Some n) s)
    | None => (Val tt, s)
    end.

Definition emit (e : event) : M unit := fun s => (Val tt, add_event e s).

(** Modelled from the spec: [notify_*] of [views.ViewNotifier] hands the
    message to the sink. *)
Definition notify (n : notification) : M unit := emit (Notify n).

(** Modelled from the spec: [utils.TimeRegister()] reads the wall
    clock. *)
Definition TimeRegister : M Q := fun s => (Val (now s), s).

(** Modelled from the spec: [utils.TimeRegister.stop] gives the time
    since the register was made, in lowest terms. *)
Definition TimeRegister_stop (started : Q) : M Q :=
  fun s => (Val (Qred (now s - started)), s).

(** The wall clock moves on while the controller waits. *)
Definition elapse (d : Q) : M unit :=
  fun s => (Val tt, set_now (Qred (now s + d)) s).

(** Operations on the [MutationScore] object bound to [score]. *)
Definition read_score : M MutationScore.t :=
  fun s =>
    match score_var s with
    | Some sc => (Val sc, s)
    | None => (Raise (UnboundLocalError "score"), s)
    end.

Definition on_score (f : MutationScore.t -> MutationScore.t) : M unit :=
  sc <- read_score ;;
  fun s => (Val tt, set_score_var (Some (f sc)) s).

Definition bind_score (sc : MutationScore.t) : M unit :=
  fun s => (Val tt, set_score_var (Some sc) s).

(** Entering [run_mutation]: a fresh frame, its locals unbound. *)
Definition fresh_frame : M unit :=
  fun s => (Val tt, set_score_var None s).

(* ================================================================== *)
(** ** unittest results and suites *)

(** [TestResult.stop] *)
Definition stop (r : TestResult) : TestResult :=
  mkTestResult (failures r) (errors r) (unexpectedSuccesses r) (testsRun r)
               true (failfast r).

(** [TestResult.startTest] *)
Definition startTest (r : TestResult) : TestResult :=
  mkTestResult (failures r) (errors r) (unexpectedSuccesses r)
               (testsRun r + 1) (shouldStop r) (failfast r).

(** [TestResult.addFailure], decorated with [@failfast] *)
Definition addFailure (t : test_id) (tb : traceback) (r : TestResult)
  : TestResult :=
  let r' := if failfast r then stop r else r in
  mkTestResult (failures r' ++ [(t, tb)]) (errors r')
               (unexpectedSuccesses r') (testsRun r') (shouldStop r')
               (failfast r').

(** [TestResult.addError], decorated with [@failfast] *)
Definition addError (t : test_id) (err : exc_info) (r : TestResult)
  : TestResult :=
  let r' := if failfast r then stop r else r in
  mkTestResult (failures r') (errors r' ++ [(t, exc_tb err)])
               (unexpectedSuccesses r') (testsRun r') (shouldStop r')
               (failfast r').

(** [TestResult.addUnexpectedSuccess], decorated with [@failfast] *)
Definition addUnexpectedSuccess (t : test_id) (r : TestResult)
  : TestResult :=
  let r' := if failfast r then stop r else r in
  mkTestResult (failures r') (errors r') (unexpectedSuccesses r' ++ [t])
               (testsRun r') (shouldStop r') (failfast r').

Definition set_failfast (b : bool) (r : TestResult) : TestResult :=
  mkTestResult (failures r) (errors r) (unexpectedSuccesses r) (testsRun r)
               (shouldStop r) b.

(** One report of a test against a plain [TestResult]; [addSkip] and
    [addExpectedFailure] touch nothing the controller reads. *)
Definition apply_report (t : test_id) (r : TestResult) (p : report)
  : TestResult :=
  match p with
  | AddFailure tb => addFailure t tb r
  | AddError err => addError t err r
  | AddSkip _ => r
  | AddExpectedFailure _ => r
  | AddUnexpectedSuccess => addUnexpectedSuccess t r
  end.

(** [TestCase.run] against a plain [TestResult]: [startTest], then the
    reports of the test in order. *)
Definition run_case (t : test_id) (v : verdict) (r : TestResult)
  : TestResult :=
  fold_left (apply_report t) v (startTest r).

(** Modelled from the spec: [utils.CustomTestResult], a [TestResult] that
    sets an execution-environment [TypeError] aside in [type_error]
    instead of listing it among the errors. *)
Record CustomTestResult : Type := mkCustom {
  base       : TestResult;
  type_error : option exc_info
}.

(** Modelled from the spec: [utils.CustomTestResult()], nothing set
    aside yet. *)
Definition new_CustomTestResult : CustomTestResult :=
  mkCustom new_TestResult None.

(** Modelled from the spec: [utils.CustomTestResult.addError] keeps a
    [TypeError] in [type_error] and hands any other error on to
    [TestResult.addError]. *)
Definition custom_addError (t : test_id) (err : exc_info)
           (r : CustomTestResult) : CustomTestResult :=
  if (exc_type err =? "TypeError")%string
  then mkCustom (base r) (Some err)
  else mkCustom (addError t err (base r)) (type_error r).

(** One report of a test against a [CustomTestResult]: only [addError]
    is overridden. *)
Definition custom_apply_report (t : test_id) (r : CustomTestResult)
           (p : report) : CustomTestResult :=
  match p with
  | AddError err => custom_addError t err r
  | _ => mkCustom (apply_report t (base r) p) (type_error r)
  end.

(** [TestCase.run] against a [CustomTestResult] *)
Definition custom_run_case (t : test_id) (v : verdict)
           (r : CustomTestResult) : CustomTestResult :=
  fold_left (custom_apply_report t) v
            (mkCustom (startTest (base r)) (type_error r)).

(** [loadTestsFromName(target_test, test_module)] when [target_test] is
    truthy, [loadTestsFromModule(test_module)] otherwise. *)
Definition load_tests (test_module : TestModule)
           (target_test : option string) : list test_id :=
  match target_test with
  | Some name =>
      if (name =? "")%string then tm_all test_module
      else tm_named test_module name
  | None => tm_all test_module
  end.

(** [TestSuite.run] on the controller's own thread, against the
    unmodified target: every test runs unless the result asks to stop.
    Returns the result and the time spent. *)
Fixpoint suite_run (original : test_id -> Q * verdict)
         (suite : list test_id) (result : TestResult) (spent : Q)
  : TestResult * Q :=
  match suite with
  | [] => (result, spent)
  | t :: rest =>
      if shouldStop result then (result, spent)
      else suite_run original rest
                     (run_case t (snd (original t)) result)
                     (spent + fst (original t))%Q
  end.

Definition Qlt_bool (x y : Q) : bool := negb (Qle_bool y x).

(** [TestSuite.run] on the runner thread, observed by the controller when
    [join(live_time)] returns: tests that end by the deadline have been
    recorded; the thread is still alive if a test was running then.
    Returns the result as it stands, the time the controller waited, and
    whether the thread has finished. *)
Fixpoint suite_run_until (live_time : Q) (mutant : test_id -> cost * verdict)
         (suite : list test_id) (result : CustomTestResult) (spent : Q)
  : CustomTestResult * Q * bool :=
  match suite with
  | [] => (result, spent, true)
  | t :: rest =>
      if shouldStop (base result) then (result, spent, true)
      else
        match fst (mutant t) with
        | Forever =>
            (mkCustom (startTest (base result)) (type_error result),
             live_time, false)
        | Takes c =>
            if Qle_bool (spent + c) live_time
            then suite_run_until live_time mutant rest
                   (custom_run_case t (snd (mutant t)) result) (spent + c)%Q
            else (mkCustom (startTest (base result)) (type_error result),
                  live_time, false)
        end
  end.

(** The last component of [s] split at [sep]:
    [path.basename] for ["/"], [name.split('.')[-1]] for ["."]. *)
Fixpoint last_component (sep : Ascii.ascii) (s : string) : string :=
  match s with
  | EmptyString => EmptyString
  | String c rest =>
      if existsb (Ascii.eqb sep) (list_ascii_of_string rest)
      then last_component sep rest
      else if Ascii.eqb c sep then rest
      else String c rest
  end.

Definition basename (p : string) : string := last_component "/"%char p.

(* ================================================================== *)
(** ** MutationController *)

Record MutationController : Type := mkController {
  target_loader    : Loader (TargetModule * option string);
  test_loader      : Loader (TestModule * option string);
  mutant_generator : Mutator.t;
  timeout_factor   : Q;
  (** the flag given to [utils.StdoutManager(disable_stdout)] *)
  stdout_manager   : bool
}.

(** Modelled from the spec: [utils.StdoutManager.disable_stdout] points
    [sys.stdout] at the null stream when suppression is configured. *)
Definition disable_stdout (self : MutationController) : M unit :=
  fun s =>
    (Val tt, if stdout_manager self then set_stdout_off true s else s).

(** Modelled from the spec: [utils.StdoutManager.enable_stdout] restores
    [sys.stdout]. *)
Definition enable_stdout (self : MutationController) : M unit :=
  fun s => (Val tt, set_stdout_off false s).

(** Modelled from the spec: [utils.KillableThread.start] puts the test
    run on a thread of its own. *)
Definition thread_start (tree : nat) : M unit :=
  emit (ThreadStart tree) ;;
  fun s => (Val tt, set_runner (Running tree) s).

(** Modelled from the spec: when the bounded [join] returns, the thread
    has finished if the suite ended within the wait. *)
Definition thread_settle (tree : nat) (finished : bool) : M unit :=
  fun s =>
    (Val tt, if finished then set_runner (Finished tree) s else s).

(** A thread is alive from [start] until it ends; one that was only
    asked to stop is not known to have ended. *)
Definition running (th : thread_state) : bool :=
  match th with
  | Running _ | KillRequested _ => true
  | _ => false
  end.

(** Modelled from the spec: [utils.KillableThread.is_alive]. *)
Definition is_alive : M bool := fun s => (Val (running (runner s)), s).

(** Modelled from the spec: [utils.KillableThread.kill] asks a thread
    that is still running to stop (section 4.2).  The call returns at
    once; the controller neither joins the thread again nor reads
    [is_alive()] after it, so all it knows of the thread from then on is
    that the request was made. *)
Definition kill : M unit :=
  fun s =>
    match runner s with
    | Running tree =>
        (Val tt,
         set_runner (KillRequested tree) (add_event (ThreadKill tree) s))
    | _ => (Val tt, s)
    end.

(** [run_test] *)
Definition run_test (self : MutationController) (test_module : TestModule)
           (target_test : option string) : M (TestResult * Q) :=
  let suite := load_tests test_module target_test in
  let result := new_TestResult in
  time_reg <- TimeRegister ;;
  disable_stdout self ;;
  emit (BaselineRun (tm_name test_module)) ;;
  blocking ;;
  let ran := suite_run (tm_original test_module) suite result 0%Q in
  elapse (snd ran) ;;
  enable_stdout self ;;
  duration <- TimeRegister_stop time_reg ;;
  ret (fst ran, duration).

(** One turn of the loop in [load_and_check_tests]. *)
Definition check_test (self : MutationController)
           (test_modules : list (TestModule * option string * Q))
           (item : TestModule * option string)
  : M (list (TestModule * option string * Q)) :=
  let test_module := fst item in
  let target_test := snd item in
  ran <- run_test self test_module target_test ;;
  let result := fst ran in
  let duration := snd ran in
  if wasSuccessful result
  then ret (test_modules ++ [(test_module, target_test, duration)])
  else raise (TestsFailAtOriginal result).

(** [load_and_check_tests] *)
Definition load_and_check_tests (self : MutationController)
  : M (list (TestModule * option string * Q)) :=
  for_gen_fold (load (test_loader self)) [] (check_test self).

(** [create_target_ast] *)
Definition create_target_ast (self : MutationController)
           (target_module : TargetModule) : M Ast :=
  blocking ;;
  match tgt_parse target_module with
  | inr tree => ret tree
  | inl e => raise e
  end.

(** [compile(mutant_ast, 'mutant', 'exec')] *)
Definition py_compile (mutant_ast : Ast) : M Ast :=
  blocking ;;
  match ast_compile mutant_ast with
  | None => ret mutant_ast
  | Some e => raise e
  end.

(** [exec(mutant_code, mutant_module.__dict__)] *)
Definition py_exec (mutant_code : Ast) : M unit :=
  blocking ;;
  match ast_exec mutant_code with
  | None => ret tt
  | Some e => raise e
  end.

(** [create_mutant_module] *)
Definition create_mutant_module (self : MutationController)
           (target_module : TargetModule) (mutant_ast : Ast)
  : M (option Module) :=
  try_except
    (mutant_code <- py_compile mutant_ast ;;
     let mutant_module :=
       mkModule (last_component "."%char (tgt_name target_module))
                mutant_code in
     disable_stdout self ;;
     py_exec mutant_code ;;
     enable_stdout self ;;
     ret (Some mutant_module))
    (fun exception =>
       if is_Exception exception
       then Some (notify (NIncompetent exception) ;; ret None)
       else None).

(** [create_test_suite]: the suite and the summed baseline durations *)
Fixpoint create_test_suite_from (tests_modules :
                                   list (TestModule * option string * Q))
         (suite : list test_id) (total_duration : Q) : list test_id * Q :=
  match tests_modules with
  | [] => (suite, total_duration)
  | (test_module, target_test, duration) :: rest =>
      create_test_suite_from rest
        (suite ++ load_tests test_module target_test)
        (total_duration + duration)%Q
  end.

Definition create_test_suite (tests_modules :
                                list (TestModule * option string * Q))
           (mutant_module : Module) : list test_id * Q :=
  create_test_suite_from tests_modules [] 0%Q.

(** [live_time = self.timeout_factor * total_duration
                 if total_duration > 1 else 1] *)
Definition live_time (self : MutationController) (total_duration : Q) : Q :=
  if Qlt_bool 1 total_duration
  then (timeout_factor self * total_duration)%Q
  else 1%Q.

(** [run_mutation_thread]: returns what the runner left in [result] when
    the join returned; the thread itself is [runner] in the state. *)
Definition run_mutation_thread (self : MutationController)
           (mutant_module : Module) (suite : list test_id)
           (total_duration : Q) (result : CustomTestResult)
  : M CustomTestResult :=
  let tree := ast_id (mod_code mutant_module) in
  disable_stdout self ;;
  let live := live_time self total_duration in
  thread_start tree ;;
  blocking ;;
  let ran := suite_run_until live (ast_tests (mod_code mutant_module))
                             suite result 0%Q in
  elapse (snd (fst ran)) ;;
  thread_settle tree (snd ran) ;;
  enable_stdout self ;;
  ret (fst (fst ran)).

(** The exception object in [result.type_error[1]]. *)
Definition exception_of (err : exc_info) : exn :=
  PyException (exc_type err) (exc_value err).

(** [append_score_and_notify_views] *)
Definition append_score_and_notify_views (self : MutationController)
           (result : CustomTestResult) (mutant_duration : Q) : M unit :=
  alive <- is_alive ;;
  if alive then
    kill ;;
    notify NTimeout ;;
    on_score MutationScore.inc_timeout
  else
    match type_error result with
    | Some err =>
        notify (NIncompetent (exception_of err)) ;;
        on_score MutationScore.inc_incompetent
    | None =>
        if wasSuccessful (base result) then
          notify (NSurvived mutant_duration) ;;
          on_score MutationScore.inc_survived
        else
          found <- match failures (base result) with
                   | first :: _ => ret first
                   | [] =>
                       match errors (base result) with
                       | first :: _ => ret first
                       | [] => raise (UnboundLocalError "killer")
                       end
                   end ;;
          notify (NKilled mutant_duration (fst found) (snd found)) ;;
          on_score MutationScore.inc_killed
    end.

(** [run_tests_with_mutant] *)
Definition run_tests_with_mutant (self : MutationController)
           (tests_modules : list (TestModule * option string * Q))
           (mutant_module : Module) : M unit :=
  let made := create_test_suite tests_modules mutant_module in
  let result :=
    mkCustom (set_failfast true (base new_CustomTestResult))
             (type_error new_CustomTestResult) in
  time_reg <- TimeRegister ;;
  result' <- run_mutation_thread self mutant_module (fst made) (snd made)
                                 result ;;
  duration <- TimeRegister_stop time_reg ;;
  append_score_and_notify_views self result' duration.

(** One turn of the loop in [mutate_module]. *)
Definition evaluate_mutant (self : MutationController)
           (target_module : TargetModule) (filename : string)
           (test_modules : list (TestModule * option string * Q))
           (item : Mutator.Operator * nat * Ast) : M unit :=
  let op := fst (fst item) in
  let lineno := snd (fst item) in
  let mutant_ast := snd item in
  score <- read_score ;;
  let mutation_number := MutationScore.all_mutants score + 1 in
  notify (NMutation mutation_number (Mutator.op_name op) filename lineno
                    (ast_id mutant_ast)) ;;
  mutant_module <- create_mutant_module self target_module mutant_ast ;;
  match mutant_module with
  | Some m => run_tests_with_mutant self test_modules m
  | None => on_score MutationScore.inc_incompetent
  end.

(** [mutate_module] *)
Definition mutate_module (self : MutationController)
           (target_module : TargetModule) (to_mutate : option string)
           (test_modules : list (TestModule * option string * Q))
  : M unit :=
  target_ast <- create_target_ast self target_module ;;
  let filename := basename (tgt_file target_module) in
  for_each (Mutator.mutate (mutant_generator self) target_ast to_mutate)
           (evaluate_mutant self target_module filename test_modules).

Definition passed_view (tests : list (TestModule * option string * Q))
  : list (string * option string * Q) :=
  map (fun x => (tm_name (fst (fst x)), snd (fst x), snd x)) tests.

(** The statements inside the [try] of [run_mutation]. *)
Definition run_mutation_try (self : MutationController) : M unit :=
  test_modules <- load_and_check_tests self ;;
  bind_score MutationScore.init ;;
  notify (NPassed (passed_view test_modules)) ;;
  notify NStart ;;
  for_gen (load (target_loader self))
          (fun item => mutate_module self (fst item) (snd item) test_modules).

(** [run_mutation] *)
Definition run_mutation (self : MutationController) : M MutationScore.t :=
  fresh_frame ;;
  try_except (run_mutation_try self)
             (fun e => match e with
                       | KeyboardInterrupt => Some (ret tt)
                       | _ => None
                       end) ;;
  read_score.

(** [run] *)
Definition run (self : MutationController) : M unit :=
  notify (NInitialize (names (target_loader self))
                      (names (test_loader self))) ;;
  try_except
    (time_reg <- TimeRegister ;;
     score <- run_mutation self ;;
     total <- TimeRegister_stop time_reg ;;
     notify (NEnd score total))
    (fun error => match error with
                  | TestsFailAtOriginal result =>
                      Some (notify (NOriginalTestsFail result))
                  | ModulesLoaderException name =>
                      Some (notify (NCantLoad name))
                  | _ => None
                  end).

(* ================================================================== *)
(** ** Vocabulary of the specification *)

(** The four outcomes of section 3. *)
Inductive outcome : Type :=
| Incompetent
| TimedOut
| Killed
| Survived.

(** Ledger [record(Outcome)] of section 4.5. *)
Definition record (o : outcome) (sc : MutationScore.t) : MutationScore.t :=
  match o with
  | Incompetent => MutationScore.inc_incompetent sc
  | TimedOut => MutationScore.inc_timeout sc
  | Killed => MutationScore.inc_killed sc
  | Survived => MutationScore.inc_survived sc
  end.

Definition record_all (os : list outcome) (sc : MutationScore.t)
  : MutationScore.t :=
  fold_left (fun acc o => record o acc) os sc.

(** The classification a notification announces, if it is one. *)
Definition classification (e : event) : option outcome :=
  match e with
  | Notify (NIncompetent _) => Some Incompetent
  | Notify NTimeout => Some TimedOut
  | Notify (NKilled _ _ _) => Some Killed
  | Notify (NSurvived _) => Some Survived
  | _ => None
  end.

Fixpoint classified_in (l : list event) : list outcome :=
  match l with
  | [] => []
  | e :: rest =>
      match classification e with
      | Some o => o :: classified_in rest
      | None => classified_in rest
      end
  end.

Definition is_thread_start (e : event) : bool :=
  match e with ThreadStart _ => true | _ => false end.

Definition is_mutation_notice (e : event) : bool :=
  match e with Notify (NMutation _ _ _ _ _) => true | _ => false end.

(** The priority order of section 4.2, in the spec's words: still
    running at the deadline, then an execution-environment error, then
    all tests passing, then killed. *)
Definition classify (alive : bool) (result : CustomTestResult) : outcome :=
  if alive then TimedOut
  else match type_error result with
       | Some _ => Incompetent
       | None => if wasSuccessful (base result) then Survived else Killed
       end.

(** [mutationScore] of section 3, in the spec's words. *)
Definition mutationScore (sc : MutationScore.t) : Q :=
  let total := MutationScore.killed_mutants sc
               + MutationScore.timeout_mutants sc
               + MutationScore.incompetent_mutants sc
               + MutationScore.survived_mutants sc in
  if total - MutationScore.incompetent_mutants sc =? 0 then 0%Q
  else (inject_Z 100
        * inject_Z (MutationScore.killed_mutants sc
                    + MutationScore.timeout_mutants sc)
        / inject_Z (total - MutationScore.incompetent_mutants sc))%Q.


(** What the unmodified run of one test module records. *)
Definition baseline_result (test_module : TestModule)
           (target_test : option string) : TestResult :=
  fst (suite_run (tm_original test_module)
                 (load_tests test_module target_test) new_TestResult 0%Q).

(** A genuine failure or error: a failed assertion, or an error that
    is no [TypeError]. *)
Definition genuine_report (p : report) : bool :=
  match p with
  | AddFailure _ => true
  | AddError err => negb (exc_type err =? "TypeError")%string
  | _ => false
  end.

(** The test reports at least one genuine failure or error. *)
Definition genuine (v : verdict) : bool := existsb genuine_report v.

(** Every test of [suite] passes against the mutant and the whole of it
    ends within [budget] after [spent]. *)
Fixpoint passes_within (mutant : test_id -> cost * verdict) (budget : Q)
         (suite : list test_id) (spent : Q) : option Q :=
  match suite with
  | [] => Some spent
  | t :: rest =>
      match mutant t with
      | (Takes c, []) =>
          if Qle_bool (spent + c) budget
          then passes_within mutant budget rest (spent + c)%Q
          else None
      | _ => None
      end
  end.

(** The fresh fail-fast result [run_tests_with_mutant] hands the runner. *)
Definition failfast_result : CustomTestResult :=
  mkCustom (set_failfast true (base new_CustomTestResult))
           (type_error new_CustomTestResult).

(** The triple the generator yields for a pair of an operator. *)
Definition tagged (op : Mutator.Operator) (p : Ast * nat)
  : Mutator.Operator * nat * Ast := (op, snd p, fst p).

(** What a suspended generator has still to yield. *)
Definition remaining (target_ast : Ast) (to_mutate : option string)
           (f : Mutator.frame) : list (Mutator.Operator * nat * Ast) :=
  match Mutator.current f with
  | Some (op, pairs) => map (tagged op) pairs
  | None => []
  end ++ Mutator.mutate_ops (Mutator.ops_left f) target_ast to_mutate.

(** Registering operators one by one on an empty [Mutator]. *)
Definition register_all (ops : list Mutator.Operator) : Mutator.t :=
  fold_left Mutator.add_operator ops (Mutator.mk []).

(** The statement completed without raising. *)
Definition is_val {A} (r : res A) : bool :=
  match r with Val _ => true | Raise _ => false end.

(** The events a step added to the log. *)
Definition new_events (before after : state) : list event :=
  skipn (List.length (log before)) (log after).

(** Between [before] and [after] exactly one classification was
    announced, [o], and exactly that counter went up by one. *)
Definition classified_as (before after : state) (o : outcome) : Prop :=
  score_var after = option_map (record o) (score_var before)
  /\ classified_in (new_events before after) = [o].

(** What [compile] or, after it, [exec] raises for a tree, if anything. *)
Definition materialization_error (tree : Ast) : option exn :=
  match ast_compile tree with
  | Some e => Some e
  | None => ast_exec tree
  end.

(** The interrupt schedule after one more blocking call went through. *)
Definition after_blocking (i : option nat) : option nat :=
  match i with
  | Some (S n) => Some n
  | _ => None
  end.

(** A result after [n] more tests started and passed. *)
Definition after_passes (n : nat) (r : CustomTestResult) : CustomTestResult :=
  mkCustom (mkTestResult (failures (base r)) (errors (base r))
                         (unexpectedSuccesses (base r))
                         (testsRun (base r) + Z.of_nat n)
                         (shouldStop (base r)) (failfast (base r)))
           (type_error r).

(** The test a kill is attributed to: the first recorded failure, or
    with no failure the first recorded error. *)
Definition killer_of (r : TestResult) : option (test_id * traceback) :=
  hd_error (failures r ++ errors r).

(** The case in which [append_score_and_notify_views] reaches
    [notify_killed] with [killer] unbound: the thread has finished, no
    [TypeError] was set aside, the result is not successful, and yet
    neither [failures] nor [errors] holds an entry. *)
Definition killer_unbound (alive : bool) (result : CustomTestResult)
  : bool :=
  negb alive
  && match type_error result with None => true | Some _ => false end
  && negb (wasSuccessful (base result))
  && match killer_of (base result) with None => true | Some _ => false end.

(** No interrupt is due within the next [k] blocking calls. *)
Definition interrupt_after (k : nat) (i : option nat) : Prop :=
  match i with
  | None => True
  | Some n => (k <= n)%nat
  end.

(** No counter of the ledger is negative: what holds of every ledger
    built from [MutationScore()] by the four [inc_*] methods. *)
Definition counters_nonneg (sc : MutationScore.t) : Prop :=
  0 <= MutationScore.killed_mutants sc
  /\ 0 <= MutationScore.timeout_mutants sc
  /\ 0 <= MutationScore.incompetent_mutants sc
  /\ 0 <= MutationScore.survived_mutants sc.


(** Every event a statement adds to the log satisfies [P]; nothing
    already in the log is touched. *)
Definition emits {A} (P : event -> bool) (m : M A) : Prop :=
  forall s, exists new,
    log (snd (m s)) = log s ++ new /\ forallb P new = true.

(** The unmodified run of a test module. *)
Definition is_baseline_run (e : event) : bool :=
  match e with BaselineRun _ => true | _ => false end.

(** What evaluating one mutant tells the sink and does to runner
    threads, once the mutation has been announced. *)
Definition is_evaluation_event (e : event) : bool :=
  match e with
  | Notify (NIncompetent _) => true
  | Notify (NKilled _ _ _) => true
  | Notify (NSurvived _) => true
  | Notify NTimeout => true
  | ThreadStart _ => true
  | ThreadKill _ => true
  | _ => false
  end.

(** What the mutation loop writes: announcements and evaluations. *)
Definition is_loop_event (e : event) : bool :=
  is_mutation_notice e || is_evaluation_event e.

(** The notifications [run] itself sends: the opening [initialize] and
    the three that close a run. *)
Definition is_closing (n : notification) : bool :=
  match n with
  | NEnd _ _ => true
  | NCantLoad _ => true
  | NOriginalTestsFail _ => true
  | _ => false
  end.

Definition is_run_notice (e : event) : bool :=
  match e with
  | Notify (NInitialize _ _) => true
  | Notify n => is_closing n
  | _ => false
  end.

(** The numbers of the mutations announced in a stretch of the log. *)
Fixpoint mutation_numbers (l : list event) : list Z :=
  match l with
  | [] => []
  | Notify (NMutation number _ _ _ _) :: rest =>
      number :: mutation_numbers rest
  | _ :: rest => mutation_numbers rest
  end.

(** [count] consecutive integers from [first] on. *)
Fixpoint consecutive (first : Z) (count : nat) : list Z :=
  match count with
  | O => []
  | S n => first :: consecutive (first + 1) n
  end.

(** The time the tests of a suite take against the unmodified target. *)
Fixpoint original_cost (test_module : TestModule) (suite : list test_id)
  : Q :=
  match suite with
  | [] => 0%Q
  | t :: rest =>
      (fst (tm_original test_module t) + original_cost test_module rest)%Q
  end.



(** What the sink is told about a mutation besides its number: operator
    name, file name, line and tree. *)
Definition announcement_of (filename : string)
           (item : Mutator.Operator * nat * Ast)
  : string * string * nat * nat :=
  (Mutator.op_name (fst (fst item)), filename, snd (fst item),
   ast_id (snd item)).

(** The mutations announced in a stretch of the log, in order. *)
Fixpoint announced_mutants (l : list event)
  : list (string * string * nat * nat) :=
  match l with
  | [] => []
  | Notify (NMutation _ op filename lineno tree) :: rest =>
      (op, filename, lineno, tree) :: announced_mutants rest
  | _ :: rest => announced_mutants rest
  end.


(** The rational a finite binary64 number of the Standard Library's
    IEEE 754 specification denotes. *)
Definition float_value (f : SpecFloat.spec_float) : Q :=
  match f with
  | SpecFloat.S754_finite sign m e =>
      ((if sign then - Zpos m else Zpos m) * 2 ^ Z.max 0 e)
      # Z.to_pos (2 ^ Z.max 0 (- e))
  | _ => 0%Q
  end.

(** [float(z)] in that specification. *)
Definition float_of_int (z : Z) : SpecFloat.spec_float :=
  SpecFloat.binary_normalize 53 1024 z 0 false.


(* ================================================================== *)
(** ** A small project to run the controller on *)

Module Sample.

Definition test_add : test_id := "test_add".
Definition test_sub : test_id := "test_sub".

(** Two tests, each passing on the unmodified target in a tenth of a
    time unit. *)
Definition test_calc : TestModule :=
  mkTestModule "test_calc" [test_add; test_sub] (fun name => [name])
               (fun _ => (1 # 10, Passes)).

(** The same module with [test_sub] failing on the unmodified target. *)
Definition test_broken : TestModule :=
  mkTestModule "test_broken" [test_add; test_sub] (fun name => [name])
               (fun t => if (t =? "test_sub")%string
                         then (1 # 10, Fails "AssertionError: 1 != 2")
                         else (1 # 10, Passes)).

(** The same module with [test_sub] marked as an expected failure,
    failing as expected on the unmodified target. *)
Definition test_known_bug : TestModule :=
  mkTestModule "test_known_bug" [test_add; test_sub] (fun name => [name])
               (fun t => if (t =? "test_sub")%string
                         then (1 # 10,
                               [AddExpectedFailure
                                  (ExcInfo "AssertionError" "1 != 2" "tb")])
                         else (1 # 10, Passes)).

Definition all_pass : test_id -> cost * verdict :=
  fun _ => (Takes (1 # 10), Passes).

Definition add_fails : test_id -> cost * verdict :=
  fun t => if (t =? "test_add")%string
           then (Takes (1 # 10), Fails "AssertionError: 3 != -1")
           else (Takes (1 # 10), Passes).

Definition sub_loops : test_id -> cost * verdict :=
  fun t => if (t =? "test_sub")%string
           then (Forever, Passes)
           else (Takes (1 # 10), Passes).

(** [test_add] hits a [TypeError] in the mutated code, then [test_sub]
    fails an assertion. *)
Definition type_error_then_failure : test_id -> cost * verdict :=
  fun t => if (t =? "test_add")%string
           then (Takes (1 # 10),
                 Errors (ExcInfo "TypeError" "unsupported operand" "tb1"))
           else (Takes (1 # 10), Fails "AssertionError: 1 != 0").

(** [test_add] fails its assertion and its [tearDown] raises. *)
Definition teardown_breaks : test_id -> cost * verdict :=
  fun t => if (t =? "test_add")%string
           then (Takes (1 # 10),
                 [AddFailure "AssertionError: 3 != -1";
                  AddError (ExcInfo "RuntimeError" "tearDown failed" "tb2")])
           else (Takes (1 # 10), Passes).

(** [test_sub], marked as an expected failure, passes. *)
Definition known_bug_fixed : test_id -> cost * verdict :=
  fun t => if (t =? "test_sub")%string
           then (Takes (1 # 10), [AddUnexpectedSuccess])
           else (Takes (1 # 10), Passes).

Definition original : Ast := mkAst 0 None None all_pass.
Definition survivor : Ast := mkAst 1 None None all_pass.
Definition detected : Ast := mkAst 2 None None add_fails.
Definition looping  : Ast := mkAst 3 None None sub_loops.
Definition unbuildable : Ast :=
  mkAst 4 (Some (PyException "SyntaxError" "invalid syntax")) None all_pass.
Definition crashing : Ast :=
  mkAst 5 None (Some (PyException "NameError" "name 'x' is not defined"))
        all_pass.
Definition confused : Ast := mkAst 7 None None type_error_then_failure.
Definition untidy : Ast := mkAst 8 None None teardown_breaks.
Definition fixing : Ast := mkAst 9 None None known_bug_fixed.

Definition AOR : Mutator.Operator :=
  Mutator.mkOperator "AOR"
    (fun _ _ => [(survivor, 3%nat); (detected, 3%nat); (looping, 3%nat)]).
Definition SDL : Mutator.Operator :=
  Mutator.mkOperator "SDL" (fun _ _ => [(crashing, 7%nat)]).
Definition ROR : Mutator.Operator :=
  Mutator.mkOperator "ROR" (fun _ _ => [(fixing, 5%nat)]).

Definition calc : TargetModule :=
  mkTargetModule "pkg.calc" "/src/pkg/calc.py" (inr original).

Definition controller (tests : list (TestModule * option string))
           (ops : list Mutator.Operator) (disable : bool)
  : MutationController :=
  mkController (mkLoader ["pkg.calc"] (mkGen [(calc, None)] None))
               (mkLoader (map (fun x => tm_name (fst x)) tests)
                         (mkGen tests None))
               (Mutator.mk ops) 5%Q disable.

Definition passing : list (TestModule * option string) :=
  [(test_calc, None)].

(** The validated test modules the loop works with. *)
Definition validated : list (TestModule * option string * Q) :=
  [(test_calc, None, 1 # 5)].

(** A state in the middle of the loop: score bound, nothing counted. *)
Definition in_loop (interrupt : option nat) : state :=
  mkState false (Some MutationScore.init) [] 0%Q interrupt NoThread.

End Sample.

(* ================================================================== *)
(** * Properties *)

(** ** The ledger *)

Section Ledger.

Import MutationScore.

Lemma truediv_nonzero (a b : Z) :
  b <> 0 -> truediv a b = inr (inject_Z a / inject_Z b)%Q.
Proof.
  intros Hb. unfold truediv.
  destruct (Z.eqb_spec b 0) as [E | _]; [contradiction | reflexivity].
Qed.

Lemma count_zero_bottom (s : t) :
  all_mutants s - incompetent_mutants s = 0 -> count s = inr 0%Q.
Proof.
  intros E. unfold count. rewrite E. reflexivity.
Qed.

Lemma count_nonzero_bottom (s : t) :
  all_mutants s - incompetent_mutants s <> 0 ->
  count s =
  inr (inject_Z (killed_mutants s + timeout_mutants s)
       / inject_Z (all_mutants s - incompetent_mutants s)
       * inject_Z 100)%Q.
Proof.
  intros Hb. unfold count.
  destruct (Z.eqb_spec (all_mutants s - incompetent_mutants s) 0)
    as [E | _]; [contradiction |].
  cbn [negb]. rewrite truediv_nonzero by assumption. reflexivity.
Qed.

(** In exact arithmetic [count] raises nothing and returns the spec's
    [mutationScore], [100 * (killed + timedOut) / (total - incompetent)]
    with [total = killed + timedOut + incompetent + survived], and [0]
    when [total - incompetent] is [0]. *)
Lemma count_is_mutationScore (s : t) :
  let bottom := all_mutants s - incompetent_mutants s in
  let q := if bottom =? 0 then 0%Q
           else (inject_Z (killed_mutants s + timeout_mutants s)
                 / inject_Z bottom * inject_Z 100)%Q in
  count s = inr q /\ (q == mutationScore s)%Q.
Proof.
  cbv zeta.
  destruct (Z.eqb_spec (all_mutants s - incompetent_mutants s) 0)
    as [E | N].
  - split; [apply count_zero_bottom; exact E |].
    unfold mutationScore. unfold all_mutants in E. rewrite E.
    reflexivity.
  - split; [apply count_nonzero_bottom; exact N |].
    unfold mutationScore. unfold all_mutants in *.
    destruct (Z.eqb_spec
                (killed_mutants s + timeout_mutants s
                 + incompetent_mutants s + survived_mutants s
                 - incompetent_mutants s) 0) as [E | _];
      [contradiction |].
    unfold Qdiv. ring.
Qed.

Example count_of_scenario :
  count (mk 1 1 0 1) = inr ((2 # 1) / (3 # 1) * (100 # 1))%Q
  /\ ((2 # 1) / (3 # 1) * (100 # 1) == 200 # 3)%Q.
Proof. split; reflexivity. Qed.

Example count_of_empty_ledger : count init = inr 0%Q.
Proof. reflexivity. Qed.

Example count_of_incompetent_only : count (mk 0 0 4 0) = inr 0%Q.
Proof. reflexivity. Qed.

Lemma all_mutants_record (o : outcome) (s : t) :
  all_mutants (record o s) = all_mutants s + 1.
Proof.
  destruct o; unfold all_mutants; cbn; lia.
Qed.

Lemma all_mutants_record_all (os : list outcome) (s : t) :
  all_mutants (record_all os s) = all_mutants s + Z.of_nat (List.length os).
Proof.
  revert s. induction os as [| o os IH]; intros s.
  - cbn. lia.
  - cbn [record_all fold_left List.length].
    change (fold_left (fun acc o0 => record o0 acc) os (record o s))
      with (record_all os (record o s)).
    rewrite IH, all_mutants_record. lia.
Qed.

Lemma record_all_app (os1 os2 : list outcome) (s : t) :
  record_all (os1 ++ os2) s = record_all os2 (record_all os1 s).
Proof. unfold record_all. apply fold_left_app. Qed.

End Ledger.

(** ** Rounding *)

Section Rounding.

Import MutationScore.
Import Float64.

Lemma nearest_even_error (n d : Z) :
  0 < d -> - d <= 2 * (nearest_even n d * d - n) <= d.
Proof.
  intros Hd. unfold nearest_even.
  pose proof (Z.div_mod n d ltac:(lia)) as Hdm.
  pose proof (Z.mod_pos_bound n d Hd) as Hr.
  destruct (Z.compare_spec (2 * (n mod d)) d) as [E | L | G];
    [destruct (Z.even (n / d)) | |]; nia.
Qed.

Ltac scale_by w H :=
  match type of H with
  | ?a <= ?b =>
      let H' := fresh H in
      assert (H' : w * a <= w * b) by (apply Z.mul_le_mono_nonneg_l; lia)
  | ?a < ?b =>
      let H' := fresh H in
      assert (H' : w * a < w * b) by (apply Z.mul_lt_mono_pos_l; lia)
  end.

Lemma binade (n d : Z) :
  0 < n -> 0 < d ->
  let e := ulp_exponent n d in
  2 ^ 52 * (d * 2 ^ Z.max 0 e) <= n * 2 ^ Z.max 0 (- e)
  /\ n * 2 ^ Z.max 0 (- e) < 2 ^ 53 * (d * 2 ^ Z.max 0 e).
Proof.
  intros Hn Hd. cbv zeta. unfold ulp_exponent.
  pose proof (Z.log2_spec n Hn) as [Hn1 Hn2].
  pose proof (Z.log2_spec d Hd) as [Hd1 Hd2].
  pose proof (Z.log2_nonneg n) as Hln.
  pose proof (Z.log2_nonneg d) as Hld.
  rewrite Z.pow_succ_r in Hn2, Hd2 by assumption.
  set (ln := Z.log2 n) in *. set (ld := Z.log2 d) in *.
  set (e0 := ln - ld - 52).
  pose proof (Z.pow_pos_nonneg 2 ld ltac:(lia) Hld) as Pd.
  pose proof (Z.pow_pos_nonneg 2 ln ltac:(lia) Hln) as Pn.
  replace (2 ^ 53) with (2 * 2 ^ 52) by reflexivity.
  assert (P52 : 0 < 2 ^ 52) by reflexivity.
  remember (2 ^ 52) as c eqn:Ec.
  remember (2 ^ ld) as x eqn:Ex. remember (2 ^ ln) as y eqn:Ey.
  destruct (Z.le_gt_cases 0 e0) as [He | He].
  - (* the first guess of the exponent is not negative *)
    rewrite (Z.max_r 0 e0) by lia. rewrite (Z.max_l 0 (- e0)) by lia.
    assert (Hpow : y = c * (2 ^ e0 * x)).
    { subst. rewrite <- !Z.pow_add_r by lia. f_equal. unfold e0. lia. }
    pose proof (Z.pow_pos_nonneg 2 e0 ltac:(lia) He) as Pe.
    change (2 ^ 0) with 1. rewrite !Z.mul_1_r.
    destruct (Z.ltb_spec n (d * 2 ^ e0 * c)) as [L | G].
    + destruct (Z.le_gt_cases 1 e0) as [He1 | He1].
      * rewrite (Z.max_r 0 (e0 - 1)) by lia.
        rewrite (Z.max_l 0 (- (e0 - 1))) by lia.
        assert (Hh : 2 ^ e0 = 2 * 2 ^ (e0 - 1)).
        { replace e0 with (Z.succ (e0 - 1)) at 1 by lia.
          apply Z.pow_succ_r. lia. }
        pose proof (Z.pow_pos_nonneg 2 (e0 - 1) ltac:(lia) ltac:(lia))
          as Pe1.
        change (2 ^ 0) with 1. rewrite !Z.mul_1_r.
        rewrite Hh in *. remember (2 ^ (e0 - 1)) as p eqn:Ep.
        clear Ec Ex Ey Ep Hh.
        assert (W : 0 < c * p) by nia.
        scale_by (c * p) Hd2. nia.
      * assert (E0 : e0 = 0) by lia.
        rewrite (Z.max_l 0 (e0 - 1)) by lia.
        rewrite (Z.max_r 0 (- (e0 - 1))) by lia.
        replace (- (e0 - 1)) with 1 by lia.
        rewrite E0 in *. change (2 ^ 0) with 1 in *. change (2 ^ 1) with 2.
        rewrite !Z.mul_1_r in *. clear Ec Ex Ey.
        scale_by c Hd2. nia.
    + rewrite (Z.max_r 0 e0) by lia. rewrite (Z.max_l 0 (- e0)) by lia.
      change (2 ^ 0) with 1. rewrite !Z.mul_1_r.
      remember (2 ^ e0) as p eqn:Ep. clear Ec Ex Ey Ep.
      assert (W : 0 < c * p) by nia.
      scale_by (c * p) Hd1. nia.
  - (* the first guess of the exponent is negative *)
    rewrite (Z.max_l 0 e0) by lia. rewrite (Z.max_r 0 (- e0)) by lia.
    assert (Hpow : y * 2 ^ (- e0) = c * x).
    { subst. rewrite <- !Z.pow_add_r by lia. f_equal. unfold e0. lia. }
    pose proof (Z.pow_pos_nonneg 2 (- e0) ltac:(lia) ltac:(lia)) as Pe.
    change (2 ^ 0) with 1. rewrite !Z.mul_1_r.
    destruct (Z.ltb_spec (n * 2 ^ (- e0)) (d * c)) as [L | G].
    + rewrite (Z.max_l 0 (e0 - 1)) by lia.
      rewrite (Z.max_r 0 (- (e0 - 1))) by lia.
      assert (Hh : 2 ^ (- (e0 - 1)) = 2 * 2 ^ (- e0)).
      { replace (- (e0 - 1)) with (Z.succ (- e0)) by lia.
        apply Z.pow_succ_r. lia. }
      change (2 ^ 0) with 1. rewrite !Z.mul_1_r. rewrite Hh.
      remember (2 ^ (- e0)) as p eqn:Ep. clear Ec Ex Ey Ep Hh.
      scale_by p Hn1. scale_by c Hd2. nia.
    + rewrite (Z.max_l 0 e0) by lia. rewrite (Z.max_r 0 (- e0)) by lia.
      change (2 ^ 0) with 1. rewrite !Z.mul_1_r.
      remember (2 ^ (- e0)) as p eqn:Ep. clear Ec Ex Ey Ep.
      scale_by p Hn2. scale_by c Hd1. nia.
Qed.





(** The significand [round] chooses has 53 bits, or is [2^53]. *)
Lemma round_pos_significand (n d : Z) :
  0 < n -> 0 < d ->
  let e := ulp_exponent n d in
  2 ^ 52 <= nearest_even (n * 2 ^ Z.max 0 (- e)) (d * 2 ^ Z.max 0 e)
         <= 2 ^ 53.
Proof.
  intros Hn Hd. cbv zeta.
  destruct (@binade n d Hn Hd) as [Hlo Hhi]. cbv zeta in Hlo, Hhi.
  set (e := ulp_exponent n d) in *.
  assert (PA : 0 < 2 ^ Z.max 0 (- e)) by (apply Z.pow_pos_nonneg; lia).
  assert (PB : 0 < 2 ^ Z.max 0 e) by (apply Z.pow_pos_nonneg; lia).
  remember (2 ^ Z.max 0 (- e)) as A eqn:EA.
  remember (2 ^ Z.max 0 e) as B eqn:EB.
  pose proof (@nearest_even_error (n * A) (d * B) ltac:(nia)) as Hm.
  remember (nearest_even (n * A) (d * B)) as m eqn:Em.
  replace (2 ^ 53) with (2 * 2 ^ 52) in * by reflexivity.
  assert (P52 : 0 < 2 ^ 52) by reflexivity.
  remember (2 ^ 52) as c eqn:Ec. clear Ec EA EB Em e.
  assert (PD : 0 < d * B) by nia.
  remember (d * B) as D eqn:ED. remember (n * A) as N eqn:EN.
  clear ED EN. split; nia.
Qed.


End Rounding.

(** ** The mutation generator *)

Section Generator.

Import Mutator.

Variable target_ast : Ast.
Variable to_mutate : option string.

Lemma mutate_ops_app (ops1 ops2 : list Operator) :
  mutate_ops (ops1 ++ ops2) target_ast to_mutate
  = mutate_ops ops1 target_ast to_mutate
    ++ mutate_ops ops2 target_ast to_mutate.
Proof.
  induction ops1 as [| op ops1 IH]; cbn [mutate_ops app].
  - reflexivity.
  - rewrite IH. apply app_assoc.
Qed.

Lemma mutate_add_operator (m : t) (op : Operator) :
  mutate (add_operator m op) target_ast to_mutate
  = mutate m target_ast to_mutate
    ++ map (tagged op) (op_mutate op target_ast to_mutate).
Proof.
  unfold mutate, add_operator. cbn [operators].
  rewrite mutate_ops_app. cbn [mutate_ops]. rewrite app_nil_r.
  reflexivity.
Qed.

Lemma operators_fold_add (ops : list Operator) (m : t) :
  operators (fold_left add_operator ops m) = operators m ++ ops.
Proof.
  revert m. induction ops as [| op ops IH]; intros m; cbn [fold_left].
  - symmetry. apply app_nil_r.
  - rewrite IH. unfold add_operator. cbn [operators].
    rewrite <- app_assoc. reflexivity.
Qed.

Lemma operators_register_all (ops : list Operator) :
  operators (register_all ops) = ops.
Proof. unfold register_all. rewrite operators_fold_add. reflexivity. Qed.

Lemma next_op_spec (ops : list Operator) :
  match next_op ops target_ast to_mutate with
  | None => mutate_ops ops target_ast to_mutate = []
  | Some (op, lineno, mutant, f') =>
      mutate_ops ops target_ast to_mutate
      = (op, lineno, mutant) :: remaining target_ast to_mutate f'
  end.
Proof.
  induction ops as [| op ops IH]; cbn [next_op mutate_ops].
  - reflexivity.
  - destruct (op_mutate op target_ast to_mutate) as [| [mutant lineno] more].
    + exact IH.
    + reflexivity.
Qed.

Lemma next_spec (f : frame) :
  match next f target_ast to_mutate with
  | None => remaining target_ast to_mutate f = []
  | Some (op, lineno, mutant, f') =>
      remaining target_ast to_mutate f
      = (op, lineno, mutant) :: remaining target_ast to_mutate f'
  end.
Proof.
  destruct f as [ops [[op [| [mutant lineno] more]] |]];
    unfold next, remaining; cbn [current ops_left map app];
    try reflexivity;
    pose proof (next_op_spec ops) as H;
    destruct (next_op ops target_ast to_mutate)
      as [[[[op' lineno'] mutant'] f'] |]; exact H.
Qed.

Lemma drain_remaining (fuel : nat) :
  forall f, (List.length (remaining target_ast to_mutate f) < fuel)%nat ->
            drain fuel f target_ast to_mutate
            = remaining target_ast to_mutate f.
Proof.
  induction fuel as [| fuel IH]; intros f Hlen; [lia |].
  cbn [drain]. pose proof (next_spec f) as Hn.
  destruct (next f target_ast to_mutate) as [[[[op lineno] mutant] f'] |].
  - rewrite Hn in *. cbn [List.length] in Hlen.
    rewrite IH by lia. reflexivity.
  - symmetry. exact Hn.
Qed.

Lemma drain_start (m : t) (spare : nat) :
  drain (S (List.length (mutate m target_ast to_mutate)) + spare)
        (start m) target_ast to_mutate
  = mutate m target_ast to_mutate.
Proof.
  rewrite drain_remaining; unfold remaining, start; cbn; [reflexivity |].
  unfold mutate. lia.
Qed.

(** C9.  With the operators registered in the order
    [before ++ op :: after], the generator yields first everything the
    operators in [before] yield, then the triples of [op] in the order
    [op] yields its pairs, then everything of [after]; and two
    generator objects made from the same [Mutator] for the same target,
    each resumed until exhausted, yield that same sequence of
    (operator, line, tree) triples. *)
Theorem mutate_in_registration_order
        (before after : list Operator) (op : Operator)
        (spare1 spare2 : nat) :
  let m := register_all (before ++ op :: after) in
  let yields := mutate m target_ast to_mutate in
  yields
  = mutate (register_all before) target_ast to_mutate
    ++ map (tagged op) (op_mutate op target_ast to_mutate)
    ++ mutate (register_all after) target_ast to_mutate
  /\ drain (S (List.length yields) + spare1) (start m) target_ast to_mutate
     = yields
  /\ drain (S (List.length yields) + spare2) (start m) target_ast to_mutate
     = drain (S (List.length yields) + spare1) (start m) target_ast
             to_mutate.
Proof.
  cbv zeta. repeat split.
  - unfold mutate. rewrite !operators_register_all.
    rewrite mutate_ops_app. reflexivity.
  - apply drain_start.
  - rewrite !drain_start. reflexivity.
Qed.

End Generator.

Example mutate_sample_order :
  map (fun x => (Mutator.op_name (fst (fst x)), snd (fst x), ast_id (snd x)))
      (Mutator.mutate (register_all [Sample.SDL; Sample.AOR])
                      Sample.original None)
  = [("SDL", 7%nat, 5%nat); ("AOR", 3%nat, 1%nat); ("AOR", 3%nat, 2%nat);
     ("AOR", 3%nat, 3%nat)].
Proof. reflexivity. Qed.

(** ** Evaluating one mutant *)

Create HintDb py discriminated.
#[local] Hint Unfold bind ret raise try_except emit notify on_score
  read_score bind_score fresh_frame is_alive kill thread_start
  thread_settle disable_stdout enable_stdout TimeRegister TimeRegister_stop
  elapse blocking : py.

Ltac py_step := autounfold with py; cbn -[Qred Qplus Qminus Qmult].

Ltac py_close :=
  cbn;
  repeat match goal with
         | |- exists _, _ => eexists
         | |- _ /\ _ => split
         end;
  (cbn; rewrite <- ?app_assoc; try reflexivity).

Section Evaluation.

Import MutationScore.

Variable self : MutationController.

Lemma append_score_classifies
      (result : CustomTestResult) (d : Q) (s : state) (sc : t) :
  score_var s = Some sc ->
  killer_unbound (running (runner s)) result = false ->
  let out := append_score_and_notify_views self result d s in
  let o := classify (running (runner s)) result in
  exists new,
    log (snd out) = log s ++ new
    /\ fst out = Val tt
    /\ score_var (snd out) = Some (record o sc)
    /\ classified_in new = [o]
    /\ filter is_thread_start new = []
    /\ stdout_off (snd out) = stdout_off s
    /\ sigint (snd out) = sigint s
    /\ running (runner (snd out)) = running (runner s)
    /\ filter is_mutation_notice new = [].
Proof.
  destruct s as [off sv lg nw sg rn]. cbn [score_var runner]. intros ->.
  unfold killer_unbound, killer_of, append_score_and_notify_views, classify.
  py_step.
  destruct rn as [| tree | tree | tree]; cbn;
    try (destruct (type_error result) as [err |]; cbn);
    try (unfold wasSuccessful;
         destruct (failures (base result)) as [| f fs];
         destruct (errors (base result)) as [| e es];
         destruct (unexpectedSuccesses (base result)) as [| u us]; cbn);
    try discriminate; intros _; py_close.
Qed.

(** What the call does to the runner thread: one still running is
    asked to stop, nothing else changes. *)
Lemma append_score_runner
      (result : CustomTestResult) (d : Q) (s : state) :
  runner (snd (append_score_and_notify_views self result d s))
  = match runner s with
    | Running tree => KillRequested tree
    | th => th
    end.
Proof.
  destruct s as [off sv lg nw sg rn].
  unfold append_score_and_notify_views. py_step.
  destruct rn as [| tree | tree | tree]; destruct sv as [sc |]; cbn;
    try (destruct (type_error result) as [err |]; cbn);
    try (unfold wasSuccessful;
         destruct (failures (base result)) as [| f fs];
         destruct (errors (base result)) as [| e es];
         destruct (unexpectedSuccesses (base result)) as [| u us]; cbn);
    reflexivity.
Qed.

(** With [killer] unbound the call faults before it tells the sink or
    touches the ledger. *)
Lemma append_score_faults
      (result : CustomTestResult) (d : Q) (s : state) (sc : t) :
  score_var s = Some sc ->
  killer_unbound (running (runner s)) result = true ->
  append_score_and_notify_views self result d s
  = (Raise (UnboundLocalError "killer"), s).
Proof.
  destruct s as [off sv lg nw sg rn]. cbn [score_var runner]. intros ->.
  unfold killer_unbound, killer_of, append_score_and_notify_views.
  py_step.
  destruct rn as [| tree | tree | tree]; cbn;
    try (destruct (type_error result) as [err |]; cbn);
    try (unfold wasSuccessful;
         destruct (failures (base result)) as [| f fs];
         destruct (errors (base result)) as [| e es];
         destruct (unexpectedSuccesses (base result)) as [| u us]; cbn);
    try discriminate; reflexivity.
Qed.

Lemma new_events_app (s s' : state) (new : list event) :
  log s' = log s ++ new -> new_events s s' = new.
Proof.
  intros E. unfold new_events. rewrite E.
  rewrite skipn_app, skipn_all, Nat.sub_diag. reflexivity.
Qed.

(** The bounded run when the join is not interrupted and the result
    names its killer: the thread is started, the outcome read off the
    runner's state and result is recorded, stdout is restored, and a
    thread that had not finished was asked to stop. *)
Lemma run_tests_with_mutant_completes
      (tms : list (TestModule * option string * Q)) (m : Module)
      (s : state) (sc : t) :
  score_var s = Some sc ->
  sigint s <> Some 0%nat ->
  let made := create_test_suite tms m in
  let ran := suite_run_until (live_time self (snd made))
                             (ast_tests (mod_code m)) (fst made)
                             failfast_result 0%Q in
  let o := classify (negb (snd ran)) (fst (fst ran)) in
  let out := run_tests_with_mutant self tms m s in
  killer_unbound (negb (snd ran)) (fst (fst ran)) = false ->
  exists new,
    log (snd out) = log s ++ ThreadStart (ast_id (mod_code m)) :: new
    /\ fst out = Val tt
    /\ score_var (snd out) = Some (record o sc)
    /\ classified_in new = [o]
    /\ filter is_thread_start new = []
    /\ stdout_off (snd out) = false
    /\ sigint (snd out) = after_blocking (sigint s)
    /\ runner (snd out)
       = (if snd ran then Finished (ast_id (mod_code m))
          else KillRequested (ast_id (mod_code m)))
    /\ filter is_mutation_notice new = [].
Proof.
  destruct s as [off sv lg nw sg rn]. intros Hs Hi made ran o.
  cbn [score_var sigint] in Hs, Hi. subst sv.
  unfold run_tests_with_mutant, run_mutation_thread.
  fold made. fold failfast_result. fold ran.
  destruct ran as [[r w] fin] eqn:Eran. subst o. cbn [fst snd].
  intros Hk.
  destruct sg as [[| n] |]; [congruence | |];
    (destruct (stdout_manager self) eqn:Eflag; destruct fin;
     autounfold with py; rewrite ?Eflag;
     cbn -[append_score_and_notify_views Qred Qplus Qminus];
     match goal with
     | |- context [append_score_and_notify_views self ?r0 ?d0 ?s0] =>
         destruct (append_score_classifies r0 d0 s0 (sc := sc) eq_refl Hk)
           as (new & Hlog & Hval & Hsc & Hcl & Hth & Hout & Hsig & Hrun
                & Hmu);
         pose proof (append_score_runner r0 d0 s0) as Hrn;
         destruct (append_score_and_notify_views self r0 d0 s0)
           as [x s2]
     end;
     cbn in *; exists new; subst;
     rewrite Hlog, <- ?app_assoc; repeat split; assumption).
Qed.

(** The bounded run when the join is not interrupted and the finished
    result names no killer: [append_score_and_notify_views] faults after
    the thread was started and stdout restored; nothing is told to the
    sink and nothing is counted. *)
Lemma run_tests_with_mutant_faults
      (tms : list (TestModule * option string * Q)) (m : Module)
      (s : state) (sc : t) :
  score_var s = Some sc ->
  sigint s <> Some 0%nat ->
  let made := create_test_suite tms m in
  let ran := suite_run_until (live_time self (snd made))
                             (ast_tests (mod_code m)) (fst made)
                             failfast_result 0%Q in
  let out := run_tests_with_mutant self tms m s in
  killer_unbound (negb (snd ran)) (fst (fst ran)) = true ->
  fst out = Raise (UnboundLocalError "killer")
  /\ log (snd out) = log s ++ [ThreadStart (ast_id (mod_code m))]
  /\ score_var (snd out) = Some sc
  /\ stdout_off (snd out) = false
  /\ sigint (snd out) = after_blocking (sigint s)
  /\ runner (snd out) = Finished (ast_id (mod_code m)).
Proof.
  destruct s as [off sv lg nw sg rn]. intros Hs Hi made ran.
  cbn [score_var sigint] in Hs, Hi. subst sv.
  unfold run_tests_with_mutant, run_mutation_thread.
  fold made. fold failfast_result. fold ran.
  destruct ran as [[r w] fin] eqn:Eran. cbn [fst snd].
  intros Hk.
  assert (fin = true) as ->.
  { destruct fin; [reflexivity |]. discriminate Hk. }
  destruct sg as [[| n] |]; [congruence | |];
    (destruct (stdout_manager self) eqn:Eflag;
     autounfold with py; rewrite ?Eflag;
     cbn -[append_score_and_notify_views Qred Qplus Qminus];
     match goal with
     | |- context [append_score_and_notify_views self ?r0 ?d0 ?s0] =>
         rewrite (append_score_faults r0 d0 s0 (sc := sc) eq_refl Hk)
     end;
     cbn; repeat split).
Qed.

(** The bounded run when the operator interrupts the join. *)
Lemma run_tests_with_mutant_interrupted
      (tms : list (TestModule * option string * Q)) (m : Module)
      (s : state) :
  sigint s = Some 0%nat ->
  let out := run_tests_with_mutant self tms m s in
  fst out = Raise KeyboardInterrupt
  /\ log (snd out) = log s ++ [ThreadStart (ast_id (mod_code m))]
  /\ score_var (snd out) = score_var s
  /\ sigint (snd out) = None.
Proof.
  destruct s as [off sv lg nw sg rn]. intros Hi. cbn [sigint] in Hi.
  subst sg. unfold run_tests_with_mutant, run_mutation_thread.
  destruct (stdout_manager self) eqn:Eflag;
    autounfold with py; rewrite ?Eflag; cbn; repeat split.
Qed.

(** [create_mutant_module] never touches the ledger or the runner; it
    logs one [incompetent] notice exactly when it returns [None]. *)
Lemma create_mutant_module_effect
      (target_module : TargetModule) (mutant_ast : Ast) (s : state) :
  let out := create_mutant_module self target_module mutant_ast s in
  score_var (snd out) = score_var s
  /\ runner (snd out) = runner s
  /\ match fst out with
     | Val (Some m) =>
         log (snd out) = log s /\ mod_code m = mutant_ast
         /\ materialization_error mutant_ast = None
     | Val None =>
         exists e, log (snd out) = log s ++ [Notify (NIncompetent e)]
                   /\ is_Exception e = true
     | Raise e => log (snd out) = log s /\ is_Exception e = false
     end.
Proof.
  destruct s as [off sv lg nw sg rn].
  unfold create_mutant_module, py_compile, py_exec, materialization_error.
  destruct sg as [[| [| n]] |];
    destruct (ast_compile mutant_ast) as [ec |] eqn:Ec;
    destruct (ast_exec mutant_ast) as [ee |] eqn:Ee;
    destruct (stdout_manager self) eqn:Eflag;
    autounfold with py; rewrite ?Ec, ?Ee, ?Eflag; cbn;
    rewrite ?Ec, ?Ee, ?Eflag; cbn;
    try (destruct (is_Exception ec) eqn:Eic; cbn);
    try (destruct (is_Exception ee) eqn:Eie; cbn);
    repeat split; eauto.
Qed.

(** One turn of the loop: whenever it completes, exactly one
    classification was announced and exactly that counter went up by one;
    whenever it is cut short by an exception, nothing was counted. *)
Lemma evaluate_mutant_counts
      (target_module : TargetModule) (filename : string)
      (tms : list (TestModule * option string * Q))
      (item : Mutator.Operator * nat * Ast) (s : state) (sc : t) :
  score_var s = Some sc ->
  let out := evaluate_mutant self target_module filename tms item s in
  exists new,
    log (snd out) = log s ++ new
    /\ List.length (filter is_mutation_notice new) = 1%nat
    /\ match fst out with
       | Val _ =>
           exists o, classified_in new = [o]
                     /\ score_var (snd out) = Some (record o sc)
       | Raise _ =>
           classified_in new = [] /\ score_var (snd out) = Some sc
       end.
Proof.
  destruct s as [off sv lg nw sg rn]. intros Hs. cbn [score_var] in Hs.
  subst sv. unfold evaluate_mutant. autounfold with py.
  cbn -[create_mutant_module run_tests_with_mutant].
  match goal with
  | |- context [create_mutant_module self ?tm ?ast ?s0] =>
      pose proof (create_mutant_module_effect tm ast s0) as Hc;
      destruct (create_mutant_module self tm ast s0) as [[[m |] | e] s1]
  end; cbn in Hc.
  - (* the module was built: bounded run *)
    destruct Hc as (Hsc & _ & Hlog & _).
    assert (Hcases : sigint s1 = Some 0%nat \/ sigint s1 <> Some 0%nat)
      by (destruct (sigint s1) as [[| n] |]; [left | right | right];
          congruence).
    destruct Hcases as [Hi | Hi].
    + destruct (run_tests_with_mutant_interrupted tms m s1 Hi)
        as (Hv & Hl & Hs' & _).
      destruct (run_tests_with_mutant self tms m s1) as [r s2].
      cbn in *. subst r. rewrite Hl, Hlog, Hs', Hsc, <- app_assoc.
      eexists. split; [reflexivity |]. cbn. repeat split.
    + pose proof (run_tests_with_mutant_completes tms m s1 (sc := sc)
                    Hsc Hi) as Hdone.
      pose proof (run_tests_with_mutant_faults tms m s1 (sc := sc)
                    Hsc Hi) as Hfault.
      cbv zeta in Hdone, Hfault.
      match type of Hdone with
      | ?k = false -> _ => destruct k
      end.
      * destruct (Hfault eq_refl) as (Hv & Hl & Hs' & _).
        destruct (run_tests_with_mutant self tms m s1) as [r s2].
        cbn in *. subst r. rewrite Hl, Hlog, Hs', <- app_assoc.
        eexists. split; [reflexivity |]. cbn. repeat split.
      * destruct (Hdone eq_refl)
          as (new & Hl & Hv & Hs' & Hcl & _ & _ & _ & _ & Hmu).
        destruct (run_tests_with_mutant self tms m s1) as [r s2].
        cbn in *. subst r. rewrite Hl, Hlog, <- app_assoc.
        eexists. split; [reflexivity |]. cbn. rewrite Hcl, Hmu.
        split; [reflexivity |]. eexists; split; [reflexivity | exact Hs'].
  - (* materialisation failed: counted incompetent *)
    destruct Hc as (Hsc & _ & e & Hlog & _). rewrite Hsc. cbn.
    rewrite Hlog, <- app_assoc. eexists. split; [reflexivity |].
    cbn. split; [reflexivity |]. exists Incompetent. split; reflexivity.
  - (* an exception that is no Exception unwinds the loop *)
    destruct Hc as (Hsc & _ & Hlog & _). cbn. rewrite Hlog.
    eexists. split; [reflexivity |]. cbn. repeat split. exact Hsc.
Qed.

Lemma for_each_cons {A} (x : A) (xs : list A) (body : A -> M unit)
      (s : state) :
  for_each (x :: xs) body s
  = match body x s with
    | (Val _, s1) => for_each xs body s1
    | (Raise e, s1) => (Raise e, s1)
    end.
Proof.
  unfold for_each. cbn [for_fold]. unfold bind.
  destruct (body x s) as [[[] | e] s1]; reflexivity.
Qed.

Lemma classified_in_app (l1 l2 : list event) :
  classified_in (l1 ++ l2) = classified_in l1 ++ classified_in l2.
Proof.
  induction l1 as [| e l1 IH]; cbn [classified_in app]; [reflexivity |].
  destruct (classification e); rewrite IH; reflexivity.
Qed.

(** The loop of [mutate_module] over the mutants the generator yields:
    the ledger is the old one with the classifications announced in the
    meantime recorded one by one; every mutant is announced before it is
    counted, at most one announced mutant is not counted, and after a
    normal end every one is. *)
Lemma mutant_loop_counts
      (target_module : TargetModule) (filename : string)
      (tms : list (TestModule * option string * Q))
      (items : list (Mutator.Operator * nat * Ast)) :
  forall (s : state) (sc : t),
    score_var s = Some sc ->
    let out := for_each items
                 (evaluate_mutant self target_module filename tms) s in
    exists new,
      log (snd out) = log s ++ new
      /\ score_var (snd out) = Some (record_all (classified_in new) sc)
      /\ (List.length (classified_in new)
          <= List.length (filter is_mutation_notice new)
          <= List.length items)%nat
      /\ (List.length (filter is_mutation_notice new)
          <= S (List.length (classified_in new)))%nat
      /\ (is_val (fst out) = true ->
          List.length (classified_in new) = List.length items).
Proof.
  induction items as [| item rest IH]; intros s sc Hs.
  - exists []. cbn. rewrite app_nil_r. repeat split; auto.
  - cbv zeta. rewrite for_each_cons.
    destruct (evaluate_mutant_counts target_module filename tms item s Hs)
      as (new1 & Hl1 & Hmu1 & Hres).
    destruct (evaluate_mutant self target_module filename tms item s)
      as [[[] | e] s1]; cbn [fst snd] in *.
    + destruct Hres as (o & Hcl1 & Hs1).
      destruct (IH s1 (record o sc) Hs1)
        as (new2 & Hl2 & Hs2 & [Hle1 Hle2] & Hle3 & Hv).
      exists (new1 ++ new2). rewrite Hl2, Hl1, <- app_assoc.
      rewrite classified_in_app, filter_app, !length_app, Hcl1, Hmu1.
      rewrite Hs2. cbn [List.length app record_all fold_left].
      repeat split; auto; try lia;
        intros Hval; rewrite (Hv Hval); reflexivity.
    + destruct Hres as (Hcl1 & Hs1).
      exists new1. rewrite Hcl1, Hmu1. cbn.
      repeat split; auto; try lia; discriminate.
Qed.

(** What a call of [mutate_module] adds to the log and to the ledger. *)
Lemma mutate_module_counts
      (target_module : TargetModule) (to_mutate : option string)
      (tms : list (TestModule * option string * Q))
      (s : state) (sc : t) :
  score_var s = Some sc ->
  let out := mutate_module self target_module to_mutate tms s in
  exists new,
    log (snd out) = log s ++ new
    /\ score_var (snd out) = Some (record_all (classified_in new) sc)
    /\ (List.length (classified_in new)
        <= List.length (filter is_mutation_notice new)
        <= S (List.length (classified_in new)))%nat
    /\ (is_val (fst out) = true ->
        exists tree,
          tgt_parse target_module = inr tree
          /\ List.length (classified_in new)
             = List.length (Mutator.mutate (mutant_generator self) tree
                                           to_mutate)).
Proof.
  intros Hs out. subst out.
  destruct (mutate_module self target_module to_mutate tms s)
    as [r s'] eqn:Hout.
  cbn [fst snd]. unfold mutate_module, create_target_ast, bind in Hout.
  assert (Hb : exists s0,
             score_var s0 = Some sc /\ log s0 = log s
             /\ (blocking s = (Val tt, s0)
                 \/ blocking s = (Raise KeyboardInterrupt, s0))).
  { unfold blocking. destruct s as [off sv lg nw sg rn]. cbn in *.
    subst sv.
    destruct sg as [[| n] |];
      [ exists (mkState off (Some sc) lg nw None rn)
      | exists (mkState off (Some sc) lg nw (Some n) rn)
      | exists (mkState off (Some sc) lg nw None rn) ];
      cbn; auto. }
  destruct Hb as (s0 & Hs0 & Hl0 & [Hb | Hb]); rewrite Hb in Hout.
  - destruct (tgt_parse target_module) as [e | tree] eqn:Hp.
    + inversion Hout; subst. exists []. cbn. rewrite app_nil_r.
      repeat split; auto; intros Hval; discriminate Hval.
    + cbn [ret] in Hout.
      destruct (mutant_loop_counts target_module
                  (basename (tgt_file target_module)) tms
                  (Mutator.mutate (mutant_generator self) tree to_mutate)
                  s0 Hs0)
        as (new & Hl & Hsc' & [Hle1 Hle2] & Hle3 & Hv).
      cbv zeta in *. rewrite Hout in *. cbn [fst snd] in *.
      exists new. rewrite Hl, Hl0.
      repeat split; auto. intros Hval. exists tree. auto.
  - inversion Hout; subst. exists []. cbn. rewrite app_nil_r.
    repeat split; auto; intros Hval; discriminate Hval.
Qed.

(** C1 (amended).  Whatever a call of [mutate_module] does, normal end,
    interrupt or other exception: the ledger afterwards is the ledger
    before with the classifications announced during the call recorded
    one by one, each through exactly one of the four counters, so the sum
    of the counters grew by exactly the number of mutants whose
    evaluation completed; a mutant is announced before it is classified
    and at most the one in flight when an exception cut the loop is left
    unclassified; and when the call ends normally, the target was parsed
    and every mutant the generator yields for it was classified: the sum
    grew by their number. *)
Theorem every_mutant_counted_once
        (target_module : TargetModule) (to_mutate : option string)
        (tms : list (TestModule * option string * Q))
        (s : state) (sc : t) :
  score_var s = Some sc ->
  let out := mutate_module self target_module to_mutate tms s in
  let counted := classified_in (new_events s (snd out)) in
  let announced := filter is_mutation_notice (new_events s (snd out)) in
  score_var (snd out) = Some (record_all counted sc)
  /\ all_mutants (record_all counted sc)
     = all_mutants sc + Z.of_nat (List.length counted)
  /\ (List.length counted <= List.length announced
      <= S (List.length counted))%nat
  /\ (is_val (fst out) = true ->
      exists tree,
        tgt_parse target_module = inr tree
        /\ List.length counted
           = List.length (Mutator.mutate (mutant_generator self) tree
                                         to_mutate)).
Proof.
  intros Hs out counted announced.
  destruct (mutate_module_counts target_module to_mutate tms s Hs)
    as (new & Hl & Hsc' & Hle & Hv).
  fold out in Hl, Hsc', Hv.
  subst counted announced. rewrite (@new_events_app s (snd out) new Hl).
  repeat split; auto; try apply all_mutants_record_all; apply Hle.
Qed.

(** *** The runner's suite under the deadline *)

Lemma after_passes_zero (r : CustomTestResult) : after_passes 0 r = r.
Proof.
  destruct r as [[f e u n st ff] te]. unfold after_passes. cbn.
  rewrite Z.add_0_r. reflexivity.
Qed.

Lemma after_passes_succ (n : nat) (r : CustomTestResult) :
  after_passes n (mkCustom (startTest (base r)) (type_error r))
  = after_passes (S n) r.
Proof.
  destruct r as [[f e u k st ff] te]. unfold after_passes, startTest. cbn.
  do 2 f_equal. lia.
Qed.

(** Tests that pass within the deadline are run one after another and
    leave nothing but their count in the result. *)
Lemma suite_run_until_passing_prefix
      (live : Q) (mutant : test_id -> cost * verdict)
      (pre rest : list test_id) :
  forall (r : CustomTestResult) (spent spent' : Q),
    shouldStop (base r) = false ->
    passes_within mutant live pre spent = Some spent' ->
    suite_run_until live mutant (pre ++ rest) r spent
    = suite_run_until live mutant rest
                      (after_passes (List.length pre) r) spent'.
Proof.
  induction pre as [| t pre IH]; intros r spent spent' Hstop Hpass.
  - cbn in Hpass. injection Hpass as <-. cbn [app List.length].
    rewrite after_passes_zero. reflexivity.
  - cbn [app suite_run_until passes_within] in *. rewrite Hstop.
    destruct (mutant t) as [[c |] [| p v]]; try discriminate.
    cbn [fst snd] in *.
    destruct (Qle_bool (spent + c) live); [| discriminate].
    cbn [custom_run_case fold_left List.length].
    rewrite (IH (mkCustom (startTest (base r)) (type_error r)) _ _
                Hstop Hpass).
    rewrite after_passes_succ. reflexivity.
Qed.

(** Under fail-fast a report never lifts a stop request, and a genuine
    failure or error makes one. *)
Lemma custom_apply_report_stops
      (t : test_id) (r : CustomTestResult) (p : report) :
  failfast (base r) = true ->
  failfast (base (custom_apply_report t r p)) = true
  /\ (shouldStop (base r) = true \/ genuine_report p = true ->
      shouldStop (base (custom_apply_report t r p)) = true).
Proof.
  destruct r as [[f e u n st ff] te]. cbn. intros ->.
  destruct p as [tb | err | reason | err |];
    unfold custom_apply_report, custom_addError; cbn;
    try destruct (exc_type err =? "TypeError")%string; cbn;
    split; try reflexivity; intros [H | H]; auto; discriminate.
Qed.

Lemma custom_reports_stop (t : test_id) (v : verdict) :
  forall r : CustomTestResult,
    failfast (base r) = true ->
    shouldStop (base r) = true \/ genuine v = true ->
    shouldStop (base (fold_left (custom_apply_report t) v r)) = true.
Proof.
  unfold genuine. induction v as [| p v IH]; intros r Hff Hor;
    cbn [fold_left existsb] in *.
  - destruct Hor as [H | H]; [exact H | discriminate].
  - destruct (@custom_apply_report_stops t r p Hff) as (Hff' & Hst').
    apply IH; [exact Hff' |].
    destruct Hor as [H | H]; [left; auto |].
    apply orb_prop in H. destruct H as [H | H]; [left; auto | right; exact H].
Qed.

(** The entries a test adds to [failures] and [errors] carry its name,
    and a genuine failure or error adds one. *)
Lemma custom_apply_report_entries
      (t : test_id) (r : CustomTestResult) (p : report) :
  Forall (fun x => fst x = t) (failures (base r) ++ errors (base r)) ->
  Forall (fun x => fst x = t)
         (failures (base (custom_apply_report t r p))
          ++ errors (base (custom_apply_report t r p)))
  /\ (failures (base r) ++ errors (base r) <> [] \/ genuine_report p = true
      -> failures (base (custom_apply_report t r p))
         ++ errors (base (custom_apply_report t r p)) <> []).
Proof.
  destruct r as [[f e u n st ff] te]. cbn. intros Hall.
  apply Forall_app in Hall. destruct Hall as [Hf He].
  assert (Hnil : forall (A : Type) (l : list A) (x : A), l ++ [x] <> [])
    by (intros A l x H; destruct l; discriminate H).
  destruct p as [tb | err | reason | err |];
    unfold custom_apply_report, custom_addError; cbn;
    try destruct (exc_type err =? "TypeError")%string; cbn;
    destruct ff; cbn; split;
    try (apply Forall_app; split; auto; apply Forall_app; split; auto;
         repeat constructor);
    try (intros [H | H]; [exact H | discriminate H]);
    intros _ H; apply app_eq_nil in H; destruct H as [H1 H2];
    try (exact (Hnil _ _ _ H1)); exact (Hnil _ _ _ H2).
Qed.

Lemma custom_reports_killer (t : test_id) (v : verdict) :
  forall r : CustomTestResult,
    Forall (fun x => fst x = t) (failures (base r) ++ errors (base r)) ->
    failures (base r) ++ errors (base r) <> [] \/ genuine v = true ->
    exists tb,
      killer_of (base (fold_left (custom_apply_report t) v r))
      = Some (t, tb).
Proof.
  unfold genuine. induction v as [| p v IH]; intros r Hall Hor;
    cbn [fold_left existsb] in *.
  - destruct Hor as [H | H]; [| discriminate]. unfold killer_of.
    destruct (failures (base r) ++ errors (base r)) as [| [t' tb] l];
      [contradiction |].
    inversion Hall; subst. cbn in *. subst. exists tb. reflexivity.
  - destruct (@custom_apply_report_entries t r p Hall) as (Hall' & Hne').
    apply IH; [exact Hall' |].
    destruct Hor as [H | H]; [left; auto |].
    apply orb_prop in H. destruct H as [H | H]; [left; auto | right; exact H].
Qed.

(** Fail-fast: after a passing prefix, a test that reports a genuine
    failure or error and ends within the deadline is the last test run;
    whatever follows it in the suite is never started, and every entry
    of [failures] and [errors] is its own. *)
Lemma suite_run_until_stops_at_first_failure
      (live : Q) (mutant : test_id -> cost * verdict)
      (pre post : list test_id) (t : test_id) (c spent : Q) :
  passes_within mutant live pre 0%Q = Some spent ->
  fst (mutant t) = Takes c ->
  Qle_bool (spent + c) live = true ->
  genuine (snd (mutant t)) = true ->
  suite_run_until live mutant (pre ++ t :: post) failfast_result 0%Q
  = (custom_run_case t (snd (mutant t))
                     (after_passes (List.length pre) failfast_result),
     (spent + c)%Q, true).
Proof.
  intros Hpre Hc Hle Hgen.
  rewrite (@suite_run_until_passing_prefix live mutant pre (t :: post)
             failfast_result 0%Q spent eq_refl Hpre).
  cbn [suite_run_until].
  change (shouldStop (base (after_passes (List.length pre)
                                         failfast_result)))
    with false.
  cbn iota. rewrite Hc, Hle.
  assert (Hstop : shouldStop
                    (base (custom_run_case t (snd (mutant t))
                             (after_passes (List.length pre)
                                           failfast_result))) = true).
  { unfold custom_run_case. apply custom_reports_stop;
      [reflexivity | right; exact Hgen]. }
  destruct post as [| t' post']; cbn [suite_run_until];
    [reflexivity | rewrite Hstop; reflexivity].
Qed.

(** A test still running at the deadline, after a passing prefix,
    leaves the thread alive. *)
Lemma suite_run_until_overruns
      (live : Q) (mutant : test_id -> cost * verdict)
      (pre post : list test_id) (t : test_id) (spent : Q) :
  passes_within mutant live pre 0%Q = Some spent ->
  match fst (mutant t) with
  | Forever => True
  | Takes c => Qle_bool (spent + c) live = false
  end ->
  snd (suite_run_until live mutant (pre ++ t :: post) failfast_result 0%Q)
  = false.
Proof.
  intros Hpre Hover.
  rewrite (@suite_run_until_passing_prefix live mutant pre (t :: post)
             failfast_result 0%Q spent eq_refl Hpre).
  cbn [suite_run_until after_passes failfast_result base shouldStop
       set_failfast new_CustomTestResult new_TestResult].
  destruct (fst (mutant t)) as [c |]; [rewrite Hover |]; reflexivity.
Qed.

(** *** Classification *)

(** [append_score_and_notify_views], with the score bound and a result
    that names its killer when it needs one, completes and classifies in
    a strict priority order: a runner thread still alive is TimedOut
    whatever the partial result holds, failures and errors included;
    otherwise a recorded [type_error] is Incompetent whatever failures
    are recorded besides; only then a successful result is Survived and
    an unsuccessful one with a failure or an error listed is Killed. *)
Lemma classification_priority
      (result : CustomTestResult) (d : Q) (s : state) (sc : t) :
  score_var s = Some sc ->
  killer_unbound (running (runner s)) result = false ->
  let out := append_score_and_notify_views self result d s in
  fst out = Val tt
  /\ (running (runner s) = true -> classified_as s (snd out) TimedOut)
  /\ (running (runner s) = false -> type_error result <> None ->
      classified_as s (snd out) Incompetent)
  /\ (running (runner s) = false -> type_error result = None ->
      wasSuccessful (base result) = true ->
      classified_as s (snd out) Survived)
  /\ (running (runner s) = false -> type_error result = None ->
      wasSuccessful (base result) = false ->
      classified_as s (snd out) Killed).
Proof.
  intros Hs Hk out.
  destruct (append_score_classifies result d s Hs Hk)
    as (new & Hl & Hv & Hsc & Hcl & _).
  fold out in Hl, Hv, Hsc.
  unfold classified_as. rewrite (@new_events_app s (snd out) new Hl).
  rewrite Hs, Hsc, Hcl. cbn [option_map]. unfold classify.
  split; [exact Hv |].
  repeat split; intros; 
    repeat match goal with
           | H : running _ = _ |- _ => rewrite H
           | H : type_error _ = _ |- _ => rewrite H
           | H : wasSuccessful _ = _ |- _ => rewrite H
           end; try reflexivity;
    destruct (type_error result); try reflexivity; congruence.
Qed.

(** *** The deadline *)


Lemma live_time_at_least_one (total_duration : Q) :
  (1 <= timeout_factor self)%Q ->
  (1 <= live_time self total_duration)%Q.
Proof.
  intros Hf. unfold live_time, Qlt_bool.
  destruct (Qle_bool total_duration 1) eqn:E; cbn [negb].
  - apply Qle_refl.
  - assert (Hd : (1 < total_duration)%Q).
    { apply Qnot_le_lt. intros H. apply Qle_bool_iff in H. congruence. }
    nra.
Qed.


(** *** Kills *)

(** Whatever the result holds besides: with the thread finished, no
    [TypeError] set aside and a failure or an error listed, the call
    tells the sink [killed] with the first failure, or with no failure
    the first error, raises [killed_mutants] by one and does nothing
    else. *)
Lemma append_score_names_the_killer
      (result : CustomTestResult) (d : Q) (s : state) (sc : t)
      (killer : test_id * traceback) :
  score_var s = Some sc ->
  running (runner s) = false ->
  type_error result = None ->
  killer_of (base result) = Some killer ->
  append_score_and_notify_views self result d s
  = (Val tt,
     set_score_var
       (Some (mk (killed_mutants sc + 1) (timeout_mutants sc)
                 (incompetent_mutants sc) (survived_mutants sc)))
       (add_event (Notify (NKilled d (fst killer) (snd killer))) s)).
Proof.
  destruct s as [off sv lg nw sg rn]. cbn [score_var runner].
  intros -> Hr Hte Hk.
  unfold killer_of in Hk. unfold append_score_and_notify_views.
  py_step. rewrite Hr, Hte. cbn. unfold wasSuccessful.
  destruct (failures (base result)) as [| f fs];
    destruct (errors (base result)) as [| e es];
    cbn in Hk; try discriminate Hk; injection Hk as <-;
    destruct sc as [k tm i sv]; reflexivity.
Qed.

(** C3 (amended).  The kill and its attribution, for any result: with
    the thread finished, no execution-environment [TypeError] set aside
    and a failure or an error listed, [append_score_and_notify_views]
    counts the mutant killed and names the first recorded failure, or
    with no failure the first recorded error.  So does the bounded run
    of a mutant that completes within the deadline with such a result.
    The suite runs fail-fast: with every test before [t] passing and [t]
    reporting a genuine failure or error within the deadline, the run
    ends with [t], no later test is started, and the killer is [t]. *)
Theorem killed_by_first_failure
        (tms : list (TestModule * option string * Q)) (m : Module)
        (s : state) (sc : t) :
  score_var s = Some sc ->
  sigint s <> Some 0%nat ->
  let suite := fst (create_test_suite tms m) in
  let live := live_time self (snd (create_test_suite tms m)) in
  let mutant := ast_tests (mod_code m) in
  let ran := suite_run_until live mutant suite failfast_result 0%Q in
  let result := fst (fst ran) in
  let out := run_tests_with_mutant self tms m s in
  let killed :=
    mk (killed_mutants sc + 1) (timeout_mutants sc)
       (incompetent_mutants sc) (survived_mutants sc) in
  (forall (r : CustomTestResult) (d : Q) (s0 : state)
          (killer : test_id * traceback),
      score_var s0 = Some sc ->
      running (runner s0) = false ->
      type_error r = None ->
      killer_of (base r) = Some killer ->
      append_score_and_notify_views self r d s0
      = (Val tt,
         set_score_var (Some killed)
           (add_event (Notify (NKilled d (fst killer) (snd killer))) s0)))
  /\ (forall killer,
         snd ran = true -> type_error result = None ->
         killer_of (base result) = Some killer ->
         exists d,
           fst out = Val tt
           /\ score_var (snd out) = Some killed
           /\ new_events s (snd out)
              = [ThreadStart (ast_id (mod_code m));
                 Notify (NKilled d (fst killer) (snd killer))])
  /\ (forall pre t post c spent,
         suite = pre ++ t :: post ->
         passes_within mutant live pre 0%Q = Some spent ->
         fst (mutant t) = Takes c ->
         Qle_bool (spent + c) live = true ->
         genuine (snd (mutant t)) = true ->
         ran = (custom_run_case t (snd (mutant t))
                  (after_passes (List.length pre) failfast_result),
                (spent + c)%Q, true)
         /\ exists tb, killer_of (base result) = Some (t, tb)).
Proof.
  intros Hs Hi suite live mutant ran result out killed.
  split; [| split].
  - intros r d s0 killer. apply append_score_names_the_killer.
  - intros killer Hfin Hte Hk. subst out result.
    unfold new_events.
    unfold run_tests_with_mutant, run_mutation_thread.
    fold suite. fold live. fold mutant. fold failfast_result. fold ran.
    destruct ran as [[r w] fin]. cbn [snd fst] in *. subst fin.
    destruct s as [off sv lg nw sg rn]. cbn [score_var sigint] in Hs, Hi.
    subst sv.
    destruct sg as [[| n] |]; [congruence | |];
      destruct (stdout_manager self) eqn:Eflag;
      autounfold with py; rewrite ?Eflag;
      cbn -[append_score_and_notify_views Qred Qplus Qminus];
      match goal with
      | |- context [append_score_and_notify_views self ?r0 ?d0 ?s0] =>
          rewrite (@append_score_names_the_killer r0 d0 s0 sc killer
                     eq_refl eq_refl Hte Hk)
      end;
      cbn -[Qred Qplus Qminus];
      rewrite <- ?app_assoc, ?skipn_app, ?skipn_all, ?Nat.sub_diag;
      eexists; repeat split.
  - intros pre t post c spent Hsuite Hpre Hc Hle Hgen.
    assert (Hran : ran = (custom_run_case t (snd (mutant t))
                            (after_passes (List.length pre)
                                          failfast_result),
                          (spent + c)%Q, true)).
    { subst ran. rewrite Hsuite.
      apply suite_run_until_stops_at_first_failure; assumption. }
    split; [exact Hran |].
    subst result. rewrite Hran. cbn [fst]. unfold custom_run_case.
    apply custom_reports_killer; [constructor | right; exact Hgen].
Qed.

(** *** Materialisation failures *)


(** *** Baseline validation *)

Lemma for_fold_app {A B} (xs ys : list A) (body : B -> A -> M B) :
  forall (acc : B) (s : state),
    for_fold (xs ++ ys) acc body s
    = match for_fold xs acc body s with
      | (Val acc', s') => for_fold ys acc' body s'
      | (Raise e, s') => (Raise e, s')
      end.
Proof.
  induction xs as [| x xs IH]; intros acc s; cbn [app for_fold].
  - reflexivity.
  - unfold bind. destruct (body acc x s) as [[acc' | e] s']; [apply IH |].
    reflexivity.
Qed.

Lemma interrupt_after_step (k : nat) (i : option nat) :
  interrupt_after (S k) i ->
  i <> Some 0%nat /\ interrupt_after k (after_blocking i).
Proof.
  destruct i as [[| n] |]; cbn; intros H; split;
    try discriminate; try lia; auto.
Qed.

(** An uninterrupted baseline run of one test module. *)
Lemma run_test_quiet (test_module : TestModule)
      (target_test : option string) (s : state) :
  sigint s <> Some 0%nat ->
  let out := run_test self test_module target_test s in
  exists duration,
    fst out = Val (baseline_result test_module target_test, duration)
    /\ log (snd out) = log s ++ [BaselineRun (tm_name test_module)]
    /\ sigint (snd out) = after_blocking (sigint s)
    /\ score_var (snd out) = score_var s
    /\ runner (snd out) = runner s
    /\ stdout_off (snd out) = false.
Proof.
  destruct s as [off sv lg nw sg rn]. cbn [sigint]. intros Hi.
  unfold run_test, baseline_result.
  destruct sg as [[| n] |]; [congruence | |];
    destruct (stdout_manager self) eqn:Eflag;
    autounfold with py; rewrite ?Eflag; cbn;
    eexists; repeat split.
Qed.

Lemma for_fold_cons {A B} (x : A) (xs : list A) (body : B -> A -> M B)
      (acc : B) (s : state) :
  for_fold (x :: xs) acc body s
  = match body acc x s with
    | (Val acc', s') => for_fold xs acc' body s'
    | (Raise e, s') => (Raise e, s')
    end.
Proof. reflexivity. Qed.

Lemma check_test_unfold
      (validated : list (TestModule * option string * Q))
      (item : TestModule * option string) (s : state) :
  check_test self validated item s
  = match run_test self (fst item) (snd item) s with
    | (Val ran, s1) =>
        if wasSuccessful (fst ran)
        then (Val (validated ++ [(fst item, snd item, snd ran)]), s1)
        else (Raise (TestsFailAtOriginal (fst ran)), s1)
    | (Raise e, s1) => (Raise e, s1)
    end.
Proof.
  unfold check_test, bind.
  destruct (run_test self (fst item) (snd item) s) as [[ran | e] s1];
    [destruct (wasSuccessful (fst ran)) |]; reflexivity.
Qed.

(** Test modules that pass unmodified are validated one after another. *)
Lemma baseline_loop_passes
      (items : list (TestModule * option string)) :
  forall (validated : list (TestModule * option string * Q)) (s : state)
         (k : nat),
    interrupt_after (List.length items + k) (sigint s) ->
    Forall (fun x => wasSuccessful (baseline_result (fst x) (snd x)) = true)
           items ->
    let out := for_fold items validated (check_test self) s in
    exists validated',
      fst out = Val validated'
      /\ log (snd out)
         = log s ++ map (fun x => BaselineRun (tm_name (fst x))) items
      /\ interrupt_after k (sigint (snd out))
      /\ score_var (snd out) = score_var s
      /\ runner (snd out) = runner s.
Proof.
  induction items as [| item rest IH]; intros validated s k Hi Hok.
  - exists validated. cbn. rewrite app_nil_r. repeat split; auto.
  - inversion Hok as [| ? ? Hitem Hrest]; subst.
    cbn [List.length Nat.add] in Hi.
    destruct (interrupt_after_step _ _ Hi) as [Hnow Hlater].
    cbv zeta. rewrite for_fold_cons, check_test_unfold.
    destruct (run_test_quiet (fst item) (snd item) s Hnow)
      as (d & Hv & Hl & Hi' & Hsc & Hrn & _).
    destruct (run_test self (fst item) (snd item) s) as [r s1].
    cbn [fst snd] in *. subst r. cbn [fst snd]. rewrite Hitem.
    rewrite <- Hi' in Hlater.
    destruct (IH (validated ++ [(fst item, snd item, d)]) s1 k Hlater
                 Hrest)
      as (v' & Hv' & Hl' & Hi'' & Hsc' & Hrn').
    exists v'. cbn [map]. rewrite Hl', Hl, <- app_assoc.
    repeat split; auto; congruence.
Qed.

(** The first test module that fails unmodified ends the validation. *)
Lemma load_and_check_tests_fails
      (pre post : list (TestModule * option string))
      (test_module : TestModule) (target_test : option string)
      (finish : option exn) (s : state) :
  interrupt_after (S (List.length pre)) (sigint s) ->
  load (test_loader self)
  = mkGen (pre ++ (test_module, target_test) :: post) finish ->
  Forall (fun x => wasSuccessful (baseline_result (fst x) (snd x)) = true)
         pre ->
  wasSuccessful (baseline_result test_module target_test) = false ->
  let out := load_and_check_tests self s in
  fst out = Raise (TestsFailAtOriginal
                     (baseline_result test_module target_test))
  /\ log (snd out)
     = log s ++ map (fun x => BaselineRun (tm_name (fst x))) pre
       ++ [BaselineRun (tm_name test_module)]
  /\ score_var (snd out) = score_var s
  /\ runner (snd out) = runner s.
Proof.
  intros Hi Hload Hok Hbad. cbv zeta.
  unfold load_and_check_tests, for_gen_fold. rewrite Hload.
  cbn [yielded ending]. unfold bind. rewrite for_fold_app.
  assert (Hi0 : interrupt_after (List.length pre + 1) (sigint s))
    by (rewrite Nat.add_1_r; exact Hi).
  destruct (@baseline_loop_passes pre [] s 1%nat Hi0 Hok)
    as (v & Hv & Hl & Hi' & Hsc & Hrn).
  destruct (for_fold pre [] (check_test self) s) as [r s1].
  cbn [fst snd] in *. subst r. rewrite for_fold_cons, check_test_unfold.
  cbn [fst snd].
  destruct (run_test_quiet test_module target_test s1
                           (proj1 (interrupt_after_step _ _ Hi')))
    as (d & Hv' & Hl' & _ & Hsc' & Hrn' & _).
  destruct (run_test self test_module target_test s1) as [r s2].
  cbn [fst snd] in *. subst r. cbn [fst snd]. rewrite Hbad.
  cbn [fst snd]. rewrite Hl', Hl, <- app_assoc.
  repeat split; congruence.
Qed.

(** C5.  When a configured test module fails or errors in its unmodified
    run, every module before it having passed and no interrupt being
    delivered up to then, [run] completes by
    handing the failing result to the sink as [original_tests_fail];
    the test modules after it are not run, no mutation is announced, no
    runner thread is started and no ledger is ever created, whatever the
    target loader and the mutant generator hold. *)
Theorem baseline_failure_aborts
        (pre post : list (TestModule * option string))
        (test_module : TestModule) (target_test : option string)
        (finish : option exn) (s : state) :
  interrupt_after (S (List.length pre)) (sigint s) ->
  load (test_loader self)
  = mkGen (pre ++ (test_module, target_test) :: post) finish ->
  Forall (fun x => wasSuccessful (baseline_result (fst x) (snd x)) = true)
         pre ->
  wasSuccessful (baseline_result test_module target_test) = false ->
  let out := run self s in
  fst out = Val tt
  /\ new_events s (snd out)
     = Notify (NInitialize (names (target_loader self))
                           (names (test_loader self)))
       :: map (fun x => BaselineRun (tm_name (fst x))) pre
       ++ [BaselineRun (tm_name test_module);
           Notify (NOriginalTestsFail
                     (baseline_result test_module target_test))]
  /\ score_var (snd out) = None
  /\ filter is_mutation_notice (new_events s (snd out)) = []
  /\ filter is_thread_start (new_events s (snd out)) = [].
Proof.
  intros Hi Hload Hok Hbad out.
  assert (Hgoal :
    fst out = Val tt
    /\ log (snd out)
       = log s
         ++ Notify (NInitialize (names (target_loader self))
                                (names (test_loader self)))
         :: map (fun x => BaselineRun (tm_name (fst x))) pre
         ++ [BaselineRun (tm_name test_module);
             Notify (NOriginalTestsFail
                       (baseline_result test_module target_test))]
    /\ score_var (snd out) = None).
  { subst out. destruct s as [off sv lg nw sg rn]. cbn [sigint] in Hi.
    pose proof (@load_and_check_tests_fails pre post test_module target_test
                  finish
                  (mkState off None
                     (lg ++ [Notify (NInitialize
                                       (names (target_loader self))
                                       (names (test_loader self)))])
                     nw sg rn)
                  Hi Hload Hok Hbad) as H.
    cbv zeta in H. destruct H as (Hv & Hl & Hsc & _).
    unfold run, run_mutation, run_mutation_try. autounfold with py.
    cbn -[load_and_check_tests].
    destruct (load_and_check_tests self _) as [r s3].
    cbn in *. subst r. cbn. rewrite Hl, Hsc, <- !app_assoc. cbn.
    repeat split. }
  destruct Hgoal as (Hv & Hl & Hsc).
  rewrite (@new_events_app s (snd out) _ Hl).
  repeat split; auto; cbn; rewrite filter_app; cbn;
    rewrite app_nil_r; clear; induction pre; cbn; auto.
Qed.

(** *** The whole run *)

(** The loop of [run_mutation] over the targets. *)
Lemma target_loop_counts
      (tms : list (TestModule * option string * Q))
      (targets : list (TargetModule * option string)) :
  forall (s : state) (sc : t),
    score_var s = Some sc ->
    let out := for_each targets
                 (fun item => mutate_module self (fst item) (snd item) tms)
                 s in
    exists new,
      log (snd out) = log s ++ new
      /\ score_var (snd out) = Some (record_all (classified_in new) sc).
Proof.
  induction targets as [| target rest IH]; intros s sc Hs.
  - exists []. cbn. rewrite app_nil_r. auto.
  - cbv zeta. rewrite for_each_cons.
    destruct (mutate_module_counts (fst target) (snd target) tms s Hs)
      as (new1 & Hl1 & Hs1 & _).
    destruct (mutate_module self (fst target) (snd target) tms s)
      as [[[] | e] s1]; cbn [fst snd] in *.
    + destruct (IH s1 _ Hs1) as (new2 & Hl2 & Hs2).
      exists (new1 ++ new2).
      rewrite Hl2, Hl1, Hs2, classified_in_app, record_all_app, app_assoc.
      auto.
    + exists new1. auto.
Qed.

(** Once baseline validation has completed, [run_mutation] keeps the
    ledger bound: an interrupt in the loop is absorbed and the ledger as
    it stands is returned; any other exception leaves with the ledger
    still holding what was counted. *)
Lemma run_mutation_after_baseline
      (s s1 : state) (tms : list (TestModule * option string * Q)) :
  load_and_check_tests self (set_score_var None s) = (Val tms, s1) ->
  let out := run_mutation self s in
  exists new,
    log (snd out) = log s1 ++ new
    /\ score_var (snd out)
       = Some (record_all (classified_in new) MutationScore.init)
    /\ match fst out with
       | Val sc => score_var (snd out) = Some sc
       | Raise e => e <> KeyboardInterrupt
       end.
Proof.
  intros Hload out. subst out.
  destruct (run_mutation self s) as [r s'] eqn:Hout. cbn [fst snd].
  unfold run_mutation, run_mutation_try, for_gen, for_gen_fold,
    fresh_frame, try_except, bind in Hout.
  rewrite Hload in Hout. unfold bind_score, notify, emit in Hout.
  match type of Hout with
  | context [for_fold ?xs tt ?body ?s0] =>
      destruct (@target_loop_counts tms xs s0 MutationScore.init eq_refl)
        as (new & Hl & Hsc);
      unfold for_each in Hl, Hsc; cbv zeta in Hl, Hsc;
      destruct (for_fold xs tt body s0) as [[[] | e] s2]
  end; cbn [fst snd] in *; cbn [log add_event set_score_var] in Hl;
    rewrite <- !app_assoc in Hl; cbn [app] in Hl;
    [ destruct (ending (load (target_loader self))) as [e |];
      [ destruct e |] | destruct e ];
    unfold raise, ret, read_score in Hout; rewrite ?Hsc in Hout;
    inversion Hout; subst;
    (eexists; split; [exact Hl |]; cbn [classified_in classification];
     split; [assumption |]; solve [assumption | discriminate]).
Qed.

(** An interrupt that arrives while the first test module is validated:
    [run_mutation] leaves its [try] with [score] still unbound, and
    [return score] faults. *)
Lemma run_mutation_interrupted_in_baseline
      (item : TestModule * option string)
      (rest : list (TestModule * option string)) (finish : option exn)
      (s : state) :
  load (test_loader self) = mkGen (item :: rest) finish ->
  sigint s = Some 0%nat ->
  fst (run_mutation self s) = Raise (UnboundLocalError "score")
  /\ fst (run self s) = Raise (UnboundLocalError "score").
Proof.
  intros Hload Hi. destruct s as [off sv lg nw sg rn]. cbn [sigint] in Hi.
  subst sg.
  unfold run, run_mutation, run_mutation_try, load_and_check_tests,
    for_gen_fold, check_test, run_test.
  rewrite Hload. cbn [yielded ending for_fold].
  destruct (stdout_manager self) eqn:Eflag;
    autounfold with py; rewrite ?Eflag; cbn; split; reflexivity.
Qed.

(** *** Standard output *)

(** What [create_mutant_module] leaves of the stdout suppression: it is
    lifted after a successful [exec], untouched when [compile] fails,
    and left in force when [exec] raises. *)
Lemma create_mutant_module_stdout
      (target_module : TargetModule) (mutant_ast : Ast) (s : state) :
  sigint s = None ->
  stdout_off (snd (create_mutant_module self target_module mutant_ast s))
  = match ast_compile mutant_ast, ast_exec mutant_ast with
    | Some _, _ => stdout_off s
    | None, None => false
    | None, Some _ => stdout_manager self || stdout_off s
    end.
Proof.
  destruct s as [off sv lg nw sg rn]. cbn [sigint]. intros ->.
  unfold create_mutant_module, py_compile, py_exec.
  destruct (ast_compile mutant_ast) as [ec |] eqn:Ec;
    destruct (ast_exec mutant_ast) as [ee |] eqn:Ee;
    destruct (stdout_manager self) eqn:Eflag;
    autounfold with py; rewrite ?Ec, ?Ee, ?Eflag; cbn;
    rewrite ?Ec, ?Ee, ?Eflag; cbn;
    try (destruct (is_Exception ec)); try (destruct (is_Exception ee));
    reflexivity.
Qed.

(** The bounded run lifts the suppression on every path it completes
    on: tests passing, a test failing, the runner killed at the
    deadline. *)
Lemma run_tests_with_mutant_restores_stdout
      (tms : list (TestModule * option string * Q)) (m : Module)
      (s : state) (sc : t) :
  score_var s = Some sc ->
  sigint s <> Some 0%nat ->
  stdout_off (snd (run_tests_with_mutant self tms m s)) = false.
Proof.
  intros Hs Hi.
  pose proof (run_tests_with_mutant_completes tms m s Hs Hi) as Hdone.
  pose proof (run_tests_with_mutant_faults tms m s Hs Hi) as Hfault.
  cbv zeta in Hdone, Hfault.
  match type of Hdone with
  | ?k = false -> _ => destruct k
  end.
  - destruct (Hfault eq_refl) as (_ & _ & _ & Hout & _). exact Hout.
  - destruct (Hdone eq_refl) as (new & _ & _ & _ & _ & _ & Hout & _).
    exact Hout.
Qed.

End Evaluation.

(* ================================================================== *)
(** ** The sample project, run *)

(** The scenario of section 8 of the specification: three mutants, one
    survives, one is killed by [test_add], one times out. *)
Example scenario_score :
  let out := run (Sample.controller Sample.passing [Sample.AOR] false)
                 (initial_state None) in
  fst out = Val tt
  /\ score_var (snd out) = Some (MutationScore.mk 1 1 0 1)
  /\ classified_in (log (snd out)) = [Survived; Killed; TimedOut]
  /\ MutationScore.count (MutationScore.mk 1 1 0 1)
     = inr ((2 # 1) / (3 # 1) * (100 # 1))%Q.
Proof. vm_compute. repeat split. Qed.

(** [round] against the Standard Library's specification of IEEE 754
    binary64 arithmetic on the operations of the scenario: the quotient
    [2 / 3], its product with [100], and the quotient [200 / 3]. *)
Example round_agrees_with_binary64 :
  let two_thirds :=
    SpecFloat.SFdiv 53 1024 (float_of_int 2) (float_of_int 3) in
  (float_value two_thirds == Float64.round (2 # 3))%Q
  /\ (float_value (SpecFloat.SFmul 53 1024 two_thirds (float_of_int 100))
      == Float64.round (Float64.round (2 # 3) * inject_Z 100))%Q
  /\ (float_value (SpecFloat.SFdiv 53 1024 (float_of_int 200)
                                   (float_of_int 3))
      == Float64.round (200 # 3))%Q
  /\ (float_value (SpecFloat.SFdiv 53 1024 (float_of_int 1)
                                   (float_of_int 7))
      == Float64.round (1 # 7))%Q
  /\ (float_value (SpecFloat.SFdiv 53 1024 (float_of_int 123456789)
                                   (float_of_int 1000))
      == Float64.round (123456789 # 1000))%Q.
Proof. cbv zeta. repeat split; vm_compute; reflexivity. Qed.



(** C10.  The chain of [append_score_and_notify_views] misses a case.
    [test_sub] is marked as an expected failure and fails as expected on
    the unmodified target, so the baseline passes.  Under this mutant it
    passes: the bounded run finishes with an unexpected success and
    neither a failure nor an error, [wasSuccessful()] is false, and the
    last branch binds neither [killer] nor [exception_traceback].
    [notify_killed] then faults with [UnboundLocalError]: the mutant is
    announced but classified as nothing, no counter moves, and the fault
    leaves [run] without an [end] notification. *)
Theorem unexpected_success_leaves_killer_unbound :
  let self := Sample.controller [(Sample.test_known_bug, None)]
                                [Sample.ROR] false in
  let m := mkModule "calc" Sample.fixing in
  let tms := [(Sample.test_known_bug, @None string, 1 # 5)] in
  let ran := suite_run_until 1%Q Sample.known_bug_fixed
                             ["test_add"; "test_sub"] failfast_result 0%Q in
  let result := fst (fst ran) in
  let settled :=
    mkState false (Some (MutationScore.mk 2 0 1 1)) [] 0%Q None
            (Finished 9) in
  let out := run_tests_with_mutant self tms m (Sample.in_loop None) in
  let whole := run self (initial_state None) in
  wasSuccessful (baseline_result Sample.test_known_bug None) = true
  /\ snd ran = true
  /\ type_error result = None
  /\ wasSuccessful (base result) = false
  /\ failures (base result) = []
  /\ errors (base result) = []
  /\ unexpectedSuccesses (base result) = ["test_sub"]
  /\ append_score_and_notify_views self result (1 # 5) settled
     = (Raise (UnboundLocalError "killer"), settled)
  /\ fst out = Raise (UnboundLocalError "killer")
  /\ score_var (snd out) = Some MutationScore.init
  /\ new_events (Sample.in_loop None) (snd out) = [ThreadStart 9]
  /\ fst whole = Raise (UnboundLocalError "killer")
  /\ new_events (initial_state None) (snd whole)
     = [Notify (NInitialize ["pkg.calc"] ["test_known_bug"]);
        BaselineRun "test_known_bug";
        Notify (NPassed [("test_known_bug", None, 1 # 5)]);
        Notify NStart;
        Notify (NMutation 1 "ROR" "calc.py" 5 9);
        ThreadStart 9].
Proof. cbv zeta. repeat split. Qed.

(** Four mutants, one of each outcome; the ledger holds one in each
    counter. *)
Lemma every_mutant_counted_once_witness :
  let self := Sample.controller Sample.passing [Sample.AOR; Sample.SDL]
                                false in
  let out := mutate_module self Sample.calc None Sample.validated
                           (Sample.in_loop None) in
  score_var (Sample.in_loop None) = Some MutationScore.init
  /\ fst out = Val tt
  /\ score_var (snd out) = Some (MutationScore.mk 1 1 1 1)
  /\ MutationScore.all_mutants (MutationScore.mk 1 1 1 1) = 0 + 4.
Proof.
  cbv zeta.
  destruct (@every_mutant_counted_once
              (Sample.controller Sample.passing [Sample.AOR; Sample.SDL]
                                 false)
              Sample.calc None Sample.validated (Sample.in_loop None)
              MutationScore.init eq_refl)
    as (Hscore & Hsum & _ & _).
  split; [reflexivity |]. split; [reflexivity |].
  split; [exact Hscore | exact Hsum].
Defined.

(** A result holding both a failure and a set-aside [TypeError]: timed
    out while the runner is alive, incompetent once it has finished. *)
Example classification_priority_example :
  let self := Sample.controller Sample.passing [Sample.AOR] false in
  let failed :=
    mkCustom (mkTestResult [("test_add", "AssertionError")] [] [] 1 true
                           true)
             (Some (ExcInfo "TypeError" "unsupported operand" "tb")) in
  let waiting :=
    mkState false (Some MutationScore.init) [] 0%Q None (Running 3) in
  let settled :=
    mkState false (Some MutationScore.init) [] 0%Q None (Finished 3) in
  classified_as waiting
    (snd (append_score_and_notify_views self failed 1%Q waiting)) TimedOut
  /\ classified_as settled
       (snd (append_score_and_notify_views self failed 1%Q settled))
       Incompetent.
Proof. cbv zeta. repeat split. Qed.



(** A result with two failures and an error: the first failure is the
    killer.  And a run in which [test_add] fails and its [tearDown]
    raises: the run stops there with one failure and one error, and the
    failure is the killer. *)
Lemma killed_by_first_failure_witness :
  let self := Sample.controller Sample.passing [Sample.AOR] false in
  let m := mkModule "calc" Sample.untidy in
  let before :=
    mkState false (Some (MutationScore.mk 2 1 1 3)) [] 0%Q None NoThread in
  let out := run_tests_with_mutant self Sample.validated m before in
  let listed :=
    mkCustom (mkTestResult [("test_b", "tb1"); ("test_c", "tb2")]
                           [("test_a", "tb0")] [] 3 false false) None in
  let ran := suite_run_until 1%Q Sample.teardown_breaks
                             ["test_add"; "test_sub"] failfast_result 0%Q in
  append_score_and_notify_views self listed (1 # 2)
    (mkState false (Some (MutationScore.mk 2 1 1 3)) [] 0%Q None
             (Finished 4))
  = (Val tt,
     mkState false (Some (MutationScore.mk (2 + 1) 1 1 3))
             [Notify (NKilled (1 # 2) "test_b" "tb1")] 0%Q None
             (Finished 4))
  /\ failures (base (fst (fst ran)))
     = [("test_add", "AssertionError: 3 != -1")]
  /\ errors (base (fst (fst ran))) = [("test_add", "tb2")]
  /\ testsRun (base (fst (fst ran))) = 1
  /\ (exists d,
        fst out = Val tt
        /\ score_var (snd out) = Some (MutationScore.mk (2 + 1) 1 1 3)
        /\ new_events before (snd out)
           = [ThreadStart 8;
              Notify (NKilled d "test_add" "AssertionError: 3 != -1")]).
Proof.
  cbv zeta.
  destruct (@killed_by_first_failure
              (Sample.controller Sample.passing [Sample.AOR] false)
              Sample.validated (mkModule "calc" Sample.untidy)
              (mkState false (Some (MutationScore.mk 2 1 1 3)) [] 0%Q None
                       NoThread)
              (MutationScore.mk 2 1 1 3) eq_refl)
    as (Hname & Hrun & Hfast); [discriminate |].
  split.
  { exact (Hname
             (mkCustom (mkTestResult [("test_b", "tb1"); ("test_c", "tb2")]
                                     [("test_a", "tb0")] [] 3 false false)
                       None)
             (1 # 2)%Q
             (mkState false (Some (MutationScore.mk 2 1 1 3)) [] 0%Q None
                      (Finished 4))
             ("test_b", "tb1") eq_refl eq_refl eq_refl eq_refl). }
  destruct (Hfast [] "test_add" ["test_sub"] (1 # 10)%Q 0%Q
                  eq_refl eq_refl eq_refl eq_refl eq_refl)
    as (Hran & _).
  cbn [fst snd create_test_suite] in Hran.
  split; [reflexivity |]. split; [reflexivity |]. split; [reflexivity |].
  exact (Hrun ("test_add", "AssertionError: 3 != -1")
              eq_refl eq_refl eq_refl).
Defined.

(** C3, as stated, fails: the bounded run of this mutant completes
    within the deadline and records a genuine failure of [test_sub], yet
    the [TypeError] set aside from [test_add] makes it Incompetent, and
    no kill is counted. *)
Lemma failure_beside_type_error_not_killed :
  let self := Sample.controller Sample.passing [Sample.AOR] false in
  let m := mkModule "calc" Sample.confused in
  let ran := suite_run_until 1%Q Sample.type_error_then_failure
                             ["test_add"; "test_sub"] failfast_result 0%Q in
  let out := run_tests_with_mutant self Sample.validated m
                                   (Sample.in_loop None) in
  snd ran = true
  /\ failures (base (fst (fst ran)))
     = [("test_sub", "AssertionError: 1 != 0")]
  /\ fst out = Val tt
  /\ score_var (snd out) = Some (MutationScore.mk 0 0 1 0)
  /\ classified_in (log (snd out)) = [Incompetent]
  /\ ~ classified_as (Sample.in_loop None) (snd out) Killed.
Proof.
  cbv zeta. repeat split; try reflexivity.
  intros [Hscore _]. vm_compute in Hscore. discriminate Hscore.
Qed.

(** The second of three test modules fails unmodified: the third is not
    run and nothing is mutated. *)
Lemma baseline_failure_aborts_witness :
  let self := Sample.controller
                [(Sample.test_calc, None); (Sample.test_broken, None);
                 (Sample.test_calc, Some "test_add")]
                [Sample.AOR; Sample.SDL] false in
  let out := run self (initial_state None) in
  fst out = Val tt
  /\ log (snd out)
     = [Notify (NInitialize ["pkg.calc"]
                            ["test_calc"; "test_broken"; "test_calc"]);
        BaselineRun "test_calc"; BaselineRun "test_broken";
        Notify (NOriginalTestsFail
                  (mkTestResult [("test_sub", "AssertionError: 1 != 2")] []
                                [] 2 false false))]
  /\ score_var (snd out) = None.
Proof.
  cbv zeta.
  destruct (@baseline_failure_aborts
              (Sample.controller
                 [(Sample.test_calc, None); (Sample.test_broken, None);
                  (Sample.test_calc, Some "test_add")]
                 [Sample.AOR; Sample.SDL] false)
              [(Sample.test_calc, None)]
              [(Sample.test_calc, Some "test_add")]
              Sample.test_broken None None (initial_state None)
              I eq_refl
              (Forall_cons (Sample.test_calc, @None string) eq_refl
                           (Forall_nil _))
              eq_refl)
    as (Hval & Hlog & Hscore & _).
  split; [exact Hval |]. split; [exact Hlog | exact Hscore].
Defined.



(** C7.  The claim fails on the path of a failing variant
    initialisation: with suppression configured, after a mutant whose
    module-level code raises, [sys.stdout] is still the null stream when
    the evaluation step has completed, and still so when [run] has
    announced the end of the run. *)
Theorem stdout_left_disabled_after_failed_init :
  let self := Sample.controller Sample.passing [Sample.SDL] true in
  let step := evaluate_mutant self Sample.calc "calc.py" Sample.validated
                              (Sample.SDL, 7%nat, Sample.crashing)
                              (Sample.in_loop None) in
  let whole := run self (initial_state None) in
  stdout_off (Sample.in_loop None) = false
  /\ fst step = Val tt
  /\ stdout_off (snd step) = true
  /\ fst whole = Val tt
  /\ stdout_off (snd whole) = true.
Proof. cbv zeta. repeat split. Qed.

(** C8.  The claim fails for an interrupt during baseline validation:
    [run_mutation] then reaches [return score] with [score] unbound and
    raises [UnboundLocalError], which [run] does not handle; an
    interrupt during the mutation loop does return the ledger. *)
Theorem interrupt_during_baseline_faults :
  let self := Sample.controller Sample.passing [Sample.AOR] false in
  fst (run_mutation self (initial_state (Some 0%nat)))
  = Raise (UnboundLocalError "score")
  /\ fst (run self (initial_state (Some 0%nat)))
     = Raise (UnboundLocalError "score")
  /\ fst (run_mutation self (initial_state (Some 10%nat)))
     = Val (MutationScore.mk 1 0 0 1).
Proof. cbv zeta. repeat split. Qed.

(** C1, as stated, fails: the operator interrupts while the controller
    waits for the runner of the first mutant.  The generator has yielded
    that mutant, it was announced and its runner started, yet the run
    returns a ledger in which no counter has moved. *)
Lemma interrupted_mutant_not_counted :
  let self := Sample.controller Sample.passing [Sample.AOR] false in
  let out := run_mutation self (initial_state (Some 4%nat)) in
  fst out = Val MutationScore.init
  /\ filter is_mutation_notice (log (snd out))
     = [Notify (NMutation 1 "AOR" "calc.py" 3 1)]
  /\ filter is_thread_start (log (snd out)) = [ThreadStart 1]
  /\ classified_in (log (snd out)) = []
  /\ MutationScore.all_mutants MutationScore.init = 0.
Proof. cbv zeta. repeat split. Qed.

(* ================================================================== *)
(** ** Further properties of the ledger *)

Section LedgerArithmetic.

Import MutationScore.

Lemma percent_bounds (a b : Z) :
  0 <= a <= b -> 0 < b ->
  (0 <= inject_Z a / inject_Z b * inject_Z 100
   /\ inject_Z a / inject_Z b * inject_Z 100 <= inject_Z 100)%Q.
Proof.
  intros Ha Hb.
  assert (Hb' : (0 < inject_Z b)%Q) by (rewrite (Zlt_Qlt 0 b) in Hb; exact Hb).
  assert (Ha0 : (0 <= inject_Z a)%Q)
    by (change 0%Q with (inject_Z 0); rewrite <- Zle_Qle; lia).
  assert (Hab : (inject_Z a <= inject_Z b)%Q) by (rewrite <- Zle_Qle; lia).
  assert (H1 : (0 <= inject_Z a / inject_Z b)%Q).
  { apply Qle_shift_div_l; [exact Hb' |]. rewrite Qmult_0_l. exact Ha0. }
  assert (H2 : (inject_Z a / inject_Z b <= 1)%Q).
  { apply Qle_shift_div_r; [exact Hb' |]. rewrite Qmult_1_l. exact Hab. }
  change (inject_Z 100) with 100%Q. split; nra.
Qed.

Lemma ratio_le (a b c d : Z) :
  0 < b -> 0 < d -> a * d <= c * b ->
  (inject_Z a / inject_Z b * inject_Z 100
   <= inject_Z c / inject_Z d * inject_Z 100)%Q.
Proof.
  intros Hb Hd H.
  assert (Hb' : (0 < inject_Z b)%Q) by (rewrite (Zlt_Qlt 0 b) in Hb; exact Hb).
  assert (Hd' : (0 < inject_Z d)%Q) by (rewrite (Zlt_Qlt 0 d) in Hd; exact Hd).
  apply Qmult_le_compat_r; [| discriminate].
  apply Qle_shift_div_l; [exact Hd' |].
  unfold Qdiv.
  rewrite <- Qmult_assoc, (Qmult_comm (/ inject_Z b)), Qmult_assoc.
  apply Qle_shift_div_r; [exact Hb' |].
  rewrite <- !inject_Z_mult, <- Zle_Qle. exact H.
Qed.

Lemma ratio_eq_100 (a b : Z) :
  0 < b ->
  (inject_Z a / inject_Z b * inject_Z 100 == 100)%Q <-> a = b.
Proof.
  intros Hb. destruct b as [| p | p]; try lia.
  rewrite <- Qmake_Qdiv. unfold Qeq, Qmult. cbn. lia.
Qed.

Lemma ratio_eq_0 (a b : Z) :
  0 < b ->
  (inject_Z a / inject_Z b * inject_Z 100 == 0)%Q <-> a = 0.
Proof.
  intros Hb. destruct b as [| p | p]; try lia.
  rewrite <- Qmake_Qdiv. unfold Qeq, Qmult. cbn. lia.
Qed.

(** [count] of a ledger with no negative counter, spelt out on the three
    counters that enter it. *)
Lemma count_scored (s : t) :
  counters_nonneg s ->
  let a := killed_mutants s + timeout_mutants s in
  let b := a + survived_mutants s in
  (b = 0 /\ count s = inr 0%Q)
  \/ (0 < b /\ count s = inr (inject_Z a / inject_Z b * inject_Z 100)%Q).
Proof.
  intros (Hk & Ht & Hi & Hs) a b.
  assert (Eb : all_mutants s - incompetent_mutants s = b)
    by (unfold all_mutants; subst a b; lia).
  destruct (Z.eq_dec b 0) as [E | N].
  - left. split; [exact E |]. apply count_zero_bottom. congruence.
  - right. split; [subst a b; lia |].
    rewrite count_nonzero_bottom by congruence. rewrite Eb. reflexivity.
Qed.

(** X1.  [count] of a ledger whose counters are not negative, as every
    ledger built from [MutationScore()] by [inc_*] is, is a percentage:
    it returns a number between 0 and 100. *)
Theorem count_is_a_percentage (s : t) :
  counters_nonneg s ->
  exists q, count s = inr q /\ (0 <= q)%Q /\ (q <= 100)%Q.
Proof.
  intros H. destruct (count_scored H) as [[_ E] | [Hb E]]; rewrite E.
  - exists 0%Q. repeat split; discriminate.
  - eexists. split; [reflexivity |].
    destruct H as (Hk & Ht & Hi & Hs).
    apply percent_bounds; lia.
Qed.

(** X2.  Incompetent mutants do not enter the score: counting one more
    of them leaves [count] as it was, and [all_mutants] one higher. *)
Theorem count_ignores_incompetent (s : t) :
  count (inc_incompetent s) = count s
  /\ all_mutants (inc_incompetent s) = all_mutants s + 1.
Proof.
  split; [| unfold all_mutants; cbn; lia].
  unfold count, inc_incompetent, all_mutants.
  cbn [killed_mutants timeout_mutants incompetent_mutants survived_mutants].
  replace (killed_mutants s + timeout_mutants s
           + (incompetent_mutants s + 1) + survived_mutants s
           - (incompetent_mutants s + 1))
    with (killed_mutants s + timeout_mutants s + incompetent_mutants s
          + survived_mutants s - incompetent_mutants s) by lia.
  reflexivity.
Qed.

(** X3.  On a ledger with no negative counter, a mutant counted killed
    or timed out never lowers [count], and a mutant counted survived
    never raises it. *)
Theorem count_follows_outcome (s : t) :
  counters_nonneg s ->
  exists q qk qt qs,
    count s = inr q
    /\ count (inc_killed s) = inr qk
    /\ count (inc_timeout s) = inr qt
    /\ count (inc_survived s) = inr qs
    /\ (q <= qk)%Q /\ (q <= qt)%Q /\ (qs <= q)%Q.
Proof.
  intros H. pose proof H as (Hk & Ht & Hi & Hs).
  assert (Hnk : counters_nonneg (inc_killed s))
    by (unfold counters_nonneg; cbn; repeat split; lia).
  assert (Hnt : counters_nonneg (inc_timeout s))
    by (unfold counters_nonneg; cbn; repeat split; lia).
  assert (Hns : counters_nonneg (inc_survived s))
    by (unfold counters_nonneg; cbn; repeat split; lia).
  destruct (count_scored Hnk) as [[Ek _] | [Bk Ek]]; [cbn in Ek; lia |].
  destruct (count_scored Hnt) as [[Et _] | [Bt Et]]; [cbn in Et; lia |].
  destruct (count_scored Hns) as [[Es _] | [Bs Es]]; [cbn in Es; lia |].
  cbn [inc_killed inc_timeout inc_survived killed_mutants timeout_mutants
       survived_mutants] in Bk, Ek, Bt, Et, Bs, Es.
  rewrite Ek, Et, Es.
  destruct (count_scored H) as [[B E] | [B E]]; rewrite E;
    do 4 eexists; (do 4 (split; [reflexivity |])).
  - assert (Ea : killed_mutants s + timeout_mutants s = 0) by lia.
    rewrite Ea. repeat split.
    + apply percent_bounds; lia.
    + apply percent_bounds; lia.
    + apply Qle_lteq. right. apply ratio_eq_0; lia.
  - repeat split; apply ratio_le; nia.
Qed.

(** X4.  Once a mutant has been killed, timed out or survived, [count]
    is 100 exactly when no mutant survived and 0 exactly when none was
    killed or timed out. *)
Theorem count_extremes (s : t) (q : Q) :
  counters_nonneg s ->
  0 < killed_mutants s + timeout_mutants s + survived_mutants s ->
  count s = inr q ->
  ((q == 100)%Q <-> survived_mutants s = 0)
  /\ ((q == 0)%Q <-> killed_mutants s + timeout_mutants s = 0).
Proof.
  intros H Hb Hq. destruct (count_scored H) as [[B _] | [B E]]; [lia |].
  rewrite E in Hq. injection Hq as <-. split.
  - rewrite ratio_eq_100 by exact B. lia.
  - rewrite ratio_eq_0 by exact B. lia.
Qed.

End LedgerArithmetic.

Lemma count_is_a_percentage_witness :
  counters_nonneg (MutationScore.mk 3 1 2 4)
  /\ exists q, MutationScore.count (MutationScore.mk 3 1 2 4) = inr q
               /\ (0 <= q)%Q /\ (q <= 100)%Q.
Proof.
  assert (H : counters_nonneg (MutationScore.mk 3 1 2 4))
    by (unfold counters_nonneg; cbn; lia).
  split; [exact H | exact (count_is_a_percentage H)].
Defined.

Lemma count_follows_outcome_witness :
  counters_nonneg (MutationScore.mk 1 0 1 1)
  /\ exists q qk qt qs,
       MutationScore.count (MutationScore.mk 1 0 1 1) = inr q
       /\ MutationScore.count (MutationScore.mk 2 0 1 1) = inr qk
       /\ MutationScore.count (MutationScore.mk 1 1 1 1) = inr qt
       /\ MutationScore.count (MutationScore.mk 1 0 1 2) = inr qs
       /\ (q <= qk)%Q /\ (q <= qt)%Q /\ (qs <= q)%Q.
Proof.
  assert (H : counters_nonneg (MutationScore.mk 1 0 1 1))
    by (unfold counters_nonneg; cbn; lia).
  split; [exact H | exact (count_follows_outcome H)].
Defined.

Lemma count_extremes_witness :
  counters_nonneg (MutationScore.mk 2 1 5 0)
  /\ MutationScore.count (MutationScore.mk 2 1 5 0)
     = inr (inject_Z 3 / inject_Z 3 * inject_Z 100)%Q
  /\ ((inject_Z 3 / inject_Z 3 * inject_Z 100 == 100)%Q <-> 0 = 0)
  /\ ((inject_Z 3 / inject_Z 3 * inject_Z 100 == 0)%Q <-> 2 + 1 = 0).
Proof.
  assert (H : counters_nonneg (MutationScore.mk 2 1 5 0))
    by (unfold counters_nonneg; cbn; lia).
  split; [exact H |]. split; [reflexivity |].
  apply (@count_extremes (MutationScore.mk 2 1 5 0)
           (inject_Z 3 / inject_Z 3 * inject_Z 100)%Q H);
    [cbn; lia | reflexivity].
Defined.

(* ================================================================== *)
(** ** Further properties of the generator *)

Section GeneratorMore.

Import Mutator.

Variable target_ast : Ast.
Variable to_mutate : option string.

Lemma in_mutate_ops (ops : list Operator) (op : Operator) (lineno : nat)
      (mutant : Ast) :
  In (op, lineno, mutant) (mutate_ops ops target_ast to_mutate)
  <-> In op ops /\ In (mutant, lineno) (op_mutate op target_ast to_mutate).
Proof.
  induction ops as [| o ops IH]; cbn [mutate_ops In].
  - tauto.
  - rewrite in_app_iff, in_map_iff, IH. split.
    + intros [[[m l] [E Hin]] | [H1 H2]].
      * cbn in E. inversion E; subst. auto.
      * auto.
    + intros [[-> | Hin] Hp].
      * left. exists (mutant, lineno). auto.
      * right. auto.
Qed.

(** X5.  The generator invents nothing and drops nothing: it yields the
    triple [(op, lineno, mutant)] exactly when [op] is a registered
    operator and [(mutant, lineno)] is one of the pairs [op] yields for
    the target. *)
Theorem mutate_yields_exactly_the_operators_pairs
        (m : t) (op : Operator) (lineno : nat) (mutant : Ast) :
  In (op, lineno, mutant) (mutate m target_ast to_mutate)
  <-> In op (operators m)
      /\ In (mutant, lineno) (op_mutate op target_ast to_mutate).
Proof. unfold mutate. apply in_mutate_ops. Qed.

(** X6.  [add_operator] only ever extends the enumeration at its end:
    after it the generator yields what it yielded before, every triple
    at the position it had, followed by the triples of the new
    operator. *)
Theorem add_operator_extends_at_the_end (m : t) (op : Operator) :
  mutate (add_operator m op) target_ast to_mutate
  = mutate m target_ast to_mutate
    ++ map (tagged op) (op_mutate op target_ast to_mutate)
  /\ forall i, (i < List.length (mutate m target_ast to_mutate))%nat ->
       nth_error (mutate (add_operator m op) target_ast to_mutate) i
       = nth_error (mutate m target_ast to_mutate) i.
Proof.
  split; [apply mutate_add_operator |].
  intros i Hi. rewrite mutate_add_operator.
  apply nth_error_app1. exact Hi.
Qed.

Lemma drain_firstn (fuel : nat) :
  forall f, drain fuel f target_ast to_mutate
            = firstn fuel (remaining target_ast to_mutate f).
Proof.
  induction fuel as [| fuel IH]; intros f; [reflexivity |].
  cbn [drain]. pose proof (next_spec target_ast to_mutate f) as Hn.
  destruct (next f target_ast to_mutate) as [[[[op lineno] mutant] f'] |].
  - rewrite Hn. cbn [firstn]. rewrite IH. reflexivity.
  - rewrite Hn. reflexivity.
Qed.

(** X7.  The generator is lazy and resumable: resumed [fuel] times from
    its start it has yielded the first [fuel] triples of the
    enumeration, no more, whatever the consumer does afterwards; and its
    first [next()] signals [StopIteration] exactly when no registered
    operator yields anything for the target. *)
Theorem generator_yields_a_prefix (m : t) (fuel : nat) :
  drain fuel (start m) target_ast to_mutate
  = firstn fuel (mutate m target_ast to_mutate)
  /\ (next (start m) target_ast to_mutate = None
      <-> mutate m target_ast to_mutate = []).
Proof.
  split.
  - rewrite drain_firstn. unfold remaining, start. reflexivity.
  - pose proof (next_spec target_ast to_mutate (start m)) as H.
    change (remaining target_ast to_mutate (start m))
      with (mutate m target_ast to_mutate) in H.
    destruct (next (start m) target_ast to_mutate)
      as [[[[op lineno] mutant] f'] |].
    + rewrite H. split; discriminate.
    + split; auto.
Qed.

End GeneratorMore.

Lemma add_operator_extends_at_the_end_witness :
  let m := register_all [Sample.SDL] in
  (0 < List.length (Mutator.mutate m Sample.original None))%nat
  /\ nth_error (Mutator.mutate (Mutator.add_operator m Sample.AOR)
                               Sample.original None) 0
     = nth_error (Mutator.mutate m Sample.original None) 0.
Proof.
  cbv zeta. split; [cbn; lia |].
  apply (proj2 (add_operator_extends_at_the_end Sample.original None
                  (register_all [Sample.SDL]) Sample.AOR)).
  cbn. lia.
Defined.

(* ================================================================== *)
(** ** Further properties of baseline validation *)

Section BaselineMore.

Variable self : MutationController.

(** [TestSuite.run] against a result that does not stop at a failure
    runs the whole suite; the time it takes is the sum of the tests'. *)
Lemma apply_report_without_failfast
      (t : test_id) (r : TestResult) (p : report) :
  failfast r = false -> shouldStop r = false ->
  failfast (apply_report t r p) = false
  /\ shouldStop (apply_report t r p) = false.
Proof.
  destruct r as [fs es us n st ff]. cbn. intros -> ->.
  destruct p; cbn; split; reflexivity.
Qed.

Lemma run_case_without_failfast
      (t : test_id) (v : verdict) (r : TestResult) :
  failfast r = false -> shouldStop r = false ->
  failfast (run_case t v r) = false /\ shouldStop (run_case t v r) = false.
Proof.
  intros Hff Hstop. unfold run_case.
  assert (H0 : failfast (startTest r) = false
               /\ shouldStop (startTest r) = false)
    by (destruct r; cbn in *; auto).
  revert H0. generalize (startTest r).
  induction v as [| p v IH]; intros r0 [H1 H2]; cbn [fold_left];
    [auto |].
  apply IH. apply apply_report_without_failfast; assumption.
Qed.

Lemma suite_run_without_failfast
      (original : test_id -> Q * verdict) (suite : list test_id) :
  forall (r : TestResult) (spent : Q),
    failfast r = false -> shouldStop r = false ->
    (snd (suite_run original suite r spent)
     == spent + fold_right (fun t acc => fst (original t) + acc) 0 suite)%Q.
Proof.
  induction suite as [| t rest IH]; intros r spent Hff Hstop.
  - cbn. ring.
  - cbn [suite_run]. rewrite Hstop.
    destruct (@run_case_without_failfast t (snd (original t)) r Hff Hstop)
      as (Hff' & Hstop').
    rewrite (IH _ (spent + fst (original t))%Q Hff' Hstop').
    cbn [fold_right]. ring.
Qed.

Lemma original_cost_fold (test_module : TestModule) (suite : list test_id) :
  fold_right (fun t acc => fst (tm_original test_module t) + acc)%Q 0%Q suite
  = original_cost test_module suite.
Proof. induction suite as [| t rest IH]; cbn; congruence. Qed.

(** X9.  [run_test] on one test module.  When the operator does not
    interrupt it, it returns the result of the whole unmodified run
    together with a duration equal to the time the selected tests took,
    the clock has moved on by that much, stdout is enabled again and
    neither the ledger nor a runner thread was touched.  When the
    interrupt arrives during the run, [KeyboardInterrupt] leaves
    [run_test] before [enable_stdout], so a configured suppression
    stays in force. *)
Theorem run_test_measures_the_module
        (test_module : TestModule) (target_test : option string)
        (s : state) :
  let out := run_test self test_module target_test s in
  let spent := original_cost test_module
                 (load_tests test_module target_test) in
  match sigint s with
  | Some O =>
      fst out = Raise KeyboardInterrupt
      /\ stdout_off (snd out) = stdout_manager self || stdout_off s
      /\ score_var (snd out) = score_var s
  | _ =>
      exists duration,
        fst out = Val (baseline_result test_module target_test, duration)
        /\ (duration == spent)%Q
        /\ (now (snd out) == now s + spent)%Q
        /\ stdout_off (snd out) = false
        /\ score_var (snd out) = score_var s
        /\ runner (snd out) = runner s
  end.
Proof.
  cbv zeta. destruct s as [off sv lg nw sg rn]. cbn [sigint].
  pose proof (@suite_run_without_failfast (tm_original test_module)
                (load_tests test_module target_test) new_TestResult 0%Q
                eq_refl eq_refl) as Ht.
  rewrite original_cost_fold in Ht.
  unfold run_test, baseline_result.
  destruct sg as [[| n] |];
    destruct (stdout_manager self) eqn:Eflag;
    autounfold with py; rewrite ?Eflag; cbn -[Qred Qplus Qminus];
    try (repeat split; reflexivity);
    (eexists; split; [reflexivity |]);
    rewrite !Qred_correct, Ht; repeat split; ring.
Qed.

(** Test modules that pass unmodified are validated in the order the
    loader yields them, each with the restriction it came with. *)
Lemma baseline_loop_validates
      (items : list (TestModule * option string)) :
  forall (validated : list (TestModule * option string * Q)) (s : state),
    interrupt_after (List.length items) (sigint s) ->
    Forall (fun x => wasSuccessful (baseline_result (fst x) (snd x)) = true)
           items ->
    let out := for_fold items validated (check_test self) s in
    exists validated',
      fst out = Val validated'
      /\ map fst validated' = map fst validated ++ items
      /\ log (snd out)
         = log s ++ map (fun x => BaselineRun (tm_name (fst x))) items
      /\ score_var (snd out) = score_var s
      /\ runner (snd out) = runner s.
Proof.
  induction items as [| item rest IH]; intros validated s Hi Hok.
  - exists validated. cbn. rewrite !app_nil_r. repeat split; auto.
  - inversion Hok as [| ? ? Hitem Hrest]; subst.
    cbn [List.length] in Hi.
    destruct (interrupt_after_step _ _ Hi) as [Hnow Hlater].
    cbv zeta. rewrite for_fold_cons, check_test_unfold.
    destruct (@run_test_quiet self (fst item) (snd item) s Hnow)
      as (d & Hv & Hl & Hi' & Hsc & Hrn & _).
    destruct (run_test self (fst item) (snd item) s) as [r s1].
    cbn [fst snd] in *. subst r. cbn [fst snd]. rewrite Hitem.
    rewrite <- Hi' in Hlater.
    destruct (IH (validated ++ [(fst item, snd item, d)]) s1 Hlater Hrest)
      as (v' & Hv' & Hm' & Hl' & Hsc' & Hrn').
    exists v'. split; [exact Hv' |]. split.
    { rewrite Hm', map_app, <- app_assoc. cbn [map fst app].
      rewrite <- surjective_pairing. reflexivity. }
    split.
    { rewrite Hl', Hl, <- app_assoc. reflexivity. }
    split; congruence.
Qed.

Lemma load_and_check_tests_passing
      (items : list (TestModule * option string)) (finish : option exn)
      (s : state) :
  load (test_loader self) = mkGen items finish ->
  interrupt_after (List.length items) (sigint s) ->
  Forall (fun x => wasSuccessful (baseline_result (fst x) (snd x)) = true)
         items ->
  let out := load_and_check_tests self s in
  exists validated,
    map fst validated = items
    /\ fst out = match finish with
                 | None => Val validated
                 | Some e => Raise e
                 end
    /\ log (snd out)
       = log s ++ map (fun x => BaselineRun (tm_name (fst x))) items
    /\ score_var (snd out) = score_var s
    /\ runner (snd out) = runner s.
Proof.
  intros Hload Hi Hok. cbv zeta.
  unfold load_and_check_tests, for_gen_fold. rewrite Hload.
  cbn [yielded ending]. unfold bind.
  destruct (@baseline_loop_validates items [] s Hi Hok)
    as (v & Hv & Hm & Hl & Hsc & Hrn).
  destruct (for_fold items [] (check_test self) s) as [r s1].
  cbn [fst snd] in *. subst r. exists v.
  destruct finish as [e |]; cbn [raise ret fst snd]; repeat split; auto.
Qed.

(** X10.  [load_and_check_tests], every test module passing unmodified
    and no interrupt arriving: the loader's modules are run one by one
    in the order it yields them and returned in that order, each with
    the restriction it came with; when the loader itself ends with an
    exception after yielding them, that exception leaves
    [load_and_check_tests] after the modules were run. *)
Theorem load_and_check_tests_keeps_order
        (items : list (TestModule * option string)) (finish : option exn)
        (s : state) :
  load (test_loader self) = mkGen items finish ->
  interrupt_after (List.length items) (sigint s) ->
  Forall (fun x => wasSuccessful (baseline_result (fst x) (snd x)) = true)
         items ->
  let out := load_and_check_tests self s in
  match finish with
  | None => exists validated,
              fst out = Val validated /\ map fst validated = items
  | Some e => fst out = Raise e
  end
  /\ new_events s (snd out)
     = map (fun x => BaselineRun (tm_name (fst x))) items
  /\ score_var (snd out) = score_var s.
Proof.
  intros Hload Hi Hok.
  destruct (@load_and_check_tests_passing items finish s Hload Hi Hok)
    as (v & Hm & Hv & Hl & Hsc & _).
  cbv zeta. rewrite (@new_events_app s _ _ Hl), Hv.
  destruct finish as [e |]; repeat split; auto.
  exists v. auto.
Qed.

(** X11.  When the test loader cannot load a module
    ([ModulesLoaderException]) after the modules it did yield passed
    unmodified, [run] completes by telling the sink [cant_load] with the
    name the exception carries; no mutation is announced, no runner
    thread is started and no ledger is created, whatever the targets
    and operators are. *)
Theorem test_load_error_is_reported
        (items : list (TestModule * option string)) (name : string)
        (s : state) :
  load (test_loader self)
  = mkGen items (Some (ModulesLoaderException name)) ->
  interrupt_after (List.length items) (sigint s) ->
  Forall (fun x => wasSuccessful (baseline_result (fst x) (snd x)) = true)
         items ->
  let out := run self s in
  fst out = Val tt
  /\ new_events s (snd out)
     = Notify (NInitialize (names (target_loader self))
                           (names (test_loader self)))
       :: map (fun x => BaselineRun (tm_name (fst x))) items
       ++ [Notify (NCantLoad name)]
  /\ score_var (snd out) = None.
Proof.
  intros Hload Hi Hok out.
  assert (Hgoal :
    fst out = Val tt
    /\ log (snd out)
       = log s
         ++ Notify (NInitialize (names (target_loader self))
                                (names (test_loader self)))
         :: map (fun x => BaselineRun (tm_name (fst x))) items
         ++ [Notify (NCantLoad name)]
    /\ score_var (snd out) = None).
  { subst out. destruct s as [off sv lg nw sg rn]. cbn [sigint] in Hi.
    pose proof (@load_and_check_tests_passing items
                  (Some (ModulesLoaderException name))
                  (mkState off None
                     (lg ++ [Notify (NInitialize
                                       (names (target_loader self))
                                       (names (test_loader self)))])
                     nw sg rn)
                  Hload Hi Hok) as H.
    cbv zeta in H. destruct H as (v & _ & Hv & Hl & Hsc & _).
    unfold run, run_mutation, run_mutation_try. autounfold with py.
    cbn -[load_and_check_tests].
    destruct (load_and_check_tests self _) as [r s3].
    cbn in *. subst r. cbn. rewrite Hl, Hsc, <- !app_assoc. cbn.
    repeat split. }
  destruct Hgoal as (Hv & Hl & Hsc).
  rewrite (@new_events_app s (snd out) _ Hl). repeat split; auto.
Qed.

End BaselineMore.

(* ================================================================== *)
(** ** What the controller writes to the log *)

Section Emits.

Variable A B : Type.
Variable P : event -> bool.

Lemma emits_keep (m : M A) :
  (forall s, log (snd (m s)) = log s) -> emits P m.
Proof.
  intros H s. exists []. rewrite app_nil_r. split; [apply H | reflexivity].
Qed.

Lemma emits_weaken (P' : event -> bool) (m : M A) :
  (forall e, P' e = true -> P e = true) -> emits P' m -> emits P m.
Proof.
  intros Himp Hm s. destruct (Hm s) as (new & Hl & Hp).
  exists new. split; [exact Hl |].
  rewrite forallb_forall in *. auto.
Qed.

Lemma emits_emit (e : event) : P e = true -> emits P (emit e).
Proof.
  intros H s. exists [e]. cbn. rewrite H. split; reflexivity.
Qed.

Lemma emits_bind (m : M A) (k : A -> M B) :
  emits P m -> (forall a, emits P (k a)) -> emits P (bind m k).
Proof.
  intros Hm Hk s. unfold bind. destruct (Hm s) as (new1 & Hl1 & Hp1).
  destruct (m s) as [[a | e] s1]; cbn [snd] in *.
  - destruct (Hk a s1) as (new2 & Hl2 & Hp2).
    exists (new1 ++ new2). rewrite Hl2, Hl1, app_assoc, forallb_app, Hp1, Hp2.
    split; reflexivity.
  - exists new1. split; assumption.
Qed.

Lemma emits_try_except (body : M A) (handler : exn -> option (M A)) :
  emits P body ->
  (forall e h, handler e = Some h -> emits P h) ->
  emits P (try_except body handler).
Proof.
  intros Hm Hh s. unfold try_except. destruct (Hm s) as (new1 & Hl1 & Hp1).
  destruct (body s) as [[a | e] s1]; cbn [snd] in *.
  - exists new1. split; assumption.
  - destruct (handler e) as [h |] eqn:Eh.
    + destruct (Hh e h Eh s1) as (new2 & Hl2 & Hp2).
      exists (new1 ++ new2).
      rewrite Hl2, Hl1, app_assoc, forallb_app, Hp1, Hp2.
      split; reflexivity.
    + exists new1. split; assumption.
Qed.

End Emits.

Section EmitsLoops.

Variable A B : Type.
Variable P : event -> bool.

Lemma emits_for_fold (xs : list A) (body : B -> A -> M B) :
  (forall acc x, emits P (body acc x)) ->
  forall acc, emits P (for_fold xs acc body).
Proof.
  intros Hb. induction xs as [| x xs IH]; intros acc; cbn [for_fold].
  - apply emits_keep. reflexivity.
  - apply emits_bind; [apply Hb | exact IH].
Qed.

Lemma emits_for_gen_fold (g : Gen A) (body : B -> A -> M B) (acc : B) :
  (forall acc x, emits P (body acc x)) ->
  emits P (for_gen_fold g acc body).
Proof.
  intros Hb. unfold for_gen_fold.
  apply emits_bind; [apply emits_for_fold; exact Hb |].
  intros acc'. apply emits_keep. intros s.
  destruct (ending g); reflexivity.
Qed.

End EmitsLoops.

(** A statement that leaves the log alone. *)
Ltac emits_quiet :=
  apply emits_keep;
  let s := fresh "s" in
  intros s; destruct s as [? [?|] ? ? [[| ?] |] [| ? | ? | ?]];
  autounfold with py; cbn;
  repeat match goal with
         | |- context [if ?b then _ else _] => destruct b; cbn
         end;
  reflexivity.

Ltac emits_go :=
  repeat first
    [ apply emits_bind; [| intros ?]
    | apply emits_emit; reflexivity
    | emits_quiet ].

Section Protocol.

Import MutationScore.

Variable self : MutationController.

Lemma run_test_emits (test_module : TestModule)
      (target_test : option string) :
  emits is_baseline_run (run_test self test_module target_test).
Proof. unfold run_test. cbv zeta. emits_go. Qed.

Lemma load_and_check_tests_emits :
  emits is_baseline_run (load_and_check_tests self).
Proof.
  unfold load_and_check_tests. apply emits_for_gen_fold.
  intros acc x. unfold check_test. cbv zeta.
  apply emits_bind; [apply run_test_emits |].
  intros ran. destruct (wasSuccessful (fst ran)); emits_quiet.
Qed.

Lemma create_mutant_module_emits
      (target_module : TargetModule) (mutant_ast : Ast) :
  emits is_evaluation_event
        (create_mutant_module self target_module mutant_ast).
Proof.
  unfold create_mutant_module. apply emits_try_except.
  - unfold py_compile, py_exec.
    apply emits_bind;
      [apply emits_bind;
         [emits_quiet | intros ?; destruct (ast_compile mutant_ast);
                        emits_quiet] |].
    intros code. cbv zeta.
    apply emits_bind; [emits_quiet | intros ?].
    apply emits_bind;
      [apply emits_bind;
         [emits_quiet | intros ?; destruct (ast_exec code); emits_quiet] |].
    intros ?. emits_go.
  - intros e h. destruct (is_Exception e); [| discriminate].
    intros Eh. injection Eh as <-. unfold notify. emits_go.
Qed.

Lemma append_score_emits (result : CustomTestResult) (d : Q) :
  emits is_evaluation_event
        (append_score_and_notify_views self result d).
Proof.
  unfold append_score_and_notify_views.
  apply emits_bind; [emits_quiet |]. intros alive.
  assert (Hkill : emits is_evaluation_event kill).
  { intros s. unfold kill. destruct (runner s) as [| tree | tree | tree];
      cbn; try (exists []; rewrite app_nil_r; split; reflexivity).
    exists [ThreadKill tree]. split; reflexivity. }
  assert (Hinc : forall f, emits is_evaluation_event (on_score f)).
  { intros f. emits_quiet. }
  unfold notify.
  destruct alive.
  - apply emits_bind; [exact Hkill | intros ?].
    apply emits_bind; [apply emits_emit; reflexivity | intros ?].
    apply Hinc.
  - destruct (type_error result) as [err |].
    + apply emits_bind; [apply emits_emit; reflexivity | intros ?].
      apply Hinc.
    + destruct (wasSuccessful (base result)).
      * apply emits_bind; [apply emits_emit; reflexivity | intros ?].
        apply Hinc.
      * apply emits_bind.
        { destruct (failures (base result));
            [destruct (errors (base result)) |]; emits_quiet. }
        intros found.
        apply emits_bind; [apply emits_emit; reflexivity | intros ?].
        apply Hinc.
Qed.

Lemma run_tests_with_mutant_emits
      (tms : list (TestModule * option string * Q)) (m : Module) :
  emits is_evaluation_event (run_tests_with_mutant self tms m).
Proof.
  unfold run_tests_with_mutant, run_mutation_thread, thread_start.
  cbv zeta.
  apply emits_bind; [emits_quiet | intros ?].
  apply emits_bind; [emits_go | intros ?].
  apply emits_bind; [emits_quiet | intros ?].
  apply append_score_emits.
Qed.

(** What follows the announcement in one turn of the loop. *)
Lemma evaluation_emits
      (target_module : TargetModule)
      (tms : list (TestModule * option string * Q)) (mutant_ast : Ast) :
  emits is_evaluation_event
        (mutant_module <- create_mutant_module self target_module
                                               mutant_ast ;;
         match mutant_module with
         | Some m => run_tests_with_mutant self tms m
         | None => on_score MutationScore.inc_incompetent
         end).
Proof.
  apply emits_bind; [apply create_mutant_module_emits | intros mm].
  destruct mm as [m |]; [apply run_tests_with_mutant_emits | emits_quiet].
Qed.

Lemma loop_event_of_evaluation (e : event) :
  is_evaluation_event e = true -> is_loop_event e = true.
Proof. unfold is_loop_event. intros ->. apply orb_true_r. Qed.

Lemma evaluate_mutant_emits
      (target_module : TargetModule) (filename : string)
      (tms : list (TestModule * option string * Q))
      (item : Mutator.Operator * nat * Ast) :
  emits is_loop_event
        (evaluate_mutant self target_module filename tms item).
Proof.
  unfold evaluate_mutant. cbv zeta.
  apply emits_bind; [emits_quiet | intros score].
  apply emits_bind; [apply emits_emit; reflexivity | intros ?].
  apply emits_weaken with (P' := is_evaluation_event);
    [exact loop_event_of_evaluation | apply evaluation_emits].
Qed.

Lemma mutate_module_emits
      (target_module : TargetModule) (to_mutate : option string)
      (tms : list (TestModule * option string * Q)) :
  emits is_loop_event (mutate_module self target_module to_mutate tms).
Proof.
  unfold mutate_module, create_target_ast. cbv zeta.
  apply emits_bind.
  - apply emits_bind; [emits_quiet | intros ?].
    destruct (tgt_parse target_module); emits_quiet.
  - intros tree. unfold for_each. apply emits_for_fold.
    intros ? item. apply evaluate_mutant_emits.
Qed.


(** *** Mutation numbers *)

Lemma mutation_numbers_app (l1 l2 : list event) :
  mutation_numbers (l1 ++ l2) = mutation_numbers l1 ++ mutation_numbers l2.
Proof.
  induction l1 as [| e l1 IH]; [reflexivity |].
  destruct e as [[] | | |]; cbn [app mutation_numbers]; rewrite IH;
    reflexivity.
Qed.

Lemma mutation_numbers_evaluation (l : list event) :
  forallb is_evaluation_event l = true -> mutation_numbers l = [].
Proof.
  induction l as [| e l IH]; [reflexivity |].
  cbn [forallb]. intros H. apply andb_prop in H. destruct H as [He Hl].
  destruct e as [[] | | |]; cbn in He; try discriminate;
    cbn [mutation_numbers]; auto.
Qed.

Lemma mutation_numbers_baseline (l : list event) :
  forallb is_baseline_run l = true -> mutation_numbers l = [].
Proof.
  induction l as [| e l IH]; [reflexivity |].
  cbn [forallb]. intros H. apply andb_prop in H. destruct H as [He Hl].
  destruct e as [[] | | |]; cbn in He; try discriminate;
    cbn [mutation_numbers]; auto.
Qed.

Lemma classified_in_baseline (l : list event) :
  forallb is_baseline_run l = true -> classified_in l = [].
Proof.
  induction l as [| e l IH]; [reflexivity |].
  cbn [forallb]. intros H. apply andb_prop in H. destruct H as [He Hl].
  destruct e as [[] | | |]; cbn in He; try discriminate;
    cbn [classified_in classification]; auto.
Qed.

Lemma bind_read_score {X} (k : t -> M X) (s : state) (sc : t) :
  score_var s = Some sc -> bind read_score k s = k sc s.
Proof. intros H. unfold bind, read_score. rewrite H. reflexivity. Qed.

Lemma bind_notify {X} (n : notification) (k : unit -> M X) (s : state) :
  bind (notify n) k s = k tt (add_event (Notify n) s).
Proof. reflexivity. Qed.

(** One turn of the loop announces the mutation under the number one
    above the mutants counted so far, and only then evaluates it. *)
Lemma evaluate_mutant_number
      (target_module : TargetModule) (filename : string)
      (tms : list (TestModule * option string * Q))
      (item : Mutator.Operator * nat * Ast) (s : state) (sc : t) :
  score_var s = Some sc ->
  let out := evaluate_mutant self target_module filename tms item s in
  exists rest,
    log (snd out)
    = log s
      ++ Notify (NMutation (all_mutants sc + 1)
                           (Mutator.op_name (fst (fst item))) filename
                           (snd (fst item)) (ast_id (snd item))) :: rest
    /\ forallb is_evaluation_event rest = true.
Proof.
  intros Hs. cbv zeta. unfold evaluate_mutant.
  rewrite (bind_read_score _ s Hs), bind_notify.
  match goal with
  | |- context [add_event ?e s] =>
      destruct (evaluation_emits target_module tms (snd item)
                                 (add_event e s)) as (rest & Hl & Hp)
  end.
  exists rest. split; [| exact Hp].
  rewrite Hl. cbn [log add_event]. rewrite <- app_assoc. reflexivity.
Qed.

Lemma mutant_loop_numbers
      (target_module : TargetModule) (filename : string)
      (tms : list (TestModule * option string * Q))
      (items : list (Mutator.Operator * nat * Ast)) :
  forall (s : state) (sc : t),
    score_var s = Some sc ->
    let out := for_each items
                 (evaluate_mutant self target_module filename tms) s in
    exists new n,
      log (snd out) = log s ++ new
      /\ mutation_numbers new = consecutive (all_mutants sc + 1) n
      /\ (is_val (fst out) = true ->
          exists sc', score_var (snd out) = Some sc'
                      /\ all_mutants sc' = all_mutants sc + Z.of_nat n).
Proof.
  induction items as [| item rest IH]; intros s sc Hs.
  - exists [], 0%nat. cbn. rewrite app_nil_r. repeat split.
    intros _. exists sc. split; [exact Hs | lia].
  - cbv zeta. rewrite for_each_cons.
    destruct (@evaluate_mutant_counts self target_module filename tms item
                s sc Hs) as (new0 & _ & _ & Hres).
    destruct (evaluate_mutant_number target_module filename tms item s Hs)
      as (ev & Hl1 & Hp1).
    pose proof (mutation_numbers_evaluation _ Hp1) as Hn1.
    destruct (evaluate_mutant self target_module filename tms item s)
      as [[[] | e] s1]; cbn [fst snd] in *.
    + destruct Hres as (o & _ & Hs1).
      destruct (IH s1 (record o sc) Hs1) as (new2 & n2 & Hl2 & Hn2 & Hv2).
      eexists (_ :: ev ++ new2), (S n2).
      split; [rewrite Hl2, Hl1, <- app_assoc; reflexivity |].
      split.
      * cbn [mutation_numbers consecutive].
        rewrite mutation_numbers_app, Hn1, Hn2, all_mutants_record.
        reflexivity.
      * intros Hval. destruct (Hv2 Hval) as (sc' & Hsc' & Hall).
        exists sc'. split; [exact Hsc' |].
        rewrite Hall, all_mutants_record. lia.
    + eexists (_ :: ev), 1%nat.
      split; [exact Hl1 |]. split.
      * cbn [mutation_numbers consecutive]. rewrite Hn1. reflexivity.
      * cbn. discriminate.
Qed.

(** [create_target_ast] reads and parses the file; it writes nothing. *)
Lemma create_target_ast_effect (target_module : TargetModule) (s : state) :
  let out := create_target_ast self target_module s in
  log (snd out) = log s
  /\ score_var (snd out) = score_var s
  /\ runner (snd out) = runner s
  /\ stdout_off (snd out) = stdout_off s
  /\ match fst out with
     | Val tree =>
         tgt_parse target_module = inr tree /\ sigint s <> Some 0%nat
     | Raise e =>
         (sigint s = Some 0%nat /\ e = KeyboardInterrupt)
         \/ (sigint s <> Some 0%nat /\ tgt_parse target_module = inl e)
     end.
Proof.
  destruct s as [off sv lg nw sg rn]. unfold create_target_ast.
  destruct sg as [[| n] |]; destruct (tgt_parse target_module) as [e | tree];
    autounfold with py; cbn; repeat split; auto;
    try discriminate;
    try (left; split; reflexivity);
    try (right; split; [discriminate | reflexivity]).
Qed.

Lemma mutate_module_unfold
      (target_module : TargetModule) (to_mutate : option string)
      (tms : list (TestModule * option string * Q)) (s : state) :
  mutate_module self target_module to_mutate tms s
  = match create_target_ast self target_module s with
    | (Val tree, s0) =>
        for_each (Mutator.mutate (mutant_generator self) tree to_mutate)
                 (evaluate_mutant self target_module
                                  (basename (tgt_file target_module)) tms)
                 s0
    | (Raise e, s0) => (Raise e, s0)
    end.
Proof. reflexivity. Qed.

Lemma mutate_module_numbers
      (target_module : TargetModule) (to_mutate : option string)
      (tms : list (TestModule * option string * Q))
      (s : state) (sc : t) :
  score_var s = Some sc ->
  let out := mutate_module self target_module to_mutate tms s in
  exists new n,
    log (snd out) = log s ++ new
    /\ mutation_numbers new = consecutive (all_mutants sc + 1) n
    /\ (is_val (fst out) = true ->
        exists sc', score_var (snd out) = Some sc'
                    /\ all_mutants sc' = all_mutants sc + Z.of_nat n).
Proof.
  intros Hs. cbv zeta. rewrite mutate_module_unfold.
  destruct (create_target_ast_effect target_module s)
    as (Hl0 & Hs0 & _ & _ & _).
  destruct (create_target_ast self target_module s) as [[tree | e] s0];
    cbn [fst snd] in *.
  - rewrite Hs in Hs0.
    destruct (mutant_loop_numbers target_module
                (basename (tgt_file target_module)) tms
                (Mutator.mutate (mutant_generator self) tree to_mutate)
                s0 Hs0) as (new & n & Hl & Hn & Hv).
    exists new, n. rewrite <- Hl0. auto.
  - exists [], 0%nat. rewrite app_nil_r. cbn. repeat split; auto.
    discriminate.
Qed.

Lemma consecutive_app (first : Z) (n m : nat) :
  consecutive first (n + m)
  = consecutive first n ++ consecutive (first + Z.of_nat n) m.
Proof.
  revert first. induction n as [| n IH]; intros first.
  - cbn. rewrite Z.add_0_r. reflexivity.
  - cbn [Nat.add consecutive app]. rewrite IH.
    replace (first + 1 + Z.of_nat n) with (first + Z.of_nat (S n)) by lia.
    reflexivity.
Qed.

Lemma target_loop_numbers
      (tms : list (TestModule * option string * Q))
      (targets : list (TargetModule * option string)) :
  forall (s : state) (sc : t),
    score_var s = Some sc ->
    let out := for_each targets
                 (fun item => mutate_module self (fst item) (snd item) tms)
                 s in
    exists new n,
      log (snd out) = log s ++ new
      /\ mutation_numbers new = consecutive (all_mutants sc + 1) n.
Proof.
  induction targets as [| target rest IH]; intros s sc Hs.
  - exists [], 0%nat. cbn. rewrite app_nil_r. auto.
  - cbv zeta. rewrite for_each_cons.
    destruct (mutate_module_numbers (fst target) (snd target) tms s Hs)
      as (new1 & n1 & Hl1 & Hn1 & Hv1).
    destruct (mutate_module self (fst target) (snd target) tms s)
      as [[[] | e] s1]; cbn [fst snd] in *.
    + destruct (Hv1 eq_refl) as (sc' & Hs1 & Hall).
      destruct (IH s1 sc' Hs1) as (new2 & n2 & Hl2 & Hn2).
      exists (new1 ++ new2), (n1 + n2)%nat.
      split; [rewrite Hl2, Hl1, app_assoc; reflexivity |].
      rewrite mutation_numbers_app, Hn1, Hn2, consecutive_app, Hall.
      f_equal. f_equal. lia.
    + exists new1, n1. auto.
Qed.


(** *** The phases of a run *)

Lemma target_loop_emits
      (tms : list (TestModule * option string * Q))
      (targets : list (TargetModule * option string)) :
  emits is_loop_event
        (for_fold targets tt
           (fun _ item => mutate_module self (fst item) (snd item) tms)).
Proof.
  apply emits_for_fold. intros ? item. apply mutate_module_emits.
Qed.

Lemma run_test_keeps_score (test_module : TestModule)
      (target_test : option string) (s : state) :
  score_var (snd (run_test self test_module target_test s)) = score_var s.
Proof.
  destruct s as [off sv lg nw sg rn]. unfold run_test.
  destruct sg as [[| n] |]; destruct (stdout_manager self) eqn:Eflag;
    autounfold with py; rewrite ?Eflag; cbn; reflexivity.
Qed.

Lemma load_and_check_tests_keeps_score (s : state) :
  score_var (snd (load_and_check_tests self s)) = score_var s.
Proof.
  unfold load_and_check_tests, for_gen_fold, bind.
  assert (H : forall items acc s0,
             score_var (snd (for_fold items acc (check_test self) s0))
             = score_var s0).
  { induction items as [| item rest IH]; intros acc s0; [reflexivity |].
    rewrite for_fold_cons, check_test_unfold.
    pose proof (run_test_keeps_score (fst item) (snd item) s0) as Hk.
    destruct (run_test self (fst item) (snd item) s0) as [[ran | e] s1];
      cbn [snd] in Hk; [| exact Hk].
    destruct (wasSuccessful (fst ran)); [| exact Hk].
    rewrite IH. exact Hk. }
  specialize (H (yielded (load (test_loader self))) [] s).
  destruct (for_fold (yielded (load (test_loader self))) []
                     (check_test self) s) as [[v | e] s1];
    cbn [snd] in *; [| exact H].
  destruct (ending (load (test_loader self))); exact H.
Qed.

(** What [run_mutation] writes and returns: the baseline runs; then,
    only when validation completed, [passed], [start] and the events of
    the mutation loop, the mutations numbered from 1 on; and a returned
    ledger is the tally of the classifications announced. *)
Lemma run_mutation_shape (s : state) :
  let out := run_mutation self s in
  exists base rest,
    log (snd out) = log s ++ base ++ rest
    /\ forallb is_baseline_run base = true
    /\ (rest = []
        \/ exists v loop n,
             rest = Notify (NPassed v) :: Notify NStart :: loop
             /\ forallb is_loop_event loop = true
             /\ mutation_numbers loop = consecutive 1 n)
    /\ match fst out with
       | Val sc => sc = record_all (classified_in rest) init
       | Raise e => e <> KeyboardInterrupt
       end.
Proof.
  cbv zeta.
  destruct (load_and_check_tests_emits (set_score_var None s))
    as (base & Hlb & Hpb).
  destruct (load_and_check_tests self (set_score_var None s))
    as [[tms | e] s1] eqn:Hload; cbn [snd] in Hlb.
  - destruct (run_mutation self s) as [r s'] eqn:Hout. cbn [fst snd].
    unfold run_mutation, run_mutation_try, for_gen, for_gen_fold,
      fresh_frame, try_except, bind in Hout.
    rewrite Hload in Hout. unfold bind_score, notify, emit in Hout.
    match type of Hout with
    | context [for_fold ?xs tt ?body ?s0] =>
        destruct (@target_loop_counts self tms xs s0 init eq_refl)
          as (new & Hl & Hsc);
        destruct (@target_loop_numbers tms xs s0 init eq_refl)
          as (new' & n & Hl' & Hn);
        destruct (target_loop_emits tms xs s0) as (loop & Hll & Hpl);
        unfold for_each in Hl, Hsc, Hl'; cbv zeta in Hl, Hsc, Hl';
        destruct (for_fold xs tt body s0) as [[[] | e] s2]
    end; cbn [fst snd] in *;
      rewrite Hl in Hl', Hll;
      apply app_inv_head in Hl'; apply app_inv_head in Hll;
      subst new' loop;
      cbn [log add_event set_score_var] in Hl;
      rewrite <- !app_assoc in Hl; cbn [app] in Hl; rewrite Hlb in Hl;
      cbn [log set_score_var] in Hl; rewrite <- app_assoc in Hl;
      [ destruct (ending (load (target_loader self))) as [e |];
        [ destruct e |] | destruct e ];
      unfold raise, ret, read_score in Hout; rewrite ?Hsc in Hout;
      inversion Hout; subst;
      (exists base; eexists; split; [exact Hl |]; split; [exact Hpb |];
       split; [right; exists (passed_view tms), new, n; auto |];
       cbn [classified_in classification]; solve [reflexivity | discriminate]).
  - destruct (run_mutation self s) as [r s'] eqn:Hout. cbn [fst snd].
    unfold run_mutation, run_mutation_try, fresh_frame, try_except, bind
      in Hout.
    rewrite Hload in Hout.
    assert (Hnone : score_var s1 = None).
    { pose proof (load_and_check_tests_keeps_score (set_score_var None s))
        as Hk.
      rewrite Hload in Hk. exact Hk. }
    exists base, []. rewrite app_nil_r.
    destruct e; unfold ret, read_score in Hout; rewrite ?Hnone in Hout;
      inversion Hout; subst; cbn [log set_score_var] in Hlb;
      repeat split; auto; discriminate.
Qed.


Lemma run_unfold (s : state) :
  let s0 := add_event (Notify (NInitialize (names (target_loader self))
                                           (names (test_loader self)))) s in
  run self s
  = match run_mutation self s0 with
    | (Val sc, s') =>
        (Val tt, add_event (Notify (NEnd sc (Qred (now s' - now s0)))) s')
    | (Raise (TestsFailAtOriginal result), s') =>
        (Val tt, add_event (Notify (NOriginalTestsFail result)) s')
    | (Raise (ModulesLoaderException name), s') =>
        (Val tt, add_event (Notify (NCantLoad name)) s')
    | (Raise e, s') => (Raise e, s')
    end.
Proof.
  cbv zeta. unfold run. rewrite bind_notify.
  unfold try_except, bind, TimeRegister, TimeRegister_stop, notify, emit.
  destruct (run_mutation self _) as [[sc | e] s']; [reflexivity |].
  destruct e; reflexivity.
Qed.

(** What [run] writes and returns: [initialize], what [run_mutation]
    wrote, and one closing notification exactly when [run] completes. *)
Lemma run_shape (s : state) :
  let out := run self s in
  exists base rest fin,
    log (snd out)
    = log s
      ++ Notify (NInitialize (names (target_loader self))
                             (names (test_loader self)))
      :: base ++ rest ++ fin
    /\ forallb is_baseline_run base = true
    /\ (rest = []
        \/ exists v loop n,
             rest = Notify (NPassed v) :: Notify NStart :: loop
             /\ forallb is_loop_event loop = true
             /\ mutation_numbers loop = consecutive 1 n)
    /\ match fst out with
       | Val _ =>
           exists note,
             fin = [Notify note] /\ is_closing note = true
             /\ forall sc d,
                  note = NEnd sc d
                  -> sc = record_all (classified_in rest) init
       | Raise e =>
           fin = []
           /\ match e with
              | KeyboardInterrupt => False
              | TestsFailAtOriginal _ => False
              | ModulesLoaderException _ => False
              | _ => True
              end
       end.
Proof.
  cbv zeta. pose proof (run_unfold s) as Hrun. cbv zeta in Hrun.
  rewrite Hrun. clear Hrun.
  match goal with
  | |- context [run_mutation self ?s0] =>
      destruct (run_mutation_shape s0) as (base & rest & Hl & Hpb & Hrest
                                           & Hres);
      destruct (run_mutation self s0) as [[sc | e] s']
  end; cbn [fst snd log add_event] in *;
    rewrite <- app_assoc in Hl; cbn [app] in Hl.
  - exists base, rest. eexists. rewrite Hl, <- !app_assoc. cbn [app].
    rewrite <- !app_assoc.
    split; [reflexivity |]. split; [exact Hpb |]. split; [exact Hrest |].
    eexists. split; [reflexivity |]. split; [reflexivity |].
    intros sc' d' E. inversion E; subst. reflexivity.
  - assert (Hraise : forall e0 : exn,
               match e0 with
               | KeyboardInterrupt => False
               | TestsFailAtOriginal _ => False
               | ModulesLoaderException _ => False
               | _ => True
               end ->
               exists fin,
                 log s' = log s
                   ++ Notify (NInitialize (names (target_loader self))
                                          (names (test_loader self)))
                   :: base ++ rest ++ fin
                 /\ fin = []).
    { intros _ _. exists []. rewrite app_nil_r. split; [exact Hl | reflexivity]. }
    assert (Hclose : forall note s2,
               is_closing note = true ->
               (forall sc d, note <> NEnd sc d) ->
               log s2 = log s' ++ [Notify note] ->
               exists fin,
                 log s2 = log s
                   ++ Notify (NInitialize (names (target_loader self))
                                          (names (test_loader self)))
                   :: base ++ rest ++ fin
                 /\ exists note0,
                      fin = [Notify note0] /\ is_closing note0 = true
                      /\ forall sc d,
                           note0 = NEnd sc d
                           -> sc = record_all (classified_in rest) init).
    { intros note s2 Hc Hne Hl2. exists [Notify note]. split.
      - rewrite Hl2, Hl, <- !app_assoc. cbn [app]. rewrite <- !app_assoc.
        reflexivity.
      - exists note. repeat split; auto.
        intros sc d E. destruct (Hne sc d E). }
    destruct e; cbn [fst snd];
      try (exfalso; apply Hres; reflexivity);
      match goal with
      | |- context [add_event (Notify ?note) s'] =>
          destruct (@Hclose note (add_event (Notify note) s') eq_refl)
            as (fin & Hfin & Hnote);
          [ intros sc d E; discriminate E | reflexivity |];
          exists base, rest, fin; repeat split; auto
      | |- _ =>
          destruct (Hraise SystemExit I) as (fin & Hfin & ->);
          exists base, rest, []; repeat split; auto
      end.
Qed.


Lemma forallb_weaken (P Q : event -> bool) (l : list event) :
  (forall e, P e = true -> Q e = true) ->
  forallb P l = true -> forallb Q l = true.
Proof.
  intros H. rewrite !forallb_forall. auto.
Qed.

Lemma baseline_run_is_inner (e : event) :
  is_baseline_run e = true -> negb (is_run_notice e) = true.
Proof. destruct e as [[] | | |]; cbn; congruence. Qed.

Lemma loop_event_is_inner (e : event) :
  is_loop_event e = true -> negb (is_run_notice e) = true.
Proof. destruct e as [[] | | |]; cbn; congruence. Qed.

Lemma loop_phase_is_inner (rest : list event) :
  (rest = []
   \/ exists v loop (n : nat),
        rest = Notify (NPassed v) :: Notify NStart :: loop
        /\ forallb is_loop_event loop = true
        /\ mutation_numbers loop = consecutive 1 n) ->
  forallb (fun e => negb (is_run_notice e)) rest = true
  /\ exists n, mutation_numbers rest = consecutive 1 n.
Proof.
  intros [-> | (v & loop & n & -> & Hp & Hn)].
  - split; [reflexivity | exists 0%nat; reflexivity].
  - split; [| exists n; exact Hn].
    cbn [forallb is_run_notice is_closing negb andb].
    exact (@forallb_weaken _ _ _ loop_event_is_inner Hp).
Qed.

(** X12.  The phases of [run_mutation] when no interrupt is delivered
    during it, whatever loaders and operators it meets: it first runs
    test modules unmodified and writes nothing else meanwhile; [passed]
    and then [start] are announced at most once, after the last baseline
    run and before the first mutation; everything after [start] is an
    event of the mutation loop; an exception that leaves [run_mutation]
    is not [KeyboardInterrupt]; and a ledger it returns is
    [MutationScore()] with the classifications announced recorded one by
    one. *)
Theorem run_mutation_phases (s : state) :
  sigint s = None ->
  let out := run_mutation self s in
  exists base rest,
    new_events s (snd out) = base ++ rest
    /\ forallb is_baseline_run base = true
    /\ (rest = []
        \/ exists v loop,
             rest = Notify (NPassed v) :: Notify NStart :: loop
             /\ forallb is_loop_event loop = true)
    /\ match fst out with
       | Val sc => sc = record_all (classified_in rest) init
       | Raise e => e <> KeyboardInterrupt
       end.
Proof.
  intros _. cbv zeta.
  destruct (run_mutation_shape s) as (base & rest & Hl & Hpb & Hrest & Hres).
  exists base, rest. rewrite (@new_events_app s _ _ Hl).
  repeat split; auto.
  destruct Hrest as [-> | (v & loop & n & -> & Hp & _)]; [left; auto |].
  right. exists v, loop. auto.
Qed.

(** X13.  The notifications of [run] itself when no interrupt is
    delivered during it: [initialize] is the first thing a run writes
    and is sent once; when [run] completes, exactly one closing
    notification ([end], [original_tests_fail] or [cant_load]) was sent
    and it is the last thing written; when [run] is left by an
    exception, none was sent, and that exception is neither
    [KeyboardInterrupt] nor [TestsFailAtOriginal] nor
    [ModulesLoaderException]. *)
Theorem run_closes_with_one_notice (s : state) :
  sigint s = None ->
  let out := run self s in
  exists inner,
    forallb (fun e => negb (is_run_notice e)) inner = true
    /\ match fst out with
       | Val _ =>
           exists note,
             new_events s (snd out)
             = Notify (NInitialize (names (target_loader self))
                                   (names (test_loader self)))
               :: inner ++ [Notify note]
             /\ is_closing note = true
       | Raise e =>
           new_events s (snd out)
           = Notify (NInitialize (names (target_loader self))
                                 (names (test_loader self))) :: inner
           /\ match e with
              | KeyboardInterrupt => False
              | TestsFailAtOriginal _ => False
              | ModulesLoaderException _ => False
              | _ => True
              end
       end.
Proof.
  intros _. cbv zeta.
  destruct (run_shape s) as (base & rest & fin & Hl & Hpb & Hrest & Hres).
  destruct (loop_phase_is_inner Hrest) as (Hpr & _).
  exists (base ++ rest). split.
  { rewrite forallb_app, Hpr.
    rewrite (@forallb_weaken _ _ _ baseline_run_is_inner Hpb). reflexivity. }
  rewrite (@new_events_app s _ _ Hl).
  destruct (fst (run self s)) as [u | e].
  - destruct Hres as (note & -> & Hc & _). exists note.
    rewrite <- app_assoc. auto.
  - destruct Hres as (-> & He). rewrite app_nil_r. auto.
Qed.

(** Only [run] sends [end], last, with the ledger [run_mutation]
    returned. *)
Lemma end_notice_is_tally (s : state) (sc : t) (d : Q) :
  let out := run self s in
  In (Notify (NEnd sc d)) (new_events s (snd out)) ->
  sc = record_all (classified_in (new_events s (snd out))) init
  /\ all_mutants sc
     = Z.of_nat (List.length (classified_in (new_events s (snd out))))
  /\ fst out = Val tt.
Proof.
  cbv zeta.
  destruct (run_shape s) as (base & rest & fin & Hl & Hpb & Hrest & Hres).
  destruct (loop_phase_is_inner Hrest) as (Hpr & _).
  rewrite (@new_events_app s _ _ Hl). intros Hin.
  assert (Hinner : forall l,
             forallb (fun e => negb (is_run_notice e)) l = true ->
             ~ In (Notify (NEnd sc d)) l).
  { intros l Hp Hi. rewrite forallb_forall in Hp.
    specialize (Hp _ Hi). discriminate Hp. }
  destruct Hin as [E | Hin]; [discriminate E |].
  apply in_app_or in Hin. destruct Hin as [Hin | Hin].
  { destruct (Hinner base
                (@forallb_weaken _ _ _ baseline_run_is_inner Hpb) Hin). }
  apply in_app_or in Hin. destruct Hin as [Hin | Hin].
  { destruct (Hinner rest Hpr Hin). }
  destruct (fst (run self s)) as [[] | e].
  - destruct Hres as (note & -> & Hc & Hsc).
    destruct Hin as [E | []]. inversion E; subst note.
    specialize (Hsc sc d eq_refl).
    assert (Hcl : classified_in
                    (Notify (NInitialize (names (target_loader self))
                                         (names (test_loader self)))
                     :: base ++ rest ++ [Notify (NEnd sc d)])
                  = classified_in rest).
    { cbn [classified_in classification].
      rewrite !classified_in_app, (classified_in_baseline _ Hpb).
      cbn. apply app_nil_r. }
    rewrite Hcl. split; [exact Hsc |]. split; [| reflexivity].
    rewrite Hsc, all_mutants_record_all. reflexivity.
  - destruct Hres as (-> & _). destruct Hin.
Qed.

Lemma record_all_nonneg (os : list outcome) :
  forall sc, counters_nonneg sc -> counters_nonneg (record_all os sc).
Proof.
  induction os as [| o os IH]; intros sc H; [exact H |].
  cbn [record_all fold_left]. apply IH.
  destruct H as (Hk & Ht & Hi & Hs).
  destruct o; unfold counters_nonneg; cbn; repeat split; lia.
Qed.

(** X14.  When no interrupt is delivered during [run], a ledger handed
    to the sink with [end] is exactly the tally of the run:
    [MutationScore()] with the classifications the sink was told during
    the run recorded one by one, so the sum of its counters is the
    number of those classifications, and its score in exact arithmetic
    is a percentage between 0 and 100; and [run] has then completed. *)
Theorem end_reports_the_tally (s : state) (sc : t) (d : Q) :
  sigint s = None ->
  let out := run self s in
  In (Notify (NEnd sc d)) (new_events s (snd out)) ->
  sc = record_all (classified_in (new_events s (snd out))) init
  /\ all_mutants sc
     = Z.of_nat (List.length (classified_in (new_events s (snd out))))
  /\ (exists q, count sc = inr q /\ (0 <= q)%Q /\ (q <= 100)%Q)
  /\ fst out = Val tt.
Proof.
  intros _. cbv zeta. intros Hin.
  destruct (end_notice_is_tally s sc d Hin) as (Hsc & Hall & Hval).
  repeat split; auto.
  assert (Hnn : counters_nonneg sc).
  { rewrite Hsc. apply record_all_nonneg.
    unfold counters_nonneg. cbn. lia. }
  destruct (count_scored Hnn) as [[_ E] | [Hb E]]; rewrite E.
  - exists 0%Q. repeat split; discriminate.
  - eexists. split; [reflexivity |].
    destruct Hnn as (Hk & Ht & Hi & Hs).
    apply percent_bounds; lia.
Qed.

(** X15.  Mutations are numbered by the ledger: over a whole run the
    numbers under which mutations are announced are 1, 2, 3, ... in the
    order of the announcements, across targets and operators, whatever
    the outcomes of the mutants before and however the run ends. *)
Theorem mutations_are_numbered_from_one (s : state) :
  exists n,
    mutation_numbers (new_events s (snd (run self s))) = consecutive 1 n.
Proof.
  destruct (run_shape s) as (base & rest & fin & Hl & Hpb & Hrest & Hres).
  destruct (loop_phase_is_inner Hrest) as (_ & n & Hn).
  exists n. rewrite (@new_events_app s _ _ Hl).
  cbn [mutation_numbers]. rewrite !mutation_numbers_app, Hn.
  rewrite (mutation_numbers_baseline _ Hpb). cbn [app].
  destruct (fst (run self s)) as [u | e].
  - destruct Hres as (note & -> & Hc & _).
    destruct note; try discriminate Hc; cbn; apply app_nil_r.
  - destruct Hres as (-> & _). apply app_nil_r.
Qed.

End Protocol.

Lemma run_mutation_phases_witness :
  let self := Sample.controller Sample.passing [Sample.AOR] false in
  let out := run_mutation self (initial_state None) in
  sigint (initial_state None) = None
  /\ exists base rest,
       new_events (initial_state None) (snd out) = base ++ rest
       /\ forallb is_baseline_run base = true
       /\ (rest = []
           \/ exists v loop,
                rest = Notify (NPassed v) :: Notify NStart :: loop
                /\ forallb is_loop_event loop = true)
       /\ match fst out with
          | Val sc =>
              sc = record_all (classified_in rest) MutationScore.init
          | Raise e => e <> KeyboardInterrupt
          end.
Proof.
  cbv zeta. split; [reflexivity |].
  exact (@run_mutation_phases
           (Sample.controller Sample.passing [Sample.AOR] false)
           (initial_state None) eq_refl).
Defined.

Lemma run_closes_with_one_notice_witness :
  let self := Sample.controller Sample.passing [Sample.AOR] false in
  let out := run self (initial_state None) in
  sigint (initial_state None) = None
  /\ exists inner,
       forallb (fun e => negb (is_run_notice e)) inner = true
       /\ match fst out with
          | Val _ =>
              exists note,
                new_events (initial_state None) (snd out)
                = Notify (NInitialize (names (target_loader self))
                                      (names (test_loader self)))
                  :: inner ++ [Notify note]
                /\ is_closing note = true
          | Raise e =>
              new_events (initial_state None) (snd out)
              = Notify (NInitialize (names (target_loader self))
                                    (names (test_loader self))) :: inner
              /\ match e with
                 | KeyboardInterrupt => False
                 | TestsFailAtOriginal _ => False
                 | ModulesLoaderException _ => False
                 | _ => True
                 end
          end.
Proof.
  cbv zeta. split; [reflexivity |].
  exact (@run_closes_with_one_notice
           (Sample.controller Sample.passing [Sample.AOR] false)
           (initial_state None) eq_refl).
Defined.

Lemma end_reports_the_tally_witness :
  let self := Sample.controller Sample.passing [Sample.AOR] false in
  let out := run self (initial_state None) in
  let sc := MutationScore.mk 1 1 0 1 in
  sigint (initial_state None) = None
  /\ In (Notify (NEnd sc (3 # 2)))
        (new_events (initial_state None) (snd out))
  /\ sc = record_all (classified_in
                        (new_events (initial_state None) (snd out)))
                     MutationScore.init
  /\ MutationScore.all_mutants sc
     = Z.of_nat (List.length
                   (classified_in
                      (new_events (initial_state None) (snd out))))
  /\ (exists q, MutationScore.count sc = inr q
                /\ (0 <= q)%Q /\ (q <= 100)%Q)
  /\ fst out = Val tt.
Proof.
  cbv zeta.
  assert (H : In (Notify (NEnd (MutationScore.mk 1 1 0 1) (3 # 2)))
                 (new_events (initial_state None)
                    (snd (run (Sample.controller Sample.passing
                                                 [Sample.AOR] false)
                              (initial_state None))))).
  { vm_compute. repeat first [left; reflexivity | right]. }
  split; [reflexivity |]. split; [exact H |].
  exact (@end_reports_the_tally
           (Sample.controller Sample.passing [Sample.AOR] false)
           (initial_state None) (MutationScore.mk 1 1 0 1) (3 # 2)
           eq_refl H).
Defined.

(* ================================================================== *)
(** ** Further properties of the bounded run *)

Section BoundedRun.

Import MutationScore.

Lemma suite_run_until_more_time
      (live live' : Q) (mutant : test_id -> cost * verdict)
      (suite : list test_id) :
  (live <= live')%Q ->
  forall (r : CustomTestResult) (spent : Q),
    snd (suite_run_until live mutant suite r spent) = true ->
    suite_run_until live' mutant suite r spent
    = suite_run_until live mutant suite r spent.
Proof.
  intros Hle. induction suite as [| t rest IH]; intros r spent;
    cbn [suite_run_until]; [reflexivity |].
  destruct (shouldStop (base r)); [reflexivity |].
  destruct (fst (mutant t)) as [c |]; [| discriminate].
  destruct (Qle_bool (spent + c) live) eqn:E; [| discriminate].
  assert (E' : Qle_bool (spent + c) live' = true).
  { apply Qle_bool_iff. apply Qle_bool_iff in E.
    eapply Qle_trans; eassumption. }
  rewrite E'. apply IH.
Qed.

Lemma live_time_monotone (self1 self2 : MutationController) (total : Q) :
  (timeout_factor self1 <= timeout_factor self2)%Q ->
  (live_time self1 total <= live_time self2 total)%Q.
Proof.
  intros Hf. unfold live_time, Qlt_bool.
  destruct (Qle_bool total 1) eqn:E; cbn [negb]; [apply Qle_refl |].
  assert (Hd : (1 < total)%Q).
  { apply Qnot_le_lt. intros H. apply Qle_bool_iff in H. congruence. }
  apply Qmult_le_compat_r; [exact Hf |]. apply Qlt_le_weak.
  eapply Qlt_trans; [| exact Hd]. reflexivity.
Qed.

(** X17.  A larger [timeout_factor] never turns a finished run into a
    timeout: when the runner finishes within the wait computed with one
    factor, it finishes with the same result after the same time within
    the wait computed with any factor at least as large. *)
Theorem larger_factor_keeps_finished_runs
        (self1 self2 : MutationController) (total : Q)
        (mutant : test_id -> cost * verdict) (suite : list test_id)
        (r : CustomTestResult) :
  (timeout_factor self1 <= timeout_factor self2)%Q ->
  snd (suite_run_until (live_time self1 total) mutant suite r 0%Q) = true ->
  suite_run_until (live_time self2 total) mutant suite r 0%Q
  = suite_run_until (live_time self1 total) mutant suite r 0%Q.
Proof.
  intros Hf Hfin.
  apply suite_run_until_more_time; [apply live_time_monotone; exact Hf |].
  exact Hfin.
Qed.

(** X18.  With a [timeout_factor] of at least 1 the wait is never
    shorter than one time unit and never shorter than the summed
    baseline duration it is computed from. *)
Theorem deadline_covers_the_baseline
        (self : MutationController) (total_duration : Q) :
  (1 <= timeout_factor self)%Q ->
  (1 <= live_time self total_duration)%Q
  /\ (total_duration <= live_time self total_duration)%Q.
Proof.
  intros Hf. unfold live_time, Qlt_bool.
  destruct (Qle_bool total_duration 1) eqn:E; cbn [negb].
  - apply Qle_bool_iff in E. split; [apply Qle_refl | exact E].
  - assert (Hd : (1 < total_duration)%Q).
    { apply Qnot_le_lt. intros H. apply Qle_bool_iff in H. congruence. }
    split; nra.
Qed.



End BoundedRun.

Lemma larger_factor_keeps_finished_runs_witness :
  let self1 := Sample.controller Sample.passing [Sample.AOR] false in
  let self2 :=
    mkController (target_loader self1) (test_loader self1)
                 (mutant_generator self1) 10%Q false in
  (timeout_factor self1 <= timeout_factor self2)%Q
  /\ suite_run_until (live_time self2 2%Q) Sample.add_fails
                     ["test_sub"; "test_add"] failfast_result 0%Q
     = suite_run_until (live_time self1 2%Q) Sample.add_fails
                       ["test_sub"; "test_add"] failfast_result 0%Q.
Proof.
  cbv zeta.
  assert (H : (timeout_factor
                 (Sample.controller Sample.passing [Sample.AOR] false)
               <= 10)%Q) by (unfold Qle; cbn; lia).
  split; [exact H |].
  apply (@larger_factor_keeps_finished_runs
           (Sample.controller Sample.passing [Sample.AOR] false)
           (mkController
              (target_loader
                 (Sample.controller Sample.passing [Sample.AOR] false))
              (test_loader
                 (Sample.controller Sample.passing [Sample.AOR] false))
              (mutant_generator
                 (Sample.controller Sample.passing [Sample.AOR] false))
              10%Q false)
           2%Q Sample.add_fails ["test_sub"; "test_add"] failfast_result H).
  reflexivity.
Defined.

Lemma deadline_covers_the_baseline_witness :
  let self := Sample.controller Sample.passing [Sample.AOR] false in
  (1 <= timeout_factor self)%Q
  /\ (1 <= live_time self (3 # 2))%Q
  /\ (3 # 2 <= live_time self (3 # 2))%Q.
Proof.
  cbv zeta.
  assert (H : (1 <= timeout_factor
                      (Sample.controller Sample.passing [Sample.AOR]
                                         false))%Q)
    by (unfold Qle; cbn; lia).
  split; [exact H |].
  exact (@deadline_covers_the_baseline
           (Sample.controller Sample.passing [Sample.AOR] false)
           (3 # 2)%Q H).
Defined.

(* ================================================================== *)
(** ** Further properties of the mutation loop *)

Section LoopMore.

Import MutationScore.

Variable self : MutationController.



(** X21.  A target whose source cannot be read or parsed ends
    [mutate_module] with the exception [open] or [ast.parse] raised:
    nothing is announced for it, no operator is asked for mutants of it
    and the ledger is left as it was. *)
Theorem unparsable_target_aborts
        (target_module : TargetModule) (to_mutate : option string)
        (tms : list (TestModule * option string * Q))
        (e : exn) (s : state) :
  tgt_parse target_module = inl e ->
  sigint s <> Some 0%nat ->
  let out := mutate_module self target_module to_mutate tms s in
  fst out = Raise e
  /\ new_events s (snd out) = []
  /\ score_var (snd out) = score_var s
  /\ runner (snd out) = runner s.
Proof.
  intros Hp Hi. cbv zeta. rewrite (@mutate_module_unfold self).
  destruct (@create_target_ast_effect self target_module s)
    as (Hl & Hs & Hr & _ & Hres).
  destruct (create_target_ast self target_module s) as [[tree | e'] s0];
    cbn [fst snd] in *.
  - destruct Hres as [Hres _]. congruence.
  - destruct Hres as [[Hres _] | [_ Hres]]; [contradiction |].
    assert (e' = e) by congruence. subst e'.
    repeat split; auto.
    apply new_events_app. rewrite app_nil_r. exact Hl.
Qed.

(** X22.  When the operator's interrupt arrives while the controller
    waits in [join], [KeyboardInterrupt] leaves [run_tests_with_mutant]
    at once: the runner thread was started and is neither joined nor
    killed, so it is left running; [enable_stdout] is not reached, so a
    configured suppression stays in force; and the mutant is recorded
    in no counter. *)
Theorem interrupted_wait_leaves_the_runner
        (tms : list (TestModule * option string * Q)) (m : Module)
        (s : state) :
  sigint s = Some 0%nat ->
  let out := run_tests_with_mutant self tms m s in
  fst out = Raise KeyboardInterrupt
  /\ new_events s (snd out) = [ThreadStart (ast_id (mod_code m))]
  /\ runner (snd out) = Running (ast_id (mod_code m))
  /\ stdout_off (snd out) = stdout_manager self || stdout_off s
  /\ score_var (snd out) = score_var s.
Proof.
  destruct s as [off sv lg nw sg rn]. intros Hi. cbn [sigint] in Hi.
  subst sg. cbv zeta. unfold new_events.
  unfold run_tests_with_mutant, run_mutation_thread.
  destruct (stdout_manager self) eqn:Eflag;
    autounfold with py; rewrite ?Eflag; cbn;
    rewrite ?skipn_app, ?skipn_all, ?Nat.sub_diag; repeat split.
Qed.

Lemma record_all_grows (os : list outcome) :
  forall sc,
    killed_mutants sc <= killed_mutants (record_all os sc)
    /\ timeout_mutants sc <= timeout_mutants (record_all os sc)
    /\ incompetent_mutants sc <= incompetent_mutants (record_all os sc)
    /\ survived_mutants sc <= survived_mutants (record_all os sc).
Proof.
  induction os as [| o os IH]; intros sc.
  - cbn. lia.
  - cbn [record_all fold_left].
    change (fold_left (fun acc o0 => record o0 acc) os (record o sc))
      with (record_all os (record o sc)).
    destruct (IH (record o sc)) as (Hk & Ht & Hi & Hs).
    destruct o; cbn in *; lia.
Qed.

(** X23.  The ledger only grows: whatever a call of [mutate_module]
    does, normal end, interrupt or other exception, the ledger stays
    bound and none of its four counters is lower afterwards than
    before. *)
Theorem ledger_only_grows
        (target_module : TargetModule) (to_mutate : option string)
        (tms : list (TestModule * option string * Q))
        (s : state) (sc : t) :
  score_var s = Some sc ->
  exists sc',
    score_var (snd (mutate_module self target_module to_mutate tms s))
    = Some sc'
    /\ killed_mutants sc <= killed_mutants sc'
    /\ timeout_mutants sc <= timeout_mutants sc'
    /\ incompetent_mutants sc <= incompetent_mutants sc'
    /\ survived_mutants sc <= survived_mutants sc'.
Proof.
  intros Hs.
  destruct (@mutate_module_counts self target_module to_mutate tms s sc Hs)
    as (new & _ & Hsc & _).
  eexists. split; [exact Hsc |]. apply record_all_grows.
Qed.

End LoopMore.


(* ================================================================== *)
(** ** The order of the announcements *)

Section Announcements.

Import MutationScore.

Variable self : MutationController.

Lemma announced_mutants_app (l1 l2 : list event) :
  announced_mutants (l1 ++ l2)
  = announced_mutants l1 ++ announced_mutants l2.
Proof.
  induction l1 as [| e l1 IH]; [reflexivity |].
  destruct e as [[] | | |]; cbn [app announced_mutants]; rewrite IH;
    reflexivity.
Qed.

Lemma announced_mutants_evaluation (l : list event) :
  forallb is_evaluation_event l = true -> announced_mutants l = [].
Proof.
  induction l as [| e l IH]; [reflexivity |].
  cbn [forallb]. intros H. apply andb_prop in H. destruct H as [He Hl].
  destruct e as [[] | | |]; cbn in He; try discriminate;
    cbn [announced_mutants]; auto.
Qed.

Lemma mutant_loop_announces
      (target_module : TargetModule) (filename : string)
      (tms : list (TestModule * option string * Q))
      (items : list (Mutator.Operator * nat * Ast)) :
  forall (s : state) (sc : t),
    score_var s = Some sc ->
    let out := for_each items
                 (evaluate_mutant self target_module filename tms) s in
    exists new k,
      log (snd out) = log s ++ new
      /\ announced_mutants new
         = firstn k (map (announcement_of filename) items)
      /\ (is_val (fst out) = true ->
          announced_mutants new = map (announcement_of filename) items).
Proof.
  induction items as [| item rest IH]; intros s sc Hs.
  - exists [], 0%nat. cbn. rewrite app_nil_r. repeat split.
  - cbv zeta. rewrite for_each_cons.
    destruct (@evaluate_mutant_counts self target_module filename tms item
                s sc Hs) as (new0 & _ & _ & Hres).
    destruct (@evaluate_mutant_number self target_module filename tms item
                s sc Hs) as (ev & Hl1 & Hp1).
    pose proof (announced_mutants_evaluation _ Hp1) as Hn1.
    destruct (evaluate_mutant self target_module filename tms item s)
      as [[[] | e] s1]; cbn [fst snd] in *.
    + destruct Hres as (o & _ & Hs1).
      destruct (IH s1 (record o sc) Hs1) as (new2 & k & Hl2 & Hn2 & Hv2).
      eexists (_ :: ev ++ new2), (S k).
      split; [rewrite Hl2, Hl1, <- app_assoc; reflexivity |].
      cbn [announced_mutants map firstn].
      rewrite announced_mutants_app, Hn1. cbn [app].
      split; [rewrite Hn2; reflexivity |].
      intros Hval. rewrite (Hv2 Hval). reflexivity.
    + eexists (_ :: ev), 1%nat.
      split; [exact Hl1 |].
      cbn [announced_mutants map firstn]. rewrite Hn1.
      split; [reflexivity | discriminate].
Qed.

(** X25.  [mutate_module] announces the mutants in the order the
    generator yields them, none skipped and none repeated: what the
    sink is told (operator, file, line, tree) is a prefix of what
    [mutant_generator.mutate] yields for the parsed target, each under
    the base name of the target's file, and the whole of it when the
    call ends normally. *)
Theorem mutants_announced_in_generator_order
        (target_module : TargetModule) (to_mutate : option string)
        (tms : list (TestModule * option string * Q))
        (tree : Ast) (s : state) (sc : t) :
  score_var s = Some sc ->
  tgt_parse target_module = inr tree ->
  let out := mutate_module self target_module to_mutate tms s in
  let yields :=
    map (announcement_of (basename (tgt_file target_module)))
        (Mutator.mutate (mutant_generator self) tree to_mutate) in
  (exists k,
     announced_mutants (new_events s (snd out)) = firstn k yields)
  /\ (is_val (fst out) = true ->
      announced_mutants (new_events s (snd out)) = yields).
Proof.
  intros Hs Hp. cbv zeta. rewrite (@mutate_module_unfold self).
  destruct (@create_target_ast_effect self target_module s)
    as (Hl0 & Hs0 & _ & _ & Hres).
  destruct (create_target_ast self target_module s) as [[tree' | e] s0];
    cbn [fst snd] in *.
  - destruct Hres as [Hres _]. rewrite Hp in Hres.
    injection Hres as <-. rewrite Hs in Hs0.
    destruct (mutant_loop_announces target_module
                (basename (tgt_file target_module)) tms
                (Mutator.mutate (mutant_generator self) tree to_mutate)
                s0 Hs0) as (new & k & Hl & Hn & Hv).
    cbv zeta in Hl, Hv. rewrite Hl0 in Hl.
    rewrite (@new_events_app s _ _ Hl).
    split; [exists k; exact Hn | exact Hv].
  - assert (Hnew : new_events s s0 = []).
    { apply new_events_app. rewrite app_nil_r. exact Hl0. }
    rewrite Hnew. split; [exists 0%nat; reflexivity | discriminate].
Qed.

End Announcements.

Lemma mutants_announced_in_generator_order_witness :
  let self := Sample.controller Sample.passing [Sample.SDL; Sample.AOR]
                                false in
  let out := mutate_module self Sample.calc None Sample.validated
                           (Sample.in_loop None) in
  tgt_parse Sample.calc = inr Sample.original
  /\ is_val (fst out) = true
  /\ announced_mutants (new_events (Sample.in_loop None) (snd out))
     = [("SDL", "calc.py", 7%nat, 5%nat); ("AOR", "calc.py", 3%nat, 1%nat);
        ("AOR", "calc.py", 3%nat, 2%nat); ("AOR", "calc.py", 3%nat, 3%nat)].
Proof.
  cbv zeta. split; [reflexivity |]. split; [reflexivity |].
  exact (proj2 (@mutants_announced_in_generator_order
                  (Sample.controller Sample.passing
                                     [Sample.SDL; Sample.AOR] false)
                  Sample.calc None Sample.validated Sample.original
                  (Sample.in_loop None) MutationScore.init eq_refl eq_refl)
               eq_refl).
Defined.

(* ================================================================== *)
(** ** The further properties on the sample project *)

(** Three test modules, two of them restricted to one test, loaded in
    an order that is not the alphabetical one; then the same modules
    from a loader that fails on a fourth. *)
Lemma load_and_check_tests_keeps_order_witness :
  let items := [(Sample.test_known_bug, Some "test_sub");
                (Sample.test_calc, Some "test_add");
                (Sample.test_calc, @None string)] in
  let gone := ModulesLoaderException "test_gone" in
  let self := Sample.controller items [Sample.AOR] false in
  let failing :=
    mkController (mkLoader ["pkg.calc"] (mkGen [(Sample.calc, None)] None))
                 (mkLoader ["test_known_bug"; "test_calc"; "test_gone"]
                           (mkGen items (Some gone)))
                 (Mutator.mk [Sample.AOR]) 5%Q false in
  let out := load_and_check_tests self (initial_state None) in
  let out' := load_and_check_tests failing (initial_state None) in
  (load (test_loader self) = mkGen items None
   /\ (exists validated,
         fst out = Val validated /\ map fst validated = items)
   /\ new_events (initial_state None) (snd out)
      = [BaselineRun "test_known_bug"; BaselineRun "test_calc";
         BaselineRun "test_calc"]
   /\ score_var (snd out) = None)
  /\ (load (test_loader failing) = mkGen items (Some gone)
      /\ fst out' = Raise gone
      /\ new_events (initial_state None) (snd out')
         = [BaselineRun "test_known_bug"; BaselineRun "test_calc";
            BaselineRun "test_calc"]
      /\ score_var (snd out') = None).
Proof.
  cbv zeta. split; (split; [reflexivity |]).
  - refine (@load_and_check_tests_keeps_order
             (Sample.controller
                [(Sample.test_known_bug, Some "test_sub");
                 (Sample.test_calc, Some "test_add");
                 (Sample.test_calc, @None string)] [Sample.AOR] false)
             [(Sample.test_known_bug, Some "test_sub");
              (Sample.test_calc, Some "test_add");
              (Sample.test_calc, @None string)]
             None (initial_state None) eq_refl I _).
    repeat constructor.
  - refine (@load_and_check_tests_keeps_order
             (mkController
                (mkLoader ["pkg.calc"] (mkGen [(Sample.calc, None)] None))
                (mkLoader ["test_known_bug"; "test_calc"; "test_gone"]
                   (mkGen [(Sample.test_known_bug, Some "test_sub");
                           (Sample.test_calc, Some "test_add");
                           (Sample.test_calc, @None string)]
                          (Some (ModulesLoaderException "test_gone"))))
                (Mutator.mk [Sample.AOR]) 5%Q false)
             [(Sample.test_known_bug, Some "test_sub");
              (Sample.test_calc, Some "test_add");
              (Sample.test_calc, @None string)]
             (Some (ModulesLoaderException "test_gone"))
             (initial_state None) eq_refl I _).
    repeat constructor.
Defined.

Lemma test_load_error_is_reported_witness :
  let self :=
    mkController (mkLoader ["pkg.calc"] (mkGen [(Sample.calc, None)] None))
                 (mkLoader ["test_calc"; "test_gone"]
                    (mkGen Sample.passing
                           (Some (ModulesLoaderException "test_gone"))))
                 (Mutator.mk [Sample.AOR]) 5%Q false in
  let out := run self (initial_state None) in
  load (test_loader self)
  = mkGen Sample.passing (Some (ModulesLoaderException "test_gone"))
  /\ fst out = Val tt
  /\ new_events (initial_state None) (snd out)
     = [Notify (NInitialize ["pkg.calc"] ["test_calc"; "test_gone"]);
        BaselineRun "test_calc"; Notify (NCantLoad "test_gone")]
  /\ score_var (snd out) = None.
Proof.
  cbv zeta. split; [reflexivity |].
  exact (@test_load_error_is_reported
           (mkController
              (mkLoader ["pkg.calc"] (mkGen [(Sample.calc, None)] None))
              (mkLoader ["test_calc"; "test_gone"]
                 (mkGen Sample.passing
                        (Some (ModulesLoaderException "test_gone"))))
              (Mutator.mk [Sample.AOR]) 5%Q false)
           Sample.passing "test_gone" (initial_state None) eq_refl I
           (Forall_cons (Sample.test_calc, @None string) eq_refl
                        (Forall_nil _))).
Defined.


Lemma unparsable_target_aborts_witness :
  let self := Sample.controller Sample.passing [Sample.AOR] false in
  let broken :=
    mkTargetModule "pkg.broken" "/src/pkg/broken.py"
                   (inl (PyException "SyntaxError" "invalid syntax")) in
  let out := mutate_module self broken None Sample.validated
                           (Sample.in_loop None) in
  fst out = Raise (PyException "SyntaxError" "invalid syntax")
  /\ new_events (Sample.in_loop None) (snd out) = []
  /\ score_var (snd out) = Some MutationScore.init
  /\ runner (snd out) = NoThread.
Proof.
  cbv zeta.
  apply (@unparsable_target_aborts
           (Sample.controller Sample.passing [Sample.AOR] false)
           (mkTargetModule "pkg.broken" "/src/pkg/broken.py"
              (inl (PyException "SyntaxError" "invalid syntax")))
           None Sample.validated
           (PyException "SyntaxError" "invalid syntax")
           (Sample.in_loop None) eq_refl).
  discriminate.
Defined.

Lemma interrupted_wait_leaves_the_runner_witness :
  let self := Sample.controller Sample.passing [Sample.AOR] true in
  let m := mkModule "calc" Sample.looping in
  let out := run_tests_with_mutant self Sample.validated m
                                   (Sample.in_loop (Some 0%nat)) in
  fst out = Raise KeyboardInterrupt
  /\ new_events (Sample.in_loop (Some 0%nat)) (snd out) = [ThreadStart 3]
  /\ runner (snd out) = Running 3
  /\ stdout_off (snd out) = true
  /\ score_var (snd out) = Some MutationScore.init.
Proof.
  cbv zeta.
  exact (@interrupted_wait_leaves_the_runner
           (Sample.controller Sample.passing [Sample.AOR] true)
           Sample.validated (mkModule "calc" Sample.looping)
           (Sample.in_loop (Some 0%nat)) eq_refl).
Defined.

Lemma ledger_only_grows_witness :
  let self := Sample.controller Sample.passing [Sample.AOR] false in
  score_var (Sample.in_loop (Some 5%nat)) = Some (MutationScore.mk 0 0 0 0)
  /\ exists sc',
       score_var (snd (mutate_module self Sample.calc None Sample.validated
                                     (Sample.in_loop (Some 5%nat))))
       = Some sc'
       /\ 0 <= MutationScore.killed_mutants sc'
       /\ 0 <= MutationScore.timeout_mutants sc'
       /\ 0 <= MutationScore.incompetent_mutants sc'
       /\ 0 <= MutationScore.survived_mutants sc'.
Proof.
  cbv zeta. split; [reflexivity |].
  exact (@ledger_only_grows
           (Sample.controller Sample.passing [Sample.AOR] false)
           Sample.calc None Sample.validated (Sample.in_loop (Some 5%nat))
           (MutationScore.mk 0 0 0 0) eq_refl).
Defined.
